(** * maps-screenshot-bot: a shallow embedding of [MapsScreenshotBot]

    The development follows [src/maps-screenshot-bot.py].

    Number model.  A Python [int] is a [Z].  A Python float or numpy
    float64 is carried as the rational it denotes ([Q]); comparisons,
    [min] and [max] are exact on floats, so they are the comparisons of
    [Q].  The arithmetic of the containment test (line 59) is binary64
    arithmetic: each of its operations returns the exact result rounded to
    the nearest double, ties to even, with overflow to an infinity, as
    the standard library's [SpecFloat] specifies it.  The arithmetic of
    the grid (lines 68-79 and 113-116) and the progress percentage are
    idealised as exact.
    Exceptions are values of [exn] carried by [result]; the calls to the
    browser, the screen grabber and the file system are events appended to a
    history, their outcome being chosen by an arbitrary [environment]. *)

From Stdlib Require Import String DecimalString DecimalZ.
From Stdlib Require Import QArith Qminmax Qpower ZArith List Bool Lia Lqa.
From Stdlib Require Import SpecFloat.
Import ListNotations.

Open Scope Q_scope.

(* ================================================================== *)
(** * Python values, exceptions and results *)

(** The exceptions the modelled code can meet.  [External] stands for any
    exception class of a collaborator (selenium, pyautogui, PIL, os) other
    than selenium's [TimeoutException]. *)
Inductive exn : Type :=
| IndexError
| ZeroDivisionError
| UnboundLocalError
| TypeError
| ValueError
| TimeoutException
| External (name : string).

Inductive result (A : Type) : Type :=
| Return (a : A)
| Raise (e : exn).
Arguments Return {A} a.
Arguments Raise {A} e.

Definition rbind {A B : Type} (m : result A) (k : A -> result B) : result B :=
  match m with
  | Return a => k a
  | Raise e => Raise e
  end.

Notation "'let?' x ':=' m 'in' k" := (rbind m (fun x => k))
  (at level 10, x pattern, m at level 100, k at level 200).

(** A [for] loop over a list whose body may raise; the loop state is
    threaded from one iteration to the next. *)
Fixpoint for_each {A S : Type} (xs : list A) (body : A -> S -> result S)
    (st : S) : result S :=
  match xs with
  | [] => Return st
  | a :: xs' => let? st' := body a st in for_each xs' body st'
  end.

(** [seq[i]] for a non-negative index. *)
Definition py_index {A : Type} (l : list A) (i : nat) : result A :=
  match nth_error l i with
  | Some a => Return a
  | None => Raise IndexError
  end.

(** [a / b] on numbers taken as exact (line 134). *)
Definition py_div (a b : Q) : result Q :=
  if Qeq_bool b 0 then Raise ZeroDivisionError else Return (a / b).

(** [a > b]. *)
Definition Qgtb (a b : Q) : bool := negb (Qle_bool a b).

(** A Python number: [2 ** k] is an [int] for [k >= 0] and a [float]
    otherwise, and numpy tells the two apart. *)
Inductive pynum : Type :=
| PyInt (z : Z)
| PyFloat (q : Q).

Definition pynum_value (v : pynum) : Q :=
  match v with
  | PyInt z => inject_Z z
  | PyFloat q => q
  end.

(* ================================================================== *)
(** * binary64 arithmetic *)

(** The two parameters of binary64 in [SpecFloat]: 53 bits of mantissa,
    infinities at exponent 1024. *)
Definition prec : Z := 53.
Definition emax : Z := 1024.

(** The rational a finite double denotes; the infinities and NaN denote no
    rational and are told apart before this is used. *)
Definition float_value (v : spec_float) : Q :=
  match v with
  | S754_finite s m e => (if s then -1 else 1) * inject_Z (Zpos m) * 2 ^ e
  | _ => 0
  end.

(** The double nearest to a rational (ties to even, an infinity beyond the
    largest double): the correctly rounded quotient of numerator and
    denominator. *)
Definition float_round (q : Q) : spec_float :=
  match Qnum q with
  | Z0 => S754_zero false
  | Zpos n =>
      SFdiv prec emax (S754_finite false n 0) (S754_finite false (Qden q) 0)
  | Zneg n =>
      SFdiv prec emax (S754_finite true n 0) (S754_finite false (Qden q) 0)
  end.

(** A float literal of the source, such as [0.2]: the double nearest to
    the decimal. *)
Definition double (q : Q) : Q := Qred (float_value (float_round q)).

(** [a - b] on floats: the exact difference, rounded.  binary64 has
    gradual underflow: the difference of two distinct doubles is a
    multiple of the smallest subnormal [2 ** -1074], so it never rounds to
    zero (lemma [float_sub_doubles]).  On rationals that are not doubles
    (which no Python float is) the model keeps this: a non-zero difference
    below the subnormal range is the smallest subnormal of its sign. *)
Definition float_sub (a b : Q) : spec_float :=
  match float_round (a - b) with
  | S754_zero s =>
      if Qeq_bool a b then S754_zero s
      else S754_finite (negb (Qle_bool b a)) 1 (-1074)
  | r => r
  end.

(** The multiples of the smallest subnormal [2 ** -1074]; every double is
    one. *)
Definition subnormal_multiple (q : Q) : Prop :=
  exists k : Z, q == k # 2 ^ 1074.

(** [u * v] on floats. *)
Definition float_mul (u v : spec_float) : spec_float := SFmul prec emax u v.

(** [u / v] on floats: Python raises on a zero divisor of either sign. *)
Definition float_div (u v : spec_float) : result spec_float :=
  match v with
  | S754_zero _ => Raise ZeroDivisionError
  | _ => Return (SFdiv prec emax u v)
  end.

(** [u + b] on floats, for a finite [b]. *)
Definition float_add (u : spec_float) (b : Q) : spec_float :=
  match u with
  | S754_nan => S754_nan
  | S754_infinity s => S754_infinity s
  | _ => float_round (float_value u + b)
  end.

(** [x <= v] for a finite [x]: false against NaN. *)
Definition Qle_float (x : Q) (v : spec_float) : bool :=
  match v with
  | S754_nan => false
  | S754_infinity s => negb s
  | _ => Qle_bool x (float_value v)
  end.

(* ================================================================== *)
(** * The containment test ([is_within_boundary], lines 37-66) *)

Definition point : Type := (Q * Q)%type.

(** The local variables of [point_in_polygon] that live across iterations.
    [xinters] is unbound until its first assignment. *)
Record pip_locals : Type := mk_pip {
  p1x : Q;
  p1y : Q;
  inside : bool;
  xinters : option spec_float
}.

(** One iteration of the loop of lines 53-62, [p2] being [polygon[i % n]].
    Line 59 is evaluated from left to right in binary64:
    [((y - p1y) * (p2x - p1x)) / (p2y - p1y) + p1x]. *)
Definition pip_body (x y : Q) (p2 : point) (st : pip_locals)
    : result pip_locals :=
  let '(p2x, p2y) := p2 in
  let? st1 :=
    (if Qgtb y (Qmin (p1y st) p2y) then
       if Qle_bool y (Qmax (p1y st) p2y) then
         if Qle_bool x (Qmax (p1x st) p2x) then
           let? xi :=
             (if negb (Qeq_bool (p1y st) p2y) then
                let? q := float_div
                            (float_mul (float_sub y (p1y st))
                                       (float_sub p2x (p1x st)))
                            (float_sub p2y (p1y st)) in
                Return (Some (float_add q (p1x st)))
              else Return (xinters st)) in
           let? c :=
             (if Qeq_bool (p1x st) p2x then Return true
              else match xi with
                   | Some v => Return (Qle_float x v)
                   | None => Raise UnboundLocalError
                   end) in
           Return (mk_pip (p1x st) (p1y st)
                          (if c then negb (inside st) else inside st) xi)
         else Return st
       else Return st
     else Return st) in
  Return (mk_pip p2x p2y (inside st1) (xinters st1)).

Definition point_in_polygon (pt : point) (polygon : list point)
    : result bool :=
  let '(x, y) := pt in
  let n := length polygon in
  let? p0 := py_index polygon 0 in
  let? st :=
    for_each (seq 0 (n + 1))
      (fun i st => let? p2 := py_index polygon (i mod n) in
                   pip_body x y p2 st)
      (mk_pip (fst p0) (snd p0) false None) in
  Return (inside st).

(** ** Vocabulary for the statements about the containment test *)

(** The nested tests of lines 55-56: the edge is looked at further. *)
Definition crossing_candidate (y : Q) (p1 p2 : point) : bool :=
  Qgtb y (Qmin (snd p1) (snd p2)) && Qle_bool y (Qmax (snd p1) (snd p2)).

(** The right-hand side of line 59, as binary64 computes it on an edge
    that is not horizontal. *)
Definition x_intercept (y : Q) (p1 p2 : point) : spec_float :=
  float_add
    (SFdiv prec emax
       (float_mul (float_sub y (snd p1)) (float_sub (fst p2) (fst p1)))
       (float_sub (snd p2) (snd p1)))
    (fst p1).

(** The x-intercept of the claims: where the line through [p1] and [p2]
    meets the level [y], as an exact number.  The code does not compute
    it; it is what [x_intercept] approximates. *)
Definition exact_x_intercept (y : Q) (p1 p2 : point) : Q :=
  (y - snd p1) * (fst p2 - fst p1) / (snd p2 - snd p1) + fst p1.

(** Line 59 met no rounding error on this edge at this level: its value
    is a finite double and is the exact intercept. *)
Definition computed_exactly (y : Q) (p1 p2 : point) : Prop :=
  match x_intercept y p1 p2 with
  | S754_zero _ | S754_finite _ _ _ => True
  | _ => False
  end /\
  float_value (x_intercept y p1 p2) == exact_x_intercept y p1 p2.

(** Whether lines 55-61 flip [inside] at the edge [(p1, p2)]. *)
Definition edge_toggles (x y : Q) (e : point * point) : bool :=
  let '(p1, p2) := e in
  crossing_candidate y p1 p2 &&
  Qle_bool x (Qmax (fst p1) (fst p2)) &&
  (Qeq_bool (fst p1) (fst p2) || Qle_float x (x_intercept y p1 p2)).

(** Consecutive pairs of a vertex sequence. *)
Fixpoint consec (vs : list point) : list (point * point) :=
  match vs with
  | [] => []
  | a :: vs' =>
      match vs' with
      | [] => []
      | b :: _ => (a, b) :: consec vs'
      end
  end.

Definition parity (bs : list bool) : bool := fold_right xorb false bs.

(** The edges the loop walks through: it starts with [p1 = polygon[0]] and
    takes [p2] from [polygon[0], ..., polygon[n-1], polygon[0]]. *)
Definition visited_edges (polygon : list point) : list (point * point) :=
  match polygon with
  | [] => []
  | p0 :: _ => consec (p0 :: polygon ++ [p0])
  end.

(** The same polygon, started [k] vertices later. *)
Definition rotate_vertices (k : nat) (polygon : list point) : list point :=
  skipn k polygon ++ firstn k polygon.

(* ================================================================== *)
(** * The grid (lines 68-79 and 104-118) *)

(** [2 ** k] for a Python [int] [k]. *)
Definition py_pow2 (k : Z) : pynum :=
  if (0 <=? k)%Z then PyInt (2 ^ k) else PyFloat (/ inject_Z (2 ^ (- k))).

(** [a * b] for a Python [int] [a]. *)
Definition py_mul_int (a : Z) (b : pynum) : pynum :=
  match b with
  | PyInt z => PyInt (a * z)
  | PyFloat q => PyFloat (inject_Z a * q)
  end.

(** [min(...)] and [max(...)] over an iterable: the first smallest (largest)
    item, [ValueError] when there is none. *)
Definition py_min (l : list Q) : result Q :=
  match l with
  | [] => Raise ValueError
  | a :: l' => Return (fold_left Qmin l' a)
  end.

Definition py_max (l : list Q) : result Q :=
  match l with
  | [] => Raise ValueError
  | a :: l' => Return (fold_left Qmax l' a)
  end.

(** The samples of [numpy.linspace(start, stop, num)] for an integer
    [num >= 0], end point included: [arange(num) * step + start] with
    [step = (stop - start) / (num - 1)], the last sample being overwritten
    with [stop] when there is more than one; a single sample is [start]. *)
Definition linspace_samples (start stop : Q) (num : nat) : list Q :=
  let div := (num - 1)%nat in
  let delta := stop - start in
  let step := delta / inject_Z (Z.of_nat div) in
  let y := map (fun i => if (0 <? div)%nat
                         then inject_Z (Z.of_nat i) * step + start
                         else inject_Z (Z.of_nat i) * delta + start)
               (seq 0 num) in
  if (1 <? num)%nat then removelast y ++ [stop] else y.

(** [numpy.linspace(start, stop, num)] as numpy documents it: [num] goes
    through [operator.index], so a [float] is a [TypeError] whatever its
    value, and a negative number of samples is a [ValueError]. *)
Definition linspace (start stop : Q) (num : pynum) : result (list Q) :=
  match num with
  | PyFloat _ => Raise TypeError
  | PyInt n =>
      if (n <? 0)%Z then Raise ValueError
      else Return (linspace_samples start stop (Z.to_nat n))
  end.

(** [str(z)] for a Python [int]. *)
Definition str_int (z : Z) : string := NilZero.string_of_int (Z.to_int z).

(** The attributes of a [MapsScreenshotBot] the code reads back; the
    browser behind [self.driver] is the one the events talk to. *)
Record MapsScreenshotBot : Type := mk_bot {
  city : string;
  boundary_coords : list point;
  zoom_level : Z;
  screenshot_path : string
}.

Definition is_within_boundary (self : MapsScreenshotBot)
    (current_coords : point) : result bool :=
  point_in_polygon current_coords (boundary_coords self).

(** Lines 68-79. *)
Definition calculate_grid_step (self : MapsScreenshotBot) : Q * Q :=
  let base_lat_step := 1 # 1000 in
  let base_lon_step := 1 # 1000 in
  let zoom_factor := py_pow2 (18 - zoom_level self) in
  (base_lat_step * pynum_value zoom_factor,
   base_lon_step * pynum_value zoom_factor).

(** Line 113. *)
Definition actual_grid_size (self : MapsScreenshotBot) (grid_size : Z)
    : pynum :=
  py_mul_int grid_size (py_pow2 (zoom_level self - 18)).

(** Lines 104-107: [(lat_min, lat_max, lon_min, lon_max)]. *)
Definition bounding_box (self : MapsScreenshotBot)
    : result (Q * Q * Q * Q) :=
  let? lat_min := py_min (map fst (boundary_coords self)) in
  let? lat_max := py_max (map fst (boundary_coords self)) in
  let? lon_min := py_min (map snd (boundary_coords self)) in
  let? lon_max := py_max (map snd (boundary_coords self)) in
  Return (lat_min, lat_max, lon_min, lon_max).

(** Lines 113-116, given what came before: the grid axes.  The step sizes
    of line 110 are in scope here, and are not used. *)
Definition grid_axes (self : MapsScreenshotBot) (grid_size : Z)
    (box : Q * Q * Q * Q) (steps : Q * Q) : result (list Q * list Q) :=
  let '(lat_min, lat_max, lon_min, lon_max) := box in
  let '(lat_step, lon_step) := steps in
  let size := actual_grid_size self grid_size in
  let? lat_steps := linspace lat_min lat_max size in
  let? lon_steps := linspace lon_min lon_max size in
  Return (lat_steps, lon_steps).

(** The candidate points in the order the two loops of lines 121-122 visit
    them. *)
Definition grid_points (axes : list Q * list Q) : list point :=
  list_prod (fst axes) (snd axes).

(** Lines 104-116 in one piece. *)
Definition generate_grid (self : MapsScreenshotBot) (grid_size : Z)
    : result (list Q * list Q) :=
  let? box := bounding_box self in
  grid_axes self grid_size box (calculate_grid_step self).

(* ================================================================== *)
(** * Collaborators: events, histories and environments *)

(** What [print] writes.  The percentage is the value handed to the
    [.1f] format. *)
Inductive message : Type :=
| MapLoadingTimeout (lat lon : Q)
| ProgressReport (percent : Q) (processed_points total_points : Z)
| StartingScan (level_name : string) (zoom : Z).

(** The calls that leave the program. *)
Inductive event : Type :=
| EvChrome
| EvMakedirs (path : string)
| EvGet (url : string)
| EvSleep (seconds : Z)
| EvWaitUntil (timeout : Z) (class_name : string)
| EvPrint (m : message)
| EvScreenshot
| EvSave (filename : string)
| EvQuit.

(** A call together with how it ended: [None] when it returned, [Some e]
    when it raised [e]. *)
Definition entry : Type := (event * option exn)%type.
Definition history : Type := list entry.

(** Everything outside the program: how each call ends, whether a path
    exists and what the clock shows, each as a function of what has
    happened so far. *)
Record environment : Type := mk_env {
  outcome : history -> event -> option exn;
  path_exists : history -> string -> bool;
  strftime : history -> string
}.

(** Computations that extend the history and may raise. *)
Definition M (A : Type) : Type := history -> result A * history.

Definition ret {A : Type} (a : A) : M A := fun h => (Return a, h).

Definition bind {A B : Type} (m : M A) (k : A -> M B) : M B :=
  fun h =>
    match m h with
    | (Return a, h') => k a h'
    | (Raise e, h') => (Raise e, h')
    end.

Notation "x <- m ;; k" := (bind m (fun x => k))
  (at level 61, m at next level, right associativity).
Notation "m1 ;;; m2" := (bind m1 (fun _ => m2))
  (at level 61, right associativity).

(** Pure code inside a computation. *)
Definition lift {A : Type} (r : result A) : M A := fun h => (r, h).

(** [try: body / except: handler] with a bare [except]. *)
Definition try_except {A : Type} (body : M A) (handler : exn -> M A) : M A :=
  fun h =>
    match body h with
    | (Return a, h') => (Return a, h')
    | (Raise e, h') => handler e h'
    end.

(** [try: body / finally: fin]: [fin] runs on both exits, and what it
    raises replaces what [body] did. *)
Definition try_finally {A : Type} (body : M A) (fin : M unit) : M A :=
  fun h =>
    match body h with
    | (r, h') =>
        match fin h' with
        | (Return _, h'') => (r, h'')
        | (Raise e, h'') => (Raise e, h'')
        end
    end.

(** A [for] loop whose body talks to the collaborators. *)
Fixpoint for_eachM {A S : Type} (xs : list A) (body : A -> S -> M S)
    (st : S) : M S :=
  match xs with
  | [] => ret st
  | a :: xs' => st' <- body a st ;; for_eachM xs' body st'
  end.

Section Bot.

Variable env : environment.

(** How an f-string renders a float; left open. *)
Variable repr_float : Q -> string.

(** A call that may raise, as the environment decides. *)
Definition call (ev : event) : M unit :=
  fun h =>
    match outcome env h ev with
    | None => (Return tt, h ++ [(ev, None)])
    | Some e => (Raise e, h ++ [(ev, Some e)])
    end.

(** [print] and [time.sleep]: calls taken not to raise. *)
Definition emit (ev : event) : M unit :=
  fun h => (Return tt, h ++ [(ev, None)]).

Definition now : M string := fun h => (Return (strftime env h), h).

Definition exists_path (path : string) : M bool :=
  fun h => (Return (path_exists env h path), h).

(** Lines 28-35. *)
Definition __init__ (city : string) (boundary_coords : list point)
    (zoom_level : Z) : M MapsScreenshotBot :=
  let stored_zoom := Z.min 21 (Z.max 0 zoom_level) in
  call EvChrome ;;;
  let screenshot_path :=
    ("screenshots_" ++ city ++ "_zoom" ++ str_int zoom_level)%string in
  found <- exists_path screenshot_path ;;
  (if negb found then call (EvMakedirs screenshot_path) else ret tt) ;;;
  ret (mk_bot city boundary_coords stored_zoom screenshot_path).

(** The URL of line 83. *)
Definition maps_url (self : MapsScreenshotBot) (lat lon : Q) : string :=
  ("https://www.google.com/maps/@" ++ repr_float lat ++ "," ++
   repr_float lon ++ "," ++ str_int (zoom_level self) ++ "z")%string.

(** The file name of line 129. *)
Definition capture_filename (self : MapsScreenshotBot) (lat lon : Q)
    (timestamp : string) : string :=
  (screenshot_path self ++ "/" ++ city self ++ "_" ++ repr_float lat ++
   "_" ++ repr_float lon ++ "_z" ++ str_int (zoom_level self) ++ "_" ++
   timestamp ++ ".png")%string.

(** Lines 81-93. *)
Definition navigate_to_position (self : MapsScreenshotBot) (lat lon : Q)
    : M unit :=
  let url := maps_url self lat lon in
  call (EvGet url) ;;;
  emit (EvSleep 2) ;;;
  try_except
    (call (EvWaitUntil 10 "gm-style"))
    (fun _ => emit (EvPrint (MapLoadingTimeout lat lon))).

(** Lines 123-139: the body of the inner loop; the loop state is
    [processed_points]. *)
Definition capture_point (self : MapsScreenshotBot) (total_points : Z)
    (pt : point) (processed_points : Z) : M Z :=
  let '(lat, lon) := pt in
  within <- lift (is_within_boundary self (lat, lon)) ;;
  if within then
    navigate_to_position self lat lon ;;;
    timestamp <- now ;;
    let filename := capture_filename self lat lon timestamp in
    call EvScreenshot ;;;
    call (EvSave filename) ;;;
    let processed_points := (processed_points + 1)%Z in
    ratio <- lift (py_div (inject_Z processed_points)
                          (inject_Z total_points)) ;;
    let progress := ratio * 100 in
    emit (EvPrint (ProgressReport progress processed_points total_points)) ;;;
    emit (EvSleep 1) ;;;
    ret processed_points
  else ret processed_points.

(** Lines 118-139. *)
Definition scan_loops (self : MapsScreenshotBot) (axes : list Q * list Q)
    : M Z :=
  let '(lat_steps, lon_steps) := axes in
  let total_points :=
    (Z.of_nat (List.length lat_steps) * Z.of_nat (List.length lon_steps))%Z in
  let processed_points := 0%Z in
  for_eachM lat_steps
    (fun lat processed_points =>
       for_eachM lon_steps
         (fun lon processed_points =>
            capture_point self total_points (lat, lon) processed_points)
         processed_points)
    processed_points.

(** Lines 110-139: the [try] block from the step sizes on. *)
Definition scan_from_steps (self : MapsScreenshotBot) (grid_size : Z)
    (box : Q * Q * Q * Q) (steps : Q * Q) : M unit :=
  axes <- lift (grid_axes self grid_size box steps) ;;
  scan_loops self axes ;;;
  ret tt.

(** Lines 103-139: the [try] block. *)
Definition scan_try_block (self : MapsScreenshotBot) (grid_size : Z)
    : M unit :=
  box <- lift (bounding_box self) ;;
  scan_from_steps self grid_size box (calculate_grid_step self).

(** Lines 102-142. *)
Definition scan_city (self : MapsScreenshotBot) (grid_size : Z) : M unit :=
  try_finally (scan_try_block self grid_size) (call EvQuit).

(** Lines 145-159.  The presets are visited in the order the dictionary
    lists them. *)
Definition zoom_levels : list (string * Z) :=
  [("overview"%string, 16%Z); ("streets"%string, 18%Z);
   ("buildings"%string, 19%Z); ("maximum"%string, 20%Z)].

Definition create_detailed_map (city_name : string)
    (boundary_coords : list point) : M unit :=
  for_eachM zoom_levels
    (fun preset _ =>
       let '(level_name, zoom) := preset in
       emit (EvPrint (StartingScan level_name zoom)) ;;;
       bot <- __init__ city_name boundary_coords zoom ;;
       scan_city bot 10)
    tt.

End Bot.

(** ** Vocabulary for the statements about the grid *)

(** [l] holds [n] samples: the first is [a]; from two samples on they are
    [a + i * (b - a) / (n - 1)] for [i = 0 .. n - 1], a constant increment,
    and the last is [b]. *)
Definition evenly_spaced (a b : Q) (n : nat) (l : list Q) : Prop :=
  List.length l = n /\
  ((1 <= n)%nat -> nth 0 l 0 == a) /\
  ((2 <= n)%nat ->
     forall i, (i < n)%nat ->
       nth i l 0 ==
       a + inject_Z (Z.of_nat i) * ((b - a) / inject_Z (Z.of_nat (n - 1)))) /\
  ((2 <= n)%nat -> nth (n - 1) l 0 == b).

(** ** Vocabulary for the statements about a scan *)

(** The candidates the boundary test lets through. *)
Definition inside_count (self : MapsScreenshotBot) (cands : list point)
    : nat :=
  List.length
    (filter (fun pt => match is_within_boundary self pt with
                       | Return true => true
                       | _ => false
                       end) cands).

(** What a history shows of captures and progress reports. *)
Inductive mark : Type :=
| Captured
| Reported (percent : Q) (processed_points total_points : Z).

Definition mark_of (x : entry) : list mark :=
  match x with
  | (EvSave _, None) => [Captured]
  | (EvPrint (ProgressReport pc p t), _) => [Reported pc p t]
  | _ => []
  end.

Definition marks (l : history) : list mark := flat_map mark_of l.

(** The marks of [count] captures made after [processed] earlier ones. *)
Fixpoint expected_marks (total : Z) (processed : Z) (count : nat)
    : list mark :=
  match count with
  | O => []
  | S count' =>
      let p := (processed + 1)%Z in
      Captured :: Reported (inject_Z p / inject_Z total * 100) p total
        :: expected_marks total p count'
  end.

Definition is_quit (x : entry) : bool :=
  match x with
  | (EvQuit, _) => true
  | _ => false
  end.

(** The calls whose failure the scan does not handle. *)
Definition is_fatal (ev : event) : bool :=
  match ev with
  | EvGet _ | EvScreenshot | EvSave _ => true
  | _ => false
  end.

Definition is_wait (ev : event) : bool :=
  match ev with
  | EvWaitUntil _ _ => true
  | _ => false
  end.

(** ** Specifications of computations *)

(** [m] only extends the history, and its result and the entries it adds
    are related by [P]. *)
Definition sat {A : Type} (m : M A) (P : result A -> history -> Prop)
    : Prop :=
  forall h, exists r l, m h = (r, h ++ l) /\ P r l.

(** Properties that survive sequencing: they hold of doing nothing, pass
    from a raising prefix to the whole, and from a returning prefix and the
    rest to the whole. *)
Record sequential (P : forall A : Type, result A -> history -> Prop)
    : Prop := mk_sequential {
  sequential_ret : forall (A : Type) (a : A), P A (Return a) [];
  sequential_raise : forall (A B : Type) (e : exn) (l : history),
      P A (Raise e) l -> P B (Raise e) l;
  sequential_app : forall (A B : Type) (a : A) (l1 : history) (r : result B)
                   (l2 : history),
      P A (Return a) l1 -> P B r l2 -> P B r (l1 ++ l2)
}.

(** Every added entry satisfies [Q]. *)
Definition only (Q : entry -> Prop) (A : Type) (r : result A) (l : history)
    : Prop :=
  Forall Q l.

(** No call the scan leaves unhandled has failed. *)
Definition no_fatal_failure (l : history) : Prop :=
  Forall (fun x : entry => is_fatal (fst x) = true -> snd x = None) l.

(** A failure of such a call is the last thing that happened, and its
    exception is the result. *)
Definition stops_at_fatal (A : Type) (r : result A) (l : history) : Prop :=
  no_fatal_failure l \/
  exists l0 ev e,
    l = l0 ++ [(ev, Some e)] /\ is_fatal ev = true /\
    no_fatal_failure l0 /\ r = Raise e.

(** The computation returns. *)
Definition returns (A : Type) (r : result A) (l : history) : Prop :=
  exists a, r = Return a.

(** What the body of the [try] block may add to the history: requests for
    this bot's URLs, the two sleeps, the load wait, prints, screen grabs
    and saves under this bot's file names. *)
Definition scan_entry (repr_float : Q -> string) (self : MapsScreenshotBot)
    (x : entry) : Prop :=
  match fst x with
  | EvGet url => exists lat lon, url = maps_url repr_float self lat lon
  | EvSave filename =>
      exists lat lon timestamp,
        filename = capture_filename repr_float self lat lon timestamp
  | EvSleep _ | EvWaitUntil _ _ | EvPrint _ | EvScreenshot => True
  | EvChrome | EvMakedirs _ | EvQuit => False
  end.

(** An environment in which nothing fails, nothing exists yet and the
    clock stands still. *)
Definition quiet_env : environment :=
  mk_env (fun _ _ => None) (fun _ _ => false)
         (fun _ => "20240101-000000"%string).

(** An environment in which every load wait ends with an exception that is
    not a timeout, and nothing else fails. *)
Definition broken_wait_env : environment :=
  mk_env (fun _ ev => if is_wait ev
                      then Some (External "NoSuchWindowException")
                      else None)
         (fun _ _ => false)
         (fun _ => "20240101-000000"%string).

(** A rendering of floats for the examples: numerator, then denominator. *)
Definition repr_fraction (q : Q) : string :=
  (str_int (Qnum (Qred q)) ++ "/" ++ str_int (Zpos (Qden (Qred q))))%string.

Definition square : list point := [(0, 0); (0, 2); (2, 2); (2, 0); (0, 0)].

(** ** Vocabulary for further properties of a scan *)

(** The boundary test as the [if] of line 123 uses it. *)
Definition in_boundary (self : MapsScreenshotBot) (pt : point) : bool :=
  match is_within_boundary self pt with
  | Return true => true
  | _ => false
  end.

(** The points a scan sets out to capture, in the order of the loops;
    none when the grid cannot be generated. *)
Definition planned_points (self : MapsScreenshotBot) (grid_size : Z)
    : list point :=
  match generate_grid self grid_size with
  | Return axes => filter (in_boundary self) (grid_points axes)
  | Raise _ => []
  end.

(** The URLs asked of the browser, in order, whether or not the request
    succeeded. *)
Definition requested_urls (l : history) : list string :=
  flat_map (fun x : entry => match fst x with
                             | EvGet url => [url]
                             | _ => []
                             end) l.

(** The files written, in order. *)
Definition saved_files (l : history) : list string :=
  flat_map (fun x : entry => match x with
                             | (EvSave filename, None) => [filename]
                             | _ => []
                             end) l.

(** The seconds spent in [time.sleep]. *)
Definition slept (l : history) : Z :=
  fold_right Z.add 0%Z
    (flat_map (fun x : entry => match fst x with
                                | EvSleep seconds => [seconds]
                                | _ => []
                                end) l).

(** The entries of the load wait of lines 88-93, [w] being how the wait
    ended. *)
Definition wait_entries (lat lon : Q) (w : option exn) : history :=
  match w with
  | None => [(EvWaitUntil 10 "gm-style", None)]
  | Some e => [(EvWaitUntil 10 "gm-style", Some e);
               (EvPrint (MapLoadingTimeout lat lon), None)]
  end.

(** The ways one pass of the loop body can go for an in-boundary point:
    the result and the entries added. *)
Inductive point_run (repr_float : Q -> string) (self : MapsScreenshotBot)
    (total : Z) (pt : point) (p : Z) : result Z -> history -> Prop :=
| run_get_raises (e : exn) :
    point_run repr_float self total pt p (Raise e)
      [(EvGet (maps_url repr_float self (fst pt) (snd pt)), Some e)]
| run_screenshot_raises (w : option exn) (e : exn) :
    point_run repr_float self total pt p (Raise e)
      ((EvGet (maps_url repr_float self (fst pt) (snd pt)), None)
       :: (EvSleep 2, None)
       :: wait_entries (fst pt) (snd pt) w
       ++ [(EvScreenshot, Some e)])
| run_save_raises (w : option exn) (timestamp : string) (e : exn) :
    point_run repr_float self total pt p (Raise e)
      ((EvGet (maps_url repr_float self (fst pt) (snd pt)), None)
       :: (EvSleep 2, None)
       :: wait_entries (fst pt) (snd pt) w
       ++ [(EvScreenshot, None);
           (EvSave (capture_filename repr_float self (fst pt) (snd pt)
                      timestamp), Some e)])
| run_no_total (w : option exn) (timestamp : string) :
    Qeq_bool (inject_Z total) 0 = true ->
    point_run repr_float self total pt p (Raise ZeroDivisionError)
      ((EvGet (maps_url repr_float self (fst pt) (snd pt)), None)
       :: (EvSleep 2, None)
       :: wait_entries (fst pt) (snd pt) w
       ++ [(EvScreenshot, None);
           (EvSave (capture_filename repr_float self (fst pt) (snd pt)
                      timestamp), None)])
| run_captured (w : option exn) (timestamp : string) :
    Qeq_bool (inject_Z total) 0 = false ->
    point_run repr_float self total pt p (Return (p + 1)%Z)
      ((EvGet (maps_url repr_float self (fst pt) (snd pt)), None)
       :: (EvSleep 2, None)
       :: wait_entries (fst pt) (snd pt) w
       ++ [(EvScreenshot, None);
           (EvSave (capture_filename repr_float self (fst pt) (snd pt)
                      timestamp), None);
           (EvPrint (ProgressReport
                       (inject_Z (p + 1) / inject_Z total * 100)
                       (p + 1) total), None);
           (EvSleep 1, None)]).

(** The ways the loops can go over a list of candidates, from
    [processed_points = p] on. *)
Inductive loop_run (repr_float : Q -> string) (self : MapsScreenshotBot)
    (total : Z) : list point -> Z -> result Z -> history -> Prop :=
| loop_done (p : Z) :
    loop_run repr_float self total [] p (Return p) []
| loop_test_raises (pt : point) (cands : list point) (p : Z) (e : exn) :
    is_within_boundary self pt = Raise e ->
    loop_run repr_float self total (pt :: cands) p (Raise e) []
| loop_skip (pt : point) (cands : list point) (p : Z) (r : result Z)
    (l : history) :
    is_within_boundary self pt = Return false ->
    loop_run repr_float self total cands p r l ->
    loop_run repr_float self total (pt :: cands) p r l
| loop_stop (pt : point) (cands : list point) (p : Z) (e : exn)
    (l : history) :
    is_within_boundary self pt = Return true ->
    point_run repr_float self total pt p (Raise e) l ->
    loop_run repr_float self total (pt :: cands) p (Raise e) l
| loop_next (pt : point) (cands : list point) (p p' : Z) (l : history)
    (r : result Z) (l' : history) :
    is_within_boundary self pt = Return true ->
    point_run repr_float self total pt p (Return p') l ->
    loop_run repr_float self total cands p' r l' ->
    loop_run repr_float self total (pt :: cands) p r (l ++ l').

(** A progress report of the given total whose count lies in
    [lo < processed <= hi] and whose percentage is computed from them. *)
Definition report_within (total lo hi : Z) (x : entry) : Prop :=
  match fst x with
  | EvPrint (ProgressReport percent processed total') =>
      total' = total /\ (lo < processed <= hi)%Z /\
      percent = inject_Z processed / inject_Z total * 100
  | _ => True
  end.

(** The calls [__init__] and a scan without candidates are made of. *)
Definition is_setup_or_quit (x : entry) : Prop :=
  match fst x with
  | EvChrome | EvMakedirs _ | EvQuit => True
  | _ => False
  end.

(* ================================================================== *)
(** * Properties of the containment test *)

Lemma Qgtb_true (a b : Q) : Qgtb a b = true <-> b < a.
Proof.
  unfold Qgtb. rewrite negb_true_iff.
  destruct (Qle_bool a b) eqn:E.
  - apply Qle_bool_iff in E. split; [discriminate | intros H; lra].
  - split; [intros _ | reflexivity].
    destruct (Qlt_le_dec b a) as [H | H]; [exact H |].
    apply Qle_bool_iff in H. congruence.
Qed.

Lemma Qeq_bool_false (a b : Q) : Qeq_bool a b = false <-> ~ a == b.
Proof.
  split.
  - intros E H. apply Qeq_bool_iff in H. congruence.
  - intros H. destruct (Qeq_bool a b) eqn:E; [| reflexivity].
    apply Qeq_bool_iff in E. contradiction.
Qed.

Lemma Qmin_lt_max_neq (a b y : Q) :
  Qmin a b < y -> y <= Qmax a b -> ~ a == b.
Proof.
  intros H1 H2 E.
  destruct (Q.min_spec a b) as [[_ Hm] | [_ Hm]];
  destruct (Q.max_spec a b) as [[_ HM] | [_ HM]];
  rewrite Hm in H1; rewrite HM in H2; lra.
Qed.

(** A candidate edge is never horizontal. *)
Lemma crossing_candidate_not_horizontal (y : Q) (p1 p2 : point) :
  crossing_candidate y p1 p2 = true -> ~ snd p1 == snd p2.
Proof.
  unfold crossing_candidate. rewrite andb_true_iff, Qgtb_true.
  intros [H1 H2]. apply Qle_bool_iff in H2.
  eapply Qmin_lt_max_neq; eassumption.
Qed.

(** ** binary64 subtraction

    [float_sub] departs from plain rounding only where rounding would turn
    a non-zero difference into zero.  That never happens to doubles: what
    follows shows that a rational of magnitude [2 ** -1074] or more is not
    rounded to zero, that every double is a multiple of [2 ** -1074], and
    so that on doubles [float_sub] is the rounded difference. *)

Section Binary64.
Local Open Scope Z_scope.

Lemma digits2_pos_size (p : positive) : digits2_pos p = Pos.size p.
Proof. induction p; cbn; congruence. Qed.

Lemma digits2_bounds (p : positive) :
  2 ^ (Zpos (digits2_pos p) - 1) <= Zpos p < 2 ^ Zpos (digits2_pos p).
Proof.
  rewrite digits2_pos_size.
  pose proof (Pos.size_gt p) as G. pose proof (Pos.size_le p) as L.
  apply Pos2Z.pos_lt_pos in G. apply Pos2Z.pos_le_pos in L.
  rewrite Pos2Z.inj_pow in G, L.
  split; [| exact G].
  assert (E : 2 ^ Zpos (Pos.size p) = 2 * 2 ^ (Zpos (Pos.size p) - 1)).
  { rewrite <- Z.pow_succ_r by lia. f_equal. lia. }
  rewrite E in L. change (Zpos p~0) with (2 * Zpos p) in L. lia.
Qed.

Lemma shr_1_m (mrs : shr_record) :
  0 <= shr_m mrs -> shr_m (shr_1 mrs) = shr_m mrs / 2.
Proof.
  destruct mrs as [m r s]. cbn [shr_m]. intros H.
  destruct m as [| p | p]; [reflexivity | | lia].
  destruct p as [p | p |]; cbn [shr_1 shr_m].
  - rewrite Pos2Z.inj_xI.
    apply Z.div_unique with (r := 1); lia.
  - rewrite Pos2Z.inj_xO.
    apply Z.div_unique with (r := 0); lia.
  - reflexivity.
Qed.

Lemma iter_shr_1_m (p : positive) (mrs : shr_record) :
  0 <= shr_m mrs ->
  shr_m (iter_pos shr_1 p mrs) = shr_m mrs / 2 ^ Zpos p.
Proof.
  revert mrs. induction p as [p IH | p IH |]; intros mrs H; cbn [iter_pos].
  - assert (H1 : 0 <= shr_m (shr_1 mrs))
      by (rewrite shr_1_m by exact H; apply Z.div_pos; lia).
    assert (H2 : 0 <= shr_m (iter_pos shr_1 p (shr_1 mrs)))
      by (rewrite IH by exact H1; apply Z.div_pos; lia).
    rewrite IH by exact H2. rewrite IH by exact H1. rewrite shr_1_m by exact H.
    rewrite !Z.div_div by lia. f_equal.
    rewrite Pos2Z.inj_xI, Z.pow_add_r, Z.pow_mul_r by lia.
    change (2 ^ 2) with 4. change (2 ^ 1) with 2.
    replace (4 ^ Zpos p) with (2 ^ Zpos p * 2 ^ Zpos p); [ring |].
    rewrite <- Z.pow_add_r by lia. replace (Zpos p + Zpos p) with (2 * Zpos p) by lia.
    now rewrite Z.pow_mul_r by lia.
  - assert (H2 : 0 <= shr_m (iter_pos shr_1 p mrs))
      by (rewrite IH by exact H; apply Z.div_pos; lia).
    rewrite IH by exact H2. rewrite IH by exact H.
    rewrite Z.div_div by lia. f_equal.
    rewrite Pos2Z.inj_xO. rewrite <- Z.pow_add_r by lia. f_equal. lia.
  - rewrite shr_1_m by exact H. reflexivity.
Qed.

Lemma shr_record_of_loc_m (m : Z) (l : location) :
  shr_m (shr_record_of_loc m l) = m.
Proof. destruct l as [| []]; reflexivity. Qed.

(** Rounding to the format's exponent range keeps a positive mantissa
    positive: only the digits beyond the 53rd are shifted out. *)
Lemma shr_fexp_pos (m e : Z) (l : location) :
  0 < m -> -1074 <= e ->
  0 < shr_m (fst (shr_fexp prec emax m e l)) /\
  -1074 <= snd (shr_fexp prec emax m e l).
Proof.
  intros Hm He. unfold shr_fexp, shr.
  destruct m as [| p | p]; try lia. cbn [Zdigits2].
  pose proof (digits2_bounds p) as [B1 B2].
  set (dg := Zpos (digits2_pos p)) in *.
  unfold fexp, emin, prec, emax.
  destruct (Z.max (dg + e - 53) (3 - 1024 - 53) - e) as [| k | k] eqn:K;
    cbn [fst snd]; rewrite ?shr_record_of_loc_m; try (split; lia).
  assert (Ek : Zpos k = dg - 53) by lia.
  rewrite iter_shr_1_m by (rewrite shr_record_of_loc_m; lia).
  rewrite shr_record_of_loc_m. split; [| lia].
  apply Z.div_str_pos. split; [apply Z.pow_pos_nonneg; lia |].
  rewrite Ek. etransitivity; [| exact B1].
  apply Z.pow_le_mono_r; lia.
Qed.

Lemma round_nearest_even_pos (m : Z) (l : location) :
  0 < m -> 0 < round_nearest_even m l.
Proof.
  intros H. destruct l as [| []]; cbn; try lia.
  destruct (Z.even m); lia.
Qed.

Lemma binary_round_aux_not_zero (s : bool) (m e : Z) (l : location) :
  0 < m -> -1074 <= e ->
  forall s', binary_round_aux prec emax s m e l <> S754_zero s'.
Proof.
  intros Hm He s'. unfold binary_round_aux.
  destruct (shr_fexp_pos m e l Hm He) as [P1 P2].
  destruct (shr_fexp prec emax m e l) as [mrs' e'] eqn:E1. cbn [fst snd] in *.
  pose proof (round_nearest_even_pos (shr_m mrs') (loc_of_shr_record mrs') P1)
    as R.
  destruct (shr_fexp_pos _ e' loc_Exact R P2) as [P3 _].
  destruct (shr_fexp prec emax
              (round_nearest_even (shr_m mrs') (loc_of_shr_record mrs')) e'
              loc_Exact) as [mrs'' e''] eqn:E2.
  cbn [fst] in P3.
  destruct (shr_m mrs''); try lia.
  destruct (e'' <=? emax - prec); discriminate.
Qed.

Lemma SFdiv_core_binary_integers (n d : positive) :
  SFdiv_core_binary prec emax (Zpos n) 0 (Zpos d) 0 =
  let e' := Z.min (fexp prec emax
                     (Zpos (digits2_pos n) - Zpos (digits2_pos d))) 0 in
  let m' := match - e' with
            | 0 => Zpos n
            | Zpos _ => Z.shiftl (Zpos n) (- e')
            | Zneg _ => 0
            end in
  let '(q, r) := Z.div_eucl m' (Zpos d) in
  (q, e', new_location (Zpos d) r).
Proof. reflexivity. Qed.

Lemma SFdiv_core_binary_pos (n d : positive) :
  Zpos d <= Zpos n * 2 ^ 1074 ->
  let '(q, e, _) := SFdiv_core_binary prec emax (Zpos n) 0 (Zpos d) 0 in
  0 < q /\ -1074 <= e.
Proof.
  intros H. rewrite SFdiv_core_binary_integers.
  pose proof (digits2_bounds n) as [N1 N2].
  pose proof (digits2_bounds d) as [D1 D2].
  set (d1 := Zpos (digits2_pos n)) in *.
  set (d2 := Zpos (digits2_pos d)) in *.
  set (e' := Z.min (fexp prec emax (d1 - d2)) 0).
  assert (Ee : -1074 <= e' <= 0 /\ (e' = -1074 \/ e' <= d1 - d2 - 53)).
  { subst e'. unfold fexp, emin, prec, emax. lia. }
  destruct Ee as [[E1 E2] E3].
  cbv zeta.
  set (m' := match - e' with
             | 0 => Zpos n
             | Zpos _ => Z.shiftl (Zpos n) (- e')
             | Zneg _ => 0
             end).
  assert (Em : m' = Zpos n * 2 ^ (- e')).
  { subst m'. destruct (- e') as [| k | k] eqn:K.
    - rewrite Z.pow_0_r. lia.
    - now rewrite Z.shiftl_mul_pow2 by lia.
    - lia. }
  assert (Hq : Zpos d <= m').
  { rewrite Em. destruct E3 as [-> | E3]; [exact H |].
    etransitivity; [apply Z.lt_le_incl; exact D2 |].
    etransitivity; [| apply Z.mul_le_mono_nonneg_r; [| exact N1]];
      [| apply Z.pow_nonneg; lia].
    rewrite <- Z.pow_add_r by lia. apply Z.pow_le_mono_r; lia. }
  pose proof (Z.div_eucl_eq m' (Zpos d)) as Q.
  pose proof (Z.mod_pos_bound m' (Zpos d)) as R.
  unfold Z.modulo in R.
  destruct (Z.div_eucl m' (Zpos d)) as [q r].
  split; [| exact E1].
  assert (Zpos d <> 0) by lia. specialize (Q H0). specialize (R eq_refl).
  nia.
Qed.

Lemma float_round_not_zero (q : Q) :
  Zpos (Qden q) <= Z.abs (Qnum q) * 2 ^ 1074 ->
  forall s, float_round q <> S754_zero s.
Proof.
  intros H s. unfold float_round.
  destruct (Qnum q) as [| n | n] eqn:E.
  - cbn in H. lia.
  - cbn [Z.abs] in H. unfold SFdiv.
    pose proof (SFdiv_core_binary_pos n (Qden q) H) as P.
    destruct (SFdiv_core_binary prec emax (Zpos n) 0 (Zpos (Qden q)) 0)
      as [[mz ez] lz].
    destruct P as [P1 P2]. now apply binary_round_aux_not_zero.
  - cbn [Z.abs] in H. unfold SFdiv.
    pose proof (SFdiv_core_binary_pos n (Qden q) H) as P.
    destruct (SFdiv_core_binary prec emax (Zpos n) 0 (Zpos (Qden q)) 0)
      as [[mz ez] lz].
    destruct P as [P1 P2]. now apply binary_round_aux_not_zero.
Qed.

End Binary64.

Lemma subnormal_multiple_sub (a b : Q) :
  subnormal_multiple a -> subnormal_multiple b -> ~ a == b ->
  (Zpos (Qden (a - b)) <= Z.abs (Qnum (a - b)) * 2 ^ 1074)%Z.
Proof.
  intros [ka Ha] [kb Hb] N.
  assert (E : a - b == (ka - kb) # 2 ^ 1074).
  { rewrite Ha, Hb. unfold Qeq, Qminus, Qplus, Qopp. cbn [Qnum Qden].
    rewrite Pos2Z.inj_mul. ring. }
  assert (K : (ka - kb <> 0)%Z).
  { intros Z. apply N. rewrite Ha, Hb.
    unfold Qeq. cbn [Qnum Qden]. nia. }
  unfold Qeq in E. cbn [Qnum Qden] in E.
  set (n := Qnum (a - b)) in *. set (d := Qden (a - b)) in *.
  change (Zpos (2 ^ 1074)) with (2 ^ 1074)%Z in E.
  assert (P : (0 < 2 ^ 1074)%Z) by (apply Z.pow_pos_nonneg; lia).
  set (t := (2 ^ 1074)%Z) in *. clearbody t.
  assert (E' : (Z.abs n * t = Z.abs (ka - kb) * Zpos d)%Z).
  { rewrite <- (Z.abs_eq t) at 1 by lia.
    rewrite <- (Z.abs_eq (Zpos d)) by lia.
    rewrite <- !Z.abs_mul. now f_equal. }
  rewrite E'. nia.
Qed.

(** The differences line 59 takes are differences of doubles, and there
    [float_sub] is the rounded difference. *)
Lemma float_sub_doubles (a b : Q) :
  subnormal_multiple a -> subnormal_multiple b ->
  float_sub a b = float_round (a - b).
Proof.
  intros Ha Hb. unfold float_sub.
  destruct (Qeq_bool a b) eqn:E.
  - destruct (float_round (a - b)); reflexivity.
  - apply Qeq_bool_neq in E.
    pose proof (float_round_not_zero (a - b)
                  (subnormal_multiple_sub a b Ha Hb E)) as Z.
    destruct (float_round (a - b)); try reflexivity.
    now destruct (Z s).
Qed.

Lemma Qmake_inject_Z (k : Z) (p : positive) : k # p == inject_Z k * (1 # p).
Proof. unfold Qeq. cbn [Qnum Qden Qmult inject_Z]. lia. Qed.

(** Every double denotes a multiple of the smallest subnormal. *)
Lemma float_value_subnormal_multiple (v : spec_float) :
  valid_binary prec emax v = true -> subnormal_multiple (float_value v).
Proof.
  destruct v as [s | s | | s m e]; cbn [valid_binary float_value];
    try (intros _; exists 0%Z; reflexivity).
  unfold bounded, canonical_mantissa. intros H.
  apply andb_true_iff in H. destruct H as [H _]. apply Z.eqb_eq in H.
  assert (He : (-1074 <= e)%Z).
  { unfold fexp, emin, prec, emax in H. lia. }
  exists ((if s then -1 else 1) * Zpos m * 2 ^ (e + 1074))%Z.
  match goal with
  | |- _ == ?k # ?p =>
      transitivity (inject_Z k * (1 # p));
        [| symmetry; apply Qmake_inject_Z]
  end.
  rewrite !inject_Z_mult.
  rewrite (Zpower_Qpower 2 (e + 1074)) by lia.
  change (inject_Z 2) with 2.
  rewrite Qpower_plus by discriminate.
  rewrite <- (Zpower_Qpower 2 1074) by lia.
  assert (U : inject_Z (2 ^ 1074) * (1 # 2 ^ 1074) == 1).
  { transitivity (2 ^ 1074 # 2 ^ 1074); [symmetry; apply Qmake_inject_Z |].
    unfold Qeq. cbn [Qnum Qden]. rewrite Pos2Z.inj_pow. ring. }
  rewrite <- !Qmult_assoc, U, Qmult_1_r.
  destruct s; reflexivity.
Qed.

(** The difference of two floats is zero only when they are equal. *)
Lemma float_sub_zero (a b : Q) (s : bool) :
  float_sub a b = S754_zero s -> a == b.
Proof.
  unfold float_sub.
  destruct (float_round (a - b)); try discriminate.
  destruct (Qeq_bool a b) eqn:E; [intros _ | discriminate].
  now apply Qeq_bool_iff.
Qed.

(** Dividing by the difference of two distinct floats raises nothing. *)
Lemma float_div_sub (u : spec_float) (a b : Q) :
  ~ a == b ->
  float_div u (float_sub a b) = Return (SFdiv prec emax u (float_sub a b)).
Proof.
  intros N. unfold float_div.
  destruct (float_sub a b) eqn:D; try reflexivity.
  apply float_sub_zero in D. contradiction.
Qed.

(** One iteration never raises; it moves [p1] to [p2] and flips [inside]
    exactly when [edge_toggles] says so. *)
Lemma pip_body_spec (x y : Q) (p2 : point) (st : pip_locals) :
  exists xi,
    pip_body x y p2 st =
    Return (mk_pip (fst p2) (snd p2)
              (xorb (inside st) (edge_toggles x y ((p1x st, p1y st), p2))) xi).
Proof.
  destruct p2 as [p2x p2y]. destruct st as [ax ay ins xi0].
  unfold pip_body, edge_toggles, crossing_candidate, x_intercept.
  cbn [fst snd p1x p1y inside xinters].
  destruct (Qgtb y (Qmin ay p2y)) eqn:E1; cbn [andb rbind];
    [| exists xi0; now rewrite xorb_false_r].
  destruct (Qle_bool y (Qmax ay p2y)) eqn:E2; cbn [andb rbind];
    [| exists xi0; now rewrite xorb_false_r].
  destruct (Qle_bool x (Qmax ax p2x)) eqn:E3; cbn [andb rbind];
    [| exists xi0; now rewrite xorb_false_r].
  assert (N : ~ p2y == ay).
  { apply Qgtb_true in E1. apply Qle_bool_iff in E2.
    intros H. symmetry in H. revert H.
    eapply Qmin_lt_max_neq; eassumption. }
  assert (N1 : Qeq_bool ay p2y = false).
  { apply Qeq_bool_false. intros H. apply N. now symmetry. }
  rewrite N1. cbn [negb]. rewrite (float_div_sub _ _ _ N). cbn [rbind].
  eexists.
  destruct (Qeq_bool ax p2x); cbn [orb rbind inside xinters].
  - destruct ins; reflexivity.
  - match goal with
    | |- context [Qle_float x ?v] => destruct (Qle_float x v)
    end; destruct ins; reflexivity.
Qed.

(** Walking a vertex sequence from the locals [st]. *)
Lemma for_each_pip_body (x y : Q) (vs : list point) (st : pip_locals) :
  exists st',
    for_each vs (pip_body x y) st = Return st' /\
    inside st' =
    xorb (inside st)
         (parity (map (edge_toggles x y) (consec ((p1x st, p1y st) :: vs)))).
Proof.
  revert st. induction vs as [| v vs IH]; intros st.
  - exists st. split; [reflexivity |]. cbn. now rewrite xorb_false_r.
  - destruct (pip_body_spec x y v st) as [xi E].
    cbn [for_each]. rewrite E. cbn [rbind].
    destruct (IH (mk_pip (fst v) (snd v)
                   (xorb (inside st)
                      (edge_toggles x y ((p1x st, p1y st), v))) xi))
      as [st' [E' I']].
    exists st'. split; [exact E' |].
    rewrite I'. cbn [p1x p1y inside].
    replace (fst v, snd v) with v by now destruct v.
    cbn [consec map parity fold_right].
    now rewrite xorb_assoc.
Qed.

(** A loop that fetches its item by index is a loop over the items. *)
Lemma for_each_lookup {A S : Type} (l : list A) (f : nat -> nat)
    (body : A -> S -> result S) (idx : list nat) (vs : list A) (st : S) :
  map (fun i => nth_error l (f i)) idx = map Some vs ->
  for_each idx (fun i s => let? a := py_index l (f i) in body a s) st =
  for_each vs body st.
Proof.
  revert vs st. induction idx as [| i idx IH]; intros [| v vs] st H;
    try discriminate; [reflexivity |].
  cbn in H. injection H as H1 H2.
  cbn [for_each]. unfold py_index at 1. rewrite H1. cbn [rbind].
  destruct (body v st); cbn [rbind]; [now apply IH | reflexivity].
Qed.

Lemma map_nth_error_seq {A : Type} (l : list A) :
  map (nth_error l) (seq 0 (length l)) = map Some l.
Proof.
  induction l as [| a l IH]; [reflexivity |].
  cbn [length seq map nth_error]. f_equal.
  rewrite <- seq_shift, map_map. exact IH.
Qed.

(** The indices [i % n] for [i] in [range(n + 1)] visit the whole vertex
    list and then its first vertex again. *)
Lemma visited_vertices (p0 : point) (l : list point) :
  let polygon := p0 :: l in
  map (fun i => nth_error polygon (i mod length polygon))
      (seq 0 (length polygon + 1)) =
  map Some (polygon ++ [p0]).
Proof.
  intros polygon. set (n := length polygon).
  assert (Hn : (0 < n)%nat) by (subst n polygon; cbn; lia).
  rewrite seq_app, !map_app. f_equal.
  - rewrite <- map_nth_error_seq. fold n.
    apply map_ext_in. intros i Hi. apply in_seq in Hi.
    now rewrite Nat.mod_small by lia.
  - cbn [seq map Nat.add]. now rewrite Nat.Div0.mod_same.
Qed.

(** The containment test is the parity of the toggling edges among the
    edges the loop walks through; on the empty polygon it raises. *)
Lemma point_in_polygon_parity (x y : Q) (polygon : list point) :
  point_in_polygon (x, y) polygon =
  match polygon with
  | [] => Raise IndexError
  | _ :: _ => Return (parity (map (edge_toggles x y) (visited_edges polygon)))
  end.
Proof.
  destruct polygon as [| p0 l]; [reflexivity |].
  unfold point_in_polygon. cbn [py_index nth_error rbind].
  rewrite (for_each_lookup (p0 :: l) (fun i => i mod length (p0 :: l))
             (pip_body x y) _ ((p0 :: l) ++ [p0]))
    by apply visited_vertices.
  destruct (for_each_pip_body x y ((p0 :: l) ++ [p0])
              (mk_pip (fst p0) (snd p0) false None)) as [st' [E I]].
  rewrite E. cbn [rbind]. rewrite I. cbn [inside p1x p1y xorb visited_edges].
  now replace (fst p0, snd p0) with p0 by now destruct p0.
Qed.

Lemma parity_app (a b : list bool) :
  parity (a ++ b) = xorb (parity a) (parity b).
Proof.
  induction a as [| c a IH]; [reflexivity |].
  change (xorb c (parity (a ++ b)) = xorb (xorb c (parity a)) (parity b)).
  rewrite IH. now rewrite xorb_assoc.
Qed.

Lemma consec_snoc (l : list point) (a b : point) :
  consec (l ++ [a; b]) = consec (l ++ [a]) ++ [(a, b)].
Proof.
  induction l as [| c l IH]; [reflexivity |].
  destruct l as [| d l]; [reflexivity |].
  change (consec ((c :: d :: l) ++ [a; b]))
    with ((c, d) :: consec ((d :: l) ++ [a; b])).
  rewrite IH. reflexivity.
Qed.

(** The edge from a vertex to itself never flips the flag. *)
Lemma edge_toggles_degenerate (x y : Q) (p : point) :
  edge_toggles x y (p, p) = false.
Proof.
  unfold edge_toggles.
  destruct (crossing_candidate y p p) eqn:E; [| reflexivity].
  apply crossing_candidate_not_horizontal in E. now destruct E.
Qed.

(** Starting the vertex list one vertex later leaves the answer alone. *)
Lemma point_in_polygon_rotate1 (pt : point) (a : point) (l : list point) :
  point_in_polygon pt (l ++ [a]) = point_in_polygon pt (a :: l).
Proof.
  destruct pt as [x y]. rewrite !point_in_polygon_parity.
  destruct l as [| b l]; [reflexivity |].
  cbn [app]. f_equal. unfold visited_edges.
  change (consec (a :: (a :: b :: l) ++ [a]))
    with ((a, a) :: (a, b) :: consec ((b :: l) ++ [a])).
  change (consec (b :: (b :: l ++ [a]) ++ [b]))
    with ((b, b) :: consec ((b :: l ++ [a]) ++ [b])).
  replace ((b :: l ++ [a]) ++ [b]) with ((b :: l) ++ [a; b])
    by (cbn; now rewrite <- app_assoc).
  rewrite consec_snoc. cbn [map parity fold_right].
  fold (parity (map (edge_toggles x y) (consec ((b :: l) ++ [a]) ++ [(a, b)]))).
  fold (parity (map (edge_toggles x y) (consec ((b :: l) ++ [a])))).
  rewrite map_app, parity_app, !edge_toggles_degenerate.
  cbn [map parity fold_right xorb].
  rewrite xorb_false_r. apply xorb_comm.
Qed.

(** C7.  The containment test gives the same answer (the same
    classification, or the same [IndexError] on the empty list) for a vertex
    list and for each of its cyclic rotations.  This holds for every point,
    so in particular for the points off the edges and vertices, and for
    every length, so in particular from three vertices on. *)
Theorem point_in_polygon_rotation_invariant
    (pt : point) (k : nat) (polygon : list point) :
  point_in_polygon pt (rotate_vertices k polygon) =
  point_in_polygon pt polygon.
Proof.
  revert polygon. induction k as [| k IH]; intros polygon.
  - unfold rotate_vertices. cbn. now rewrite app_nil_r.
  - destruct polygon as [| a l]; [reflexivity |].
    destruct (Nat.le_gt_cases k (List.length l)) as [Hk | Hk].
    + rewrite <- point_in_polygon_rotate1, <- (IH (l ++ [a])).
      f_equal. unfold rotate_vertices. cbn [skipn firstn].
      rewrite skipn_app, firstn_app.
      replace (k - List.length l)%nat with 0%nat by lia.
      cbn [skipn firstn]. rewrite app_nil_r, <- app_assoc. reflexivity.
    + unfold rotate_vertices. cbn [skipn firstn].
      rewrite skipn_all2, firstn_all2 by lia. reflexivity.
Qed.

(** On a non-empty polygon the test returns a classification. *)
Lemma point_in_polygon_returns (pt : point) (polygon : list point) :
  polygon <> [] -> exists b, point_in_polygon pt polygon = Return b.
Proof.
  intros N. destruct pt as [x y]. rewrite point_in_polygon_parity.
  destruct polygon; [contradiction | eauto].
Qed.

(** C9.  Whatever the point and the polygon, horizontal edges included:
    an iteration returns even when [xinters] is still unbound, so neither
    the division nor the read of [xinters] can raise; an edge with
    [p1.y == p2.y] is never a crossing candidate and leaves both [inside]
    and [xinters] as they were; and the whole test returns a classification
    on every non-empty polygon (the empty one raises [IndexError] at
    [polygon[0]]), hence never [ZeroDivisionError] or [UnboundLocalError]. *)
Theorem point_in_polygon_never_divides_by_zero
    (x y : Q) (polygon : list point) :
  (forall p2 st, exists st', pip_body x y p2 st = Return st') /\
  (forall p1 p2, snd p1 == snd p2 -> crossing_candidate y p1 p2 = false) /\
  (forall p2 st, p1y st == snd p2 ->
     pip_body x y p2 st =
     Return (mk_pip (fst p2) (snd p2) (inside st) (xinters st))) /\
  point_in_polygon (x, y) polygon <> Raise ZeroDivisionError /\
  point_in_polygon (x, y) polygon <> Raise UnboundLocalError /\
  (polygon <> [] -> exists b, point_in_polygon (x, y) polygon = Return b).
Proof.
  assert (H : forall p1 p2, snd p1 == snd p2 ->
                            crossing_candidate y p1 p2 = false).
  { intros p1 p2 E. destruct (crossing_candidate y p1 p2) eqn:C;
      [| reflexivity].
    apply crossing_candidate_not_horizontal in C. contradiction. }
  repeat split.
  - intros p2 st. destruct (pip_body_spec x y p2 st) as [xi E]. eauto.
  - exact H.
  - intros [p2x p2y] st E. specialize (H (p1x st, p1y st) (p2x, p2y) E).
    unfold crossing_candidate in H. cbn [fst snd] in *.
    unfold pip_body.
    destruct (Qgtb y (Qmin (p1y st) p2y)); [| reflexivity].
    cbn [andb] in H. rewrite H. reflexivity.
  - rewrite point_in_polygon_parity. destruct polygon; discriminate.
  - rewrite point_in_polygon_parity. destruct polygon; discriminate.
  - intros N. rewrite point_in_polygon_parity.
    destruct polygon; [contradiction | eauto].
Qed.

(** ** The crossing rule *)

Lemma crossing_candidate_iff (y : Q) (p1 p2 : point) :
  crossing_candidate y p1 p2 = true <->
  Qmin (snd p1) (snd p2) < y /\ y <= Qmax (snd p1) (snd p2).
Proof.
  unfold crossing_candidate.
  now rewrite andb_true_iff, Qgtb_true, Qle_bool_iff.
Qed.

(** On a candidate edge the exact intercept lies at or left of the larger
    of the two end points' x-coordinates, and on a vertical edge it is the
    edge's x. *)
Lemma exact_x_intercept_le_max (y : Q) (p1 p2 : point) :
  crossing_candidate y p1 p2 = true ->
  exact_x_intercept y p1 p2 <= Qmax (fst p1) (fst p2) /\
  (fst p1 == fst p2 -> exact_x_intercept y p1 p2 == fst p1).
Proof.
  destruct p1 as [ax ay], p2 as [bx byy]. intros C.
  pose proof (crossing_candidate_not_horizontal _ _ _ C) as N.
  apply crossing_candidate_iff in C. cbn [fst snd] in *.
  unfold exact_x_intercept. cbn [fst snd].
  set (q := (y - ay) * (bx - ax) / (byy - ay)).
  assert (Hq : q * (byy - ay) == (y - ay) * (bx - ax)).
  { subst q. field. intros H. apply N. lra. }
  destruct C as [C1 C2].
  split.
  - destruct (Q.min_spec ay byy) as [[Hlt Hm] | [Hle Hm]];
    destruct (Q.max_spec ay byy) as [[Hlt' HM] | [Hle' HM]];
    rewrite Hm in C1; rewrite HM in C2; try lra;
    destruct (Q.max_spec ax bx) as [[Hx HX] | [Hx HX]]; rewrite HX; nra.
  - intros E. assert (Hz : q * (byy - ay) == 0) by (rewrite Hq; nra).
    assert (q == 0); [| lra].
    destruct (Qeq_dec q 0) as [Z | Z]; [exact Z |].
    exfalso. apply N. apply Qmult_integral in Hz. destruct Hz; [contradiction | lra].
Qed.

Lemma edge_toggles_rule (x y : Q) (p1 p2 : point) :
  edge_toggles x y (p1, p2) = true <->
  crossing_candidate y p1 p2 = true /\
  x <= Qmax (fst p1) (fst p2) /\
  (fst p1 == fst p2 \/ Qle_float x (x_intercept y p1 p2) = true).
Proof.
  unfold edge_toggles.
  now rewrite !andb_true_iff, orb_true_iff, Qle_bool_iff, Qeq_bool_iff,
    and_assoc.
Qed.

(** On a candidate edge that passes the guard of line 57, line 59 binds
    [xinters] to [x_intercept]. *)
Lemma pip_body_xinters (x y : Q) (p2 : point) (st : pip_locals) :
  crossing_candidate y (p1x st, p1y st) p2 = true ->
  x <= Qmax (p1x st) (fst p2) ->
  pip_body x y p2 st =
  Return (mk_pip (fst p2) (snd p2)
            (xorb (inside st) (edge_toggles x y ((p1x st, p1y st), p2)))
            (Some (x_intercept y (p1x st, p1y st) p2))).
Proof.
  destruct p2 as [p2x p2y]. destruct st as [ax ay ins xi0].
  cbn [fst snd p1x p1y inside]. intros C G.
  pose proof (crossing_candidate_not_horizontal _ _ _ C) as N.
  cbn [fst snd] in N.
  unfold pip_body, edge_toggles, x_intercept.
  cbn [fst snd p1x p1y inside xinters].
  unfold crossing_candidate in *. cbn [fst snd] in *.
  apply andb_true_iff in C. destruct C as [C1 C2].
  rewrite C1, C2. apply Qle_bool_iff in G. rewrite G. cbn [andb].
  assert (N1 : Qeq_bool ay p2y = false) by now apply Qeq_bool_false.
  assert (N' : ~ p2y == ay) by (intros H; apply N; now symmetry).
  rewrite N1. cbn [negb]. rewrite (float_div_sub _ _ _ N'). cbn [rbind].
  destruct (Qeq_bool ax p2x); cbn [orb rbind inside xinters].
  - destruct ins; reflexivity.
  - match goal with
    | |- context [Qle_float x ?v] => destruct (Qle_float x v)
    end; destruct ins; reflexivity.
Qed.

(** C4, as the code has it.  An edge is a crossing candidate exactly when
    the point's y lies in the half-open range [min y < y <= max y] of the
    edge (the upper end included).  On a candidate edge the flag is flipped
    exactly when the point's x is at most the larger x of the edge's two
    ends and, unless the two ends have the same x, at most the x-intercept
    as line 59 computes it in binary64.  Every iteration of the loop applies
    this rule, and on a candidate edge that passes the guard it binds
    [xinters] to that computed value.  Whenever the computed value is the
    exact intercept, as it is on the edge from (0,0) to (4,2) at y = 1, the
    rule is the one of the claim: the flag is flipped exactly when the
    point's x is at or left of the intercept.  For the
    square [(0,0),(0,2),(2,2),(2,0),(0,0)] the point (1,1) is inside and
    (5,5) is outside. *)
Theorem point_in_polygon_crossing_rule :
  (forall y p1 p2,
     crossing_candidate y p1 p2 = true <->
     Qmin (snd p1) (snd p2) < y /\ y <= Qmax (snd p1) (snd p2)) /\
  (forall x y p1 p2,
     edge_toggles x y (p1, p2) = true <->
     crossing_candidate y p1 p2 = true /\
     x <= Qmax (fst p1) (fst p2) /\
     (fst p1 == fst p2 \/ Qle_float x (x_intercept y p1 p2) = true)) /\
  (forall x y p2 st, exists xi,
     pip_body x y p2 st =
     Return (mk_pip (fst p2) (snd p2)
               (xorb (inside st) (edge_toggles x y ((p1x st, p1y st), p2)))
               xi)) /\
  (forall x y p2 st,
     crossing_candidate y (p1x st, p1y st) p2 = true ->
     x <= Qmax (p1x st) (fst p2) ->
     pip_body x y p2 st =
     Return (mk_pip (fst p2) (snd p2)
               (xorb (inside st) (edge_toggles x y ((p1x st, p1y st), p2)))
               (Some (x_intercept y (p1x st, p1y st) p2)))) /\
  (forall x y p1 p2,
     computed_exactly y p1 p2 ->
     (edge_toggles x y (p1, p2) = true <->
      crossing_candidate y p1 p2 = true /\ x <= exact_x_intercept y p1 p2)) /\
  computed_exactly 1 (0, 0) (4, 2) /\
  point_in_polygon (1, 1) [(0, 0); (0, 2); (2, 2); (2, 0); (0, 0)]
    = Return true /\
  point_in_polygon (5, 5) [(0, 0); (0, 2); (2, 2); (2, 0); (0, 0)]
    = Return false.
Proof.
  split; [exact crossing_candidate_iff |].
  split; [exact edge_toggles_rule |].
  split; [exact pip_body_spec |].
  split; [exact pip_body_xinters |].
  split; [| split; [split; vm_compute; [exact I | reflexivity] |
                    split; vm_compute; reflexivity]].
  intros x y p1 p2 [F V]. rewrite edge_toggles_rule.
  assert (L : Qle_float x (x_intercept y p1 p2) = true <->
              x <= exact_x_intercept y p1 p2).
  { rewrite <- V. unfold Qle_float.
    destruct (x_intercept y p1 p2); try contradiction;
      apply Qle_bool_iff. }
  rewrite L.
  split.
  - intros (C & H1 & H2). split; [exact C |].
    destruct (exact_x_intercept_le_max _ _ _ C) as [_ Heq].
    destruct H2 as [H2 | H2]; [| exact H2].
    rewrite (Heq H2).
    destruct (Q.max_spec (fst p1) (fst p2)) as [[? HX] | [? HX]];
      rewrite HX in H1; lra.
  - intros [C H]. split; [exact C |].
    destruct (exact_x_intercept_le_max _ _ _ C) as [Hmax _].
    split; [lra | now right].
Qed.

(** C4, as the claim words it, fails twice.  The range is not strict: the
    edge from (0,0) to (4,2) is a crossing candidate for a point at y = 2,
    the edge's maximum y, and the flag is flipped there for the point
    (1,2), which the triangle [(0,0),(4,2),(0,4)] does contain.  And the
    flip does not follow the intercept: on the edge from (1,0) to (0.2,1)
    the point (0.2,1) is at the intercept, but line 59 computes
    0.19999999999999996 and the flag is not flipped; on the edge from
    (0,0.1) to (0.6,0.7) the point (0.5,0.6) is right of the intercept and
    the flag is flipped; on the edge from (-0.9,0.3) to (0.7,1.9) at
    y = 1.9 line 59 computes 0.7000000000000001, past the edge's end, and
    for a point there the guard of line 57 is what stops the flip. *)
Lemma crossing_candidate_not_strict :
  ~ (forall y p1 p2,
       crossing_candidate y p1 p2 = true <->
       Qmin (snd p1) (snd p2) < y /\ y < Qmax (snd p1) (snd p2)) /\
  ~ (Qmin 0 2 < 2 /\ 2 < Qmax 0 2) /\
  crossing_candidate 2 (0, 0) (4, 2) = true /\
  edge_toggles 1 2 ((0, 0), (4, 2)) = true /\
  point_in_polygon (1, 2) [(0, 0); (4, 2); (0, 4)] = Return true /\
  ~ (forall x y p1 p2,
       edge_toggles x y (p1, p2) = true <->
       crossing_candidate y p1 p2 = true /\ x <= exact_x_intercept y p1 p2) /\
  (let x := double (2 # 10) in
   let p1 := (1, 0) in
   let p2 := (double (2 # 10), 1) in
   crossing_candidate 1 p1 p2 = true /\
   x <= exact_x_intercept 1 p1 p2 /\
   float_value (x_intercept 1 p1 p2) < x /\
   edge_toggles x 1 (p1, p2) = false /\
   point_in_polygon (x, 1) [p1; p2; (1, 1)] = Return true) /\
  (let x := double (5 # 10) in
   let y := double (6 # 10) in
   let p1 := (0, double (1 # 10)) in
   let p2 := (double (6 # 10), double (7 # 10)) in
   crossing_candidate y p1 p2 = true /\
   exact_x_intercept y p1 p2 < x /\
   edge_toggles x y (p1, p2) = true) /\
  (let y := double (19 # 10) in
   let p1 := (- double (9 # 10), double (3 # 10)) in
   let p2 := (double (7 # 10), y) in
   let x := float_value (x_intercept y p1 p2) in
   crossing_candidate y p1 p2 = true /\
   Qmax (fst p1) (fst p2) < x /\
   Qle_float x (x_intercept y p1 p2) = true /\
   edge_toggles x y (p1, p2) = false).
Proof.
  assert (N : ~ (Qmin 0 2 < 2 /\ 2 < Qmax 0 2)).
  { intros [_ H]. vm_compute in H. discriminate. }
  split; [intros H; apply N; apply (H 2 (0, 0) (4, 2)); reflexivity |].
  split; [exact N |].
  split; [vm_compute; reflexivity |].
  split; [vm_compute; reflexivity |].
  split; [vm_compute; reflexivity |].
  assert (R : let x := double (2 # 10) in
              let p1 := (1, 0) in
              let p2 := (double (2 # 10), 1) in
              crossing_candidate 1 p1 p2 = true /\
              x <= exact_x_intercept 1 p1 p2 /\
              float_value (x_intercept 1 p1 p2) < x /\
              edge_toggles x 1 (p1, p2) = false /\
              point_in_polygon (x, 1) [p1; p2; (1, 1)] = Return true).
  { cbv zeta. split; [vm_compute; reflexivity |].
    split; [vm_compute; discriminate |].
    split; [vm_compute; reflexivity |].
    split; vm_compute; reflexivity. }
  split.
  { intros H. cbv zeta in R. destruct R as (C & L & _ & T & _).
    exact (eq_true_false_abs _ (proj2 (H _ _ _ _) (conj C L)) T). }
  split; [exact R |].
  split.
  - cbv zeta. split; [vm_compute; reflexivity |].
    split; vm_compute; reflexivity.
  - cbv zeta. split; [vm_compute; reflexivity |].
    split; [vm_compute; reflexivity |].
    split; vm_compute; reflexivity.
Qed.

(* ================================================================== *)
(** * Properties of the grid *)

Lemma py_pow2_value (k : Z) : pynum_value (py_pow2 k) == 2 ^ k.
Proof.
  unfold py_pow2. destruct (0 <=? k)%Z eqn:E; cbn [pynum_value].
  - apply Z.leb_le in E. now rewrite Zpower_Qpower.
  - apply Z.leb_gt in E. rewrite Zpower_Qpower by lia.
    rewrite Qpower_opp. apply Qinv_involutive.
Qed.

Lemma actual_grid_size_value (self : MapsScreenshotBot) (grid_size : Z) :
  pynum_value (actual_grid_size self grid_size) ==
  inject_Z grid_size * 2 ^ (zoom_level self - 18).
Proof.
  unfold actual_grid_size.
  rewrite <- py_pow2_value.
  destruct (py_pow2 (zoom_level self - 18)); cbn [py_mul_int pynum_value].
  - now rewrite inject_Z_mult.
  - reflexivity.
Qed.

(** From zoom 18 on the grid size is a Python [int]. *)
Lemma actual_grid_size_int (self : MapsScreenshotBot) (grid_size : Z) :
  (18 <= zoom_level self)%Z ->
  actual_grid_size self grid_size =
  PyInt (grid_size * 2 ^ (zoom_level self - 18)).
Proof.
  intros H. unfold actual_grid_size, py_pow2.
  replace (0 <=? zoom_level self - 18)%Z with true
    by (symmetry; apply Z.leb_le; lia).
  reflexivity.
Qed.

(** Below zoom 18 it is a [float], whatever its value. *)
Lemma actual_grid_size_float (self : MapsScreenshotBot) (grid_size : Z) :
  (zoom_level self < 18)%Z ->
  exists q, actual_grid_size self grid_size = PyFloat q.
Proof.
  intros H. unfold actual_grid_size, py_pow2.
  replace (0 <=? zoom_level self - 18)%Z with false
    by (symmetry; apply Z.leb_gt; lia).
  cbn [py_mul_int]. eauto.
Qed.

Lemma linspace_samples_many (a b : Q) (m : nat) :
  linspace_samples a b (S (S m)) =
  map (fun i => inject_Z (Z.of_nat i) *
                  ((b - a) / inject_Z (Z.of_nat (S m))) + a)
      (seq 0 (S m)) ++ [b].
Proof.
  unfold linspace_samples.
  replace (S (S m) - 1)%nat with (S m) by lia.
  cbn [Nat.ltb Nat.leb].
  rewrite (seq_S (S m) 0), map_app. cbn [map].
  now rewrite removelast_last.
Qed.

Lemma nth_map_seq {A : Type} (f : nat -> A) (n i : nat) (d : A) :
  (i < n)%nat -> nth i (map f (seq 0 n)) d = f i.
Proof.
  intros H.
  rewrite (nth_indep _ d (f 0%nat)) by now rewrite length_map, length_seq.
  now rewrite map_nth, seq_nth.
Qed.

Lemma linspace_samples_spec (a b : Q) (n : nat) :
  evenly_spaced a b n (linspace_samples a b n).
Proof.
  destruct n as [| [| m]].
  - repeat split; intros; try lia; reflexivity.
  - repeat split; intros; try lia. cbn. ring.
  - rewrite linspace_samples_many.
    assert (L : List.length
                  (map (fun i => inject_Z (Z.of_nat i) *
                          ((b - a) / inject_Z (Z.of_nat (S m))) + a)
                       (seq 0 (S m))) = S m)
      by now rewrite length_map, length_seq.
    assert (D : ~ inject_Z (Z.of_nat (S m)) == 0).
    { change 0 with (inject_Z 0). rewrite inject_Z_injective. lia. }
    unfold evenly_spaced.
    replace (S (S m) - 1)%nat with (S m) by lia.
    assert (Last : forall d, nth (S m)
              (map (fun i => inject_Z (Z.of_nat i) *
                      ((b - a) / inject_Z (Z.of_nat (S m))) + a)
                   (seq 0 (S m)) ++ [b]) d = b).
    { intros d. rewrite <- L at 1. apply nth_middle. }
    repeat split.
    + rewrite length_app, L. cbn. lia.
    + intros _. cbn. field. exact D.
    + intros _ i Hi. destruct (Nat.eq_dec i (S m)) as [-> | Ne].
      * rewrite Last. field. exact D.
      * rewrite app_nth1 by (rewrite L; lia).
        rewrite nth_map_seq by lia. ring.
    + intros _. rewrite Last. reflexivity.
Qed.

Lemma bounding_box_nonempty (self : MapsScreenshotBot) :
  boundary_coords self <> [] ->
  exists lat_min lat_max lon_min lon_max,
    bounding_box self = Return (lat_min, lat_max, lon_min, lon_max).
Proof.
  unfold bounding_box. destruct (boundary_coords self) as [| p l];
    [contradiction |].
  intros _. cbn. eauto 6.
Qed.

(** Below zoom 18 line 115 raises: numpy refuses a [float] as the number
    of samples. *)
Lemma generate_grid_low_zoom (self : MapsScreenshotBot) (grid_size : Z) :
  boundary_coords self <> [] -> (zoom_level self < 18)%Z ->
  generate_grid self grid_size = Raise TypeError.
Proof.
  intros Hb Hz.
  destruct (bounding_box_nonempty self Hb) as (a & b & c & d & E).
  destruct (actual_grid_size_float self grid_size Hz) as [q Eq].
  unfold generate_grid, grid_axes. rewrite E. cbn [rbind].
  destruct (calculate_grid_step self). rewrite Eq. reflexivity.
Qed.

(** C3, as the code has it.  For a non-empty boundary, a stored zoom level
    of at least 18 and a base grid size that is not negative, the effective
    grid dimension is the integer [n = grid_size * 2^(zoom_level - 18)];
    the generator produces [n] latitude values evenly spaced from [lat_min]
    to [lat_max] (both included from two values on) and [n] longitude
    values evenly spaced from [lon_min] to [lon_max]; and the number of
    candidate points is [n * n]. *)
Theorem generate_grid_integer_size
    (self : MapsScreenshotBot) (grid_size : Z) :
  boundary_coords self <> [] ->
  (18 <= zoom_level self)%Z ->
  (0 <= grid_size)%Z ->
  let n := (grid_size * 2 ^ (zoom_level self - 18))%Z in
  actual_grid_size self grid_size = PyInt n /\
  exists lat_min lat_max lon_min lon_max lat_steps lon_steps,
    bounding_box self = Return (lat_min, lat_max, lon_min, lon_max) /\
    generate_grid self grid_size = Return (lat_steps, lon_steps) /\
    evenly_spaced lat_min lat_max (Z.to_nat n) lat_steps /\
    evenly_spaced lon_min lon_max (Z.to_nat n) lon_steps /\
    Z.of_nat (List.length (grid_points (lat_steps, lon_steps))) = (n * n)%Z.
Proof.
  intros Hb Hz Hg n.
  assert (Hn : (0 <= n)%Z).
  { subst n. apply Z.mul_nonneg_nonneg; [exact Hg |].
    apply Z.pow_nonneg. lia. }
  split; [now apply actual_grid_size_int |].
  destruct (bounding_box_nonempty self Hb) as (a & b & c & d & E).
  exists a, b, c, d,
    (linspace_samples a b (Z.to_nat n)), (linspace_samples c d (Z.to_nat n)).
  split; [exact E |].
  assert (S1 := linspace_samples_spec a b (Z.to_nat n)).
  assert (S2 := linspace_samples_spec c d (Z.to_nat n)).
  split; [| split; [exact S1 | split; [exact S2 |]]].
  - unfold generate_grid, grid_axes. rewrite E. cbn [rbind].
    destruct (calculate_grid_step self).
    rewrite actual_grid_size_int by exact Hz. fold n.
    unfold linspace.
    replace (n <? 0)%Z with false by (symmetry; apply Z.ltb_ge; exact Hn).
    reflexivity.
  - unfold grid_points, point. cbn [fst snd]. rewrite length_prod.
    destruct S1 as [L1 _], S2 as [L2 _]. rewrite L1, L2. lia.
Qed.

(** The square at zoom 18 with base grid size 4: four values per axis and
    sixteen candidates. *)
Lemma generate_grid_integer_size_square :
  boundary_coords (mk_bot "sq" square 18 "screenshots_sq_zoom18") <> [] /\
  (18 <= 18)%Z /\ (0 <= 4)%Z /\
  actual_grid_size (mk_bot "sq" square 18 "screenshots_sq_zoom18") 4
    = PyInt 4 /\
  exists lat_min lat_max lon_min lon_max lat_steps lon_steps,
    bounding_box (mk_bot "sq" square 18 "screenshots_sq_zoom18")
      = Return (lat_min, lat_max, lon_min, lon_max) /\
    generate_grid (mk_bot "sq" square 18 "screenshots_sq_zoom18") 4
      = Return (lat_steps, lon_steps) /\
    evenly_spaced lat_min lat_max 4 lat_steps /\
    evenly_spaced lon_min lon_max 4 lon_steps /\
    Z.of_nat (List.length (grid_points (lat_steps, lon_steps))) = 16%Z.
Proof.
  assert (H1 : boundary_coords (mk_bot "sq" square 18 "screenshots_sq_zoom18")
               <> []) by discriminate.
  assert (H2 : (18 <= 18)%Z) by lia.
  assert (H3 : (0 <= 4)%Z) by lia.
  split; [exact H1 |]. split; [exact H2 |]. split; [exact H3 |].
  exact (generate_grid_integer_size
           (mk_bot "sq" square 18 "screenshots_sq_zoom18") 4 H1 H2 H3).
Defined.

(** C3, as the claim words it, fails below zoom 18.  At zoom 16 with base
    grid size 10 (the "overview" preset of [create_detailed_map]) the
    effective grid dimension is 5/2: no number of values equals it, and
    the generator raises instead of producing values. *)
Lemma generate_grid_fractional_size :
  pynum_value
    (actual_grid_size (mk_bot "sq" square 16 "screenshots_sq_zoom16") 10)
    == 5 # 2 /\
  (forall n : nat,
     ~ inject_Z (Z.of_nat n) ==
       pynum_value
         (actual_grid_size (mk_bot "sq" square 16 "screenshots_sq_zoom16") 10))
  /\
  generate_grid (mk_bot "sq" square 16 "screenshots_sq_zoom16") 10
    = Raise TypeError.
Proof.
  split; [reflexivity |]. split; [| reflexivity].
  intros n H. cbn in H. unfold Qeq in H. cbn in H. lia.
Qed.

(** C8 at a failing input.  At zoom 17 with base grid size 2 the effective
    grid dimension equals 1, as the float [2 * 2 ** -1]; line 115 raises
    [TypeError] and no candidate point is produced.  At zoom 18 with base
    grid size 1 it is the integer 1 and the single candidate is
    [(lat_min, lon_min)]. *)
Theorem generate_grid_size_one :
  pynum_value
    (actual_grid_size (mk_bot "sq" square 17 "screenshots_sq_zoom17") 2)
    == 1 /\
  generate_grid (mk_bot "sq" square 17 "screenshots_sq_zoom17") 2
    = Raise TypeError /\
  actual_grid_size (mk_bot "sq" square 18 "screenshots_sq_zoom18") 1
    = PyInt 1 /\
  bounding_box (mk_bot "sq" square 18 "screenshots_sq_zoom18")
    = Return (0, 2, 0, 2) /\
  generate_grid (mk_bot "sq" square 18 "screenshots_sq_zoom18") 1
    = Return ([0 * (2 - 0) + 0], [0 * (2 - 0) + 0]).
Proof.
  repeat split; reflexivity.
Qed.

(** With an integer grid size of 1 each axis holds one value, the lower
    bound, and there is one candidate. *)
Lemma grid_axes_single_point (self : MapsScreenshotBot) (grid_size : Z)
    (lat_min lat_max lon_min lon_max : Q) (steps : Q * Q) :
  actual_grid_size self grid_size = PyInt 1 ->
  exists lat lon,
    grid_axes self grid_size (lat_min, lat_max, lon_min, lon_max) steps
      = Return ([lat], [lon]) /\
    lat == lat_min /\ lon == lon_min /\
    grid_points ([lat], [lon]) = [(lat, lon)].
Proof.
  intros E. unfold grid_axes. destruct steps. rewrite E.
  change (linspace lat_min lat_max (PyInt 1))
    with (Return [0 * (lat_max - lat_min) + lat_min]).
  change (linspace lon_min lon_max (PyInt 1))
    with (Return [0 * (lon_max - lon_min) + lon_min]).
  cbn [rbind]. do 2 eexists. split; [reflexivity |].
  split; [ring | split; [ring | reflexivity]].
Qed.

Lemma Qpower2_succ (k : Z) : 2 ^ (k + 1) == 2 * 2 ^ k.
Proof.
  rewrite Qpower_plus by discriminate. rewrite Qpower_1_r. ring.
Qed.

(** C6.  The step is [0.001 * 2^(18 - zoom_level)] for latitude and for
    longitude; one zoom level up halves it while the effective grid
    dimension doubles (from 18 to 19: from 0.001 to 0.0005, and for base
    grid size 4 from 4 to 8); and the step pair of line 110 has no part in
    what follows: the grid axes, the candidates and the whole rest of the
    scan are the same whatever the steps are. *)
Theorem calculate_grid_step_independent :
  (forall self,
     fst (calculate_grid_step self)
       == (1 # 1000) * 2 ^ (18 - zoom_level self) /\
     snd (calculate_grid_step self)
       == (1 # 1000) * 2 ^ (18 - zoom_level self)) /\
  (forall c b p z,
     fst (calculate_grid_step (mk_bot c b (z + 1) p))
       == fst (calculate_grid_step (mk_bot c b z p)) / 2 /\
     snd (calculate_grid_step (mk_bot c b (z + 1) p))
       == snd (calculate_grid_step (mk_bot c b z p)) / 2) /\
  (forall c b p z g,
     pynum_value (actual_grid_size (mk_bot c b (z + 1) p) g)
       == 2 * pynum_value (actual_grid_size (mk_bot c b z p) g)) /\
  (forall c b p,
     calculate_grid_step (mk_bot c b 18 p)
       = ((1 # 1000) * 1, (1 # 1000) * 1) /\
     calculate_grid_step (mk_bot c b 19 p)
       = ((1 # 1000) * (1 # 2), (1 # 1000) * (1 # 2)) /\
     actual_grid_size (mk_bot c b 18 p) 4 = PyInt 4 /\
     actual_grid_size (mk_bot c b 19 p) 4 = PyInt 8) /\
  (forall self grid_size box steps steps',
     grid_axes self grid_size box steps
       = grid_axes self grid_size box steps') /\
  (forall env repr_float self grid_size box steps steps' h,
     scan_from_steps env repr_float self grid_size box steps h
       = scan_from_steps env repr_float self grid_size box steps' h).
Proof.
  assert (A : forall self grid_size box steps steps',
             grid_axes self grid_size box steps
             = grid_axes self grid_size box steps').
  { intros self g [[[a b] c] d] [s1 s2] [s1' s2']. reflexivity. }
  repeat split.
  - unfold calculate_grid_step. cbn [fst]. now rewrite py_pow2_value.
  - unfold calculate_grid_step. cbn [snd]. now rewrite py_pow2_value.
  - unfold calculate_grid_step. cbn [fst zoom_level].
    rewrite !py_pow2_value.
    replace (18 - z)%Z with ((18 - (z + 1)) + 1)%Z by lia.
    rewrite Qpower2_succ. field.
  - unfold calculate_grid_step. cbn [snd zoom_level].
    rewrite !py_pow2_value.
    replace (18 - z)%Z with ((18 - (z + 1)) + 1)%Z by lia.
    rewrite Qpower2_succ. field.
  - intros c b p z g. rewrite !actual_grid_size_value. cbn [zoom_level].
    replace (z + 1 - 18)%Z with ((z - 18) + 1)%Z by lia.
    rewrite Qpower2_succ. ring.
  - exact A.
  - intros env repr_float self g box steps steps' h.
    unfold scan_from_steps. now rewrite (A self g box steps steps').
Qed.

(* ================================================================== *)
(** * Reasoning about computations *)

Lemma only_sequential (Q : entry -> Prop) : sequential (only Q).
Proof.
  split; unfold only.
  - intros. constructor.
  - intros; assumption.
  - intros A B a l1 r l2 H1 H2. apply Forall_app. now split.
Qed.

Lemma stops_at_fatal_sequential : sequential stops_at_fatal.
Proof.
  split; unfold stops_at_fatal.
  - intros. left. constructor.
  - intros A B e l [H | (l0 & ev & e' & E & F & H & R)]; [now left |].
    right. exists l0, ev, e'. repeat split; try assumption.
    congruence.
  - intros A B a l1 r l2 [H1 | (l0 & ev & e & _ & _ & _ & H1)] H2;
      [| discriminate].
    destruct H2 as [H2 | (l0 & ev & e & E & F & H2 & R)].
    + left. apply Forall_app. now split.
    + right. exists (l1 ++ l0), ev, e. subst l2.
      rewrite app_assoc. repeat split; try assumption.
      apply Forall_app. now split.
Qed.

Lemma returns_sequential : sequential returns.
Proof.
  split; unfold returns.
  - intros. eauto.
  - intros A B e l [a H]. discriminate.
  - intros A B a l1 r l2 _ H. exact H.
Qed.

Section Rules.

Variable env : environment.
Variable P : forall A : Type, result A -> history -> Prop.
Hypothesis HP : sequential P.

Lemma sat_ret {A : Type} (a : A) : sat (ret a) (P A).
Proof.
  intros h. exists (Return a), []. rewrite app_nil_r.
  split; [reflexivity | apply (sequential_ret P HP)].
Qed.

Lemma sat_now : sat (now env) (P string).
Proof.
  intros h. exists (Return (strftime env h)), []. rewrite app_nil_r.
  split; [reflexivity | apply (sequential_ret P HP)].
Qed.

Lemma sat_lift {A : Type} (r : result A) : P A r [] -> sat (lift r) (P A).
Proof.
  intros H h. exists r, []. rewrite app_nil_r. now split.
Qed.

Lemma sat_emit (ev : event) :
  P unit (Return tt) [(ev, None)] -> sat (emit ev) (P unit).
Proof.
  intros H h. exists (Return tt), [(ev, None)]. now split.
Qed.

Lemma sat_call (ev : event) :
  P unit (Return tt) [(ev, None)] ->
  (forall e, P unit (Raise e) [(ev, Some e)]) ->
  sat (call env ev) (P unit).
Proof.
  intros H1 H2 h. unfold call.
  destruct (outcome env h ev) as [e |].
  - exists (Raise e), [(ev, Some e)]. split; [reflexivity | apply H2].
  - exists (Return tt), [(ev, None)]. now split.
Qed.

(** The load wait of lines 88-93: a wait that raises, whatever it raises,
    is followed by the warning, and the block returns either way. *)
Lemma sat_wait (wait warn : event) :
  P unit (Return tt) [(wait, None)] ->
  (forall e, P unit (Return tt) [(wait, Some e); (warn, None)]) ->
  sat (try_except (call env wait) (fun _ => emit warn)) (P unit).
Proof.
  intros H1 H2 h. unfold try_except, call, emit.
  destruct (outcome env h wait) as [e |].
  - exists (Return tt), [(wait, Some e); (warn, None)].
    rewrite <- app_assoc. split; [reflexivity | apply H2].
  - exists (Return tt), [(wait, None)]. now split.
Qed.

Lemma sat_bind {A B : Type} (m : M A) (k : A -> M B) :
  sat m (P A) -> (forall a, sat (k a) (P B)) -> sat (bind m k) (P B).
Proof.
  intros Hm Hk h. destruct (Hm h) as (r1 & l1 & E1 & P1).
  unfold bind. rewrite E1. destruct r1 as [a | e].
  - destruct (Hk a (h ++ l1)) as (r2 & l2 & E2 & P2).
    exists r2, (l1 ++ l2). rewrite app_assoc.
    split; [exact E2 | eapply (sequential_app P HP); eassumption].
  - exists (Raise e), l1. split; [reflexivity |].
    eapply (sequential_raise P HP); eassumption.
Qed.

Lemma sat_for_eachM {A S : Type} (xs : list A) (body : A -> S -> M S) :
  (forall a st, sat (body a st) (P S)) ->
  forall st, sat (for_eachM xs body st) (P S).
Proof.
  intros Hb. induction xs as [| a xs IH]; intros st.
  - apply sat_ret.
  - cbn [for_eachM]. apply sat_bind; [apply Hb | exact IH].
Qed.

End Rules.

(* ================================================================== *)
(** * Properties of the scan *)

Section Scan.

Variable env : environment.
Variable repr_float : Q -> string.

(** The [finally] clause: whatever the [try] block did, [driver.quit()] is
    called next, and it is the last call. *)
Lemma scan_city_finally (self : MapsScreenshotBot) (grid_size : Z)
    (h : history) :
  forall r h1,
    scan_try_block env repr_float self grid_size h = (r, h1) ->
    scan_city env repr_float self grid_size h =
    (match outcome env h1 EvQuit with
     | None => r
     | Some e => Raise e
     end,
     h1 ++ [(EvQuit, outcome env h1 EvQuit)]).
Proof.
  intros r h1 E. unfold scan_city, try_finally, call. rewrite E.
  destruct (outcome env h1 EvQuit); reflexivity.
Qed.

Ltac sat_step P HP :=
  first [ apply (sat_bind P HP)
        | apply (sat_ret P HP)
        | apply (sat_now env P HP)
        | apply (sat_lift P)
        | apply (sat_emit P)
        | apply (sat_call env P)
        | apply (sat_wait env P)
        | intro ].

(** A property that survives sequencing and holds of each call of the
    loop body holds of the whole [try] block. *)
Lemma scan_try_block_sat
    (P : forall A : Type, result A -> history -> Prop)
    (self : MapsScreenshotBot) (grid_size : Z) :
  sequential P ->
  (forall A (r : result A), P A r []) ->
  (forall total pt p,
     sat (capture_point env repr_float self total pt p) (P Z)) ->
  sat (scan_try_block env repr_float self grid_size) (P unit).
Proof.
  intros HP Hpure Hbody.
  unfold scan_try_block, scan_from_steps, scan_loops.
  apply (sat_bind _ HP); [apply (sat_lift P), Hpure | intros box].
  apply (sat_bind _ HP); [apply (sat_lift P), Hpure | intros [lats lons]].
  apply (sat_bind _ HP); [| intros _; apply (sat_ret _ HP)].
  apply (sat_for_eachM _ HP). intros lat p.
  apply (sat_for_eachM _ HP). intros lon p'. apply Hbody.
Qed.

Lemma capture_point_only (self : MapsScreenshotBot) (total : Z)
    (pt : point) (p : Z) :
  sat (capture_point env repr_float self total pt p)
      (only (scan_entry repr_float self) Z).
Proof.
  pose proof (only_sequential (scan_entry repr_float self)) as HP.
  destruct pt as [lat lon]. unfold capture_point, navigate_to_position.
  apply (sat_bind _ HP); [apply (sat_lift (only _)); constructor |].
  intros [|]; [| apply (sat_ret _ HP)].
  repeat sat_step (only (scan_entry repr_float self)) HP;
    unfold only; repeat constructor;
    unfold scan_entry; cbn [fst]; eauto.
Qed.

Lemma capture_point_stops (self : MapsScreenshotBot) (total : Z)
    (pt : point) (p : Z) :
  sat (capture_point env repr_float self total pt p) (stops_at_fatal Z).
Proof.
  pose proof stops_at_fatal_sequential as HP.
  destruct pt as [lat lon]. unfold capture_point, navigate_to_position.
  apply (sat_bind _ HP); [apply (sat_lift stops_at_fatal); left; constructor |].
  intros [|]; [| apply (sat_ret _ HP)].
  repeat sat_step stops_at_fatal HP;
    try (left; repeat constructor; cbn; intros; congruence).
  all: right; eexists [], _, _; repeat split; constructor.
Qed.

Lemma scan_try_block_only (self : MapsScreenshotBot) (grid_size : Z) :
  sat (scan_try_block env repr_float self grid_size)
      (only (scan_entry repr_float self) unit).
Proof.
  apply scan_try_block_sat.
  - apply only_sequential.
  - intros. constructor.
  - apply capture_point_only.
Qed.

Lemma scan_try_block_stops (self : MapsScreenshotBot) (grid_size : Z) :
  sat (scan_try_block env repr_float self grid_size) (stops_at_fatal unit).
Proof.
  apply scan_try_block_sat.
  - apply stops_at_fatal_sequential.
  - intros. left. constructor.
  - apply capture_point_stops.
Qed.

(** ** Captures and progress reports *)

Lemma marks_app (l1 l2 : history) : marks (l1 ++ l2) = marks l1 ++ marks l2.
Proof. apply flat_map_app. Qed.

Lemma expected_marks_app (total p : Z) (a b : nat) :
  expected_marks total p (a + b) =
  expected_marks total p a ++ expected_marks total (p + Z.of_nat a) b.
Proof.
  revert p. induction a as [| a IH]; intros p.
  - cbn [Nat.add expected_marks app]. now rewrite Z.add_0_r.
  - replace (p + Z.of_nat (S a))%Z with (p + 1 + Z.of_nat a)%Z by lia.
    cbn [Nat.add expected_marks app]. now rewrite IH.
Qed.

Lemma inside_count_app (self : MapsScreenshotBot) (a b : list point) :
  inside_count self (a ++ b) = (inside_count self a + inside_count self b)%nat.
Proof.
  unfold inside_count. now rewrite filter_app, length_app.
Qed.

(** One pass through the loop body that returns: a skipped point adds
    nothing; a captured point adds one capture followed by one report that
    counts it. *)
Lemma capture_point_marks (self : MapsScreenshotBot) (total : Z)
    (pt : point) (p p' : Z) (h h' : history) :
  capture_point env repr_float self total pt p h = (Return p', h') ->
  exists l,
    h' = h ++ l /\
    p' = (p + Z.of_nat (inside_count self [pt]))%Z /\
    marks l = expected_marks total p (inside_count self [pt]).
Proof.
  destruct pt as [lat lon]. unfold capture_point, inside_count.
  cbn [filter]. unfold bind at 1. unfold lift.
  destruct (is_within_boundary self (lat, lon)) as [[|] | e];
    [| | discriminate].
  - unfold navigate_to_position, bind, call, emit, try_except, now, lift,
      ret, py_div.
    intros H.
    repeat match type of H with
           | context [outcome env ?hh ?ev] =>
               destruct (outcome env hh ev)
           end; try discriminate;
    destruct (Qeq_bool (inject_Z total) 0); try discriminate;
    injection H as <- <-;
    (eexists; split;
     [rewrite <- !app_assoc; cbn [app]; reflexivity
     | split; [cbn; lia | reflexivity]]).
  - unfold ret. intros H. injection H as <- <-.
    exists []. rewrite app_nil_r. cbn. split; [reflexivity |].
    split; [lia | reflexivity].
Qed.

Lemma loop_marks (self : MapsScreenshotBot) (total : Z)
    (cands : list point) (p p' : Z) (h h' : history) :
  for_eachM cands (capture_point env repr_float self total) p h
    = (Return p', h') ->
  exists l,
    h' = h ++ l /\
    p' = (p + Z.of_nat (inside_count self cands))%Z /\
    marks l = expected_marks total p (inside_count self cands).
Proof.
  revert p h. induction cands as [| c cands IH]; intros p h.
  - cbn. intros H. injection H as <- <-. exists [].
    rewrite app_nil_r. split; [reflexivity |]. split; [lia | reflexivity].
  - cbn [for_eachM]. unfold bind.
    destruct (capture_point env repr_float self total c p h)
      as [[p1 | e] h1] eqn:E; [| discriminate].
    intros H.
    destruct (capture_point_marks _ _ _ _ _ _ _ E) as (l1 & -> & -> & M1).
    destruct (IH _ _ H) as (l2 & -> & -> & M2).
    exists (l1 ++ l2). rewrite app_assoc.
    change (c :: cands) with ([c] ++ cands).
    rewrite inside_count_app, marks_app, expected_marks_app, M1, M2.
    split; [reflexivity |]. split; [lia | reflexivity].
Qed.

Lemma for_eachM_map {A B S : Type} (f : A -> B) (xs : list A)
    (body : B -> S -> M S) (st : S) (h : history) :
  for_eachM (map f xs) body st h =
  for_eachM xs (fun a => body (f a)) st h.
Proof.
  revert st h. induction xs as [| a xs IH]; intros st h; [reflexivity |].
  cbn [map for_eachM]. unfold bind.
  destruct (body (f a) st h) as [[st' | e] h']; [apply IH | reflexivity].
Qed.

Lemma for_eachM_app {A S : Type} (xs ys : list A) (body : A -> S -> M S)
    (st : S) (h : history) :
  for_eachM (xs ++ ys) body st h =
  bind (for_eachM xs body st) (for_eachM ys body) h.
Proof.
  revert st h. induction xs as [| a xs IH]; intros st h; [reflexivity |].
  cbn [app for_eachM]. unfold bind.
  destruct (body a st h) as [[st' | e] h']; [| reflexivity].
  rewrite IH. reflexivity.
Qed.

(** The two nested loops visit the candidates of [grid_points] in order. *)
Lemma nested_loops_flat {S : Type} (lats lons : list Q)
    (body : point -> S -> M S) (st : S) (h : history) :
  for_eachM lats
    (fun lat s => for_eachM lons (fun lon s' => body (lat, lon) s') s) st h =
  for_eachM (grid_points (lats, lons)) body st h.
Proof.
  unfold grid_points. cbn [fst snd].
  revert st h. induction lats as [| lat lats IH]; intros st h;
    [reflexivity |].
  cbn [list_prod for_eachM]. rewrite for_eachM_app. unfold bind.
  rewrite for_eachM_map.
  destruct (for_eachM lons (fun lon s' => body (lat, lon) s') st h)
    as [[st' | e] h']; [apply IH | reflexivity].
Qed.

(** What a [try] block that returns has done. *)
Lemma scan_try_block_marks (self : MapsScreenshotBot) (grid_size : Z)
    (h h1 : history) :
  scan_try_block env repr_float self grid_size h = (Return tt, h1) ->
  exists axes l,
    generate_grid self grid_size = Return axes /\
    h1 = h ++ l /\
    marks l =
    expected_marks
      (Z.of_nat (List.length (fst axes)) * Z.of_nat (List.length (snd axes)))
      0 (inside_count self (grid_points axes)).
Proof.
  unfold scan_try_block, generate_grid, scan_from_steps.
  unfold bind at 1. unfold lift at 1.
  destruct (bounding_box self) as [box | e]; [| discriminate].
  cbn [rbind]. unfold bind at 1. unfold lift at 1.
  destruct (grid_axes self grid_size box (calculate_grid_step self))
    as [[lats lons] | e]; [| discriminate].
  unfold bind at 1. unfold scan_loops. rewrite nested_loops_flat.
  match goal with
  | |- context [for_eachM ?c ?b ?s h] =>
      destruct (for_eachM c b s h) as [[p' | e] h2] eqn:E
  end; [| discriminate].
  unfold ret. intros H. injection H as <-.
  destruct (loop_marks _ _ _ _ _ _ _ E) as (l & -> & _ & Ml).
  exists (lats, lons), l. repeat split. exact Ml.
Qed.

Lemma scan_entry_not_quit (self : MapsScreenshotBot) (l : history) :
  Forall (scan_entry repr_float self) l -> filter is_quit l = [].
Proof.
  induction 1 as [| [ev o] l Hx _ IH]; [reflexivity |].
  cbn [filter]. destruct ev; cbn [is_quit]; try exact IH.
  destruct Hx.
Qed.

(** C2.  Whatever the environment does and however the [try] block ends
    (it returns, or raises from the bounding box, the grid, a navigation,
    a capture or a save), the scan calls [driver.quit()] exactly once: the
    block itself never calls it, and the call comes right after the block
    and before the scan returns or raises. *)
Theorem scan_city_quits_exactly_once
    (self : MapsScreenshotBot) (grid_size : Z) (h : history) :
  exists r_block l o,
    scan_try_block env repr_float self grid_size h = (r_block, h ++ l) /\
    scan_city env repr_float self grid_size h =
    (match o with None => r_block | Some e => Raise e end,
     h ++ l ++ [(EvQuit, o)]) /\
    filter is_quit l = [] /\
    List.length (filter is_quit (l ++ [(EvQuit, o)])) = 1%nat.
Proof.
  destruct (scan_try_block_only self grid_size h) as (r & l & E & Hl).
  exists r, l, (outcome env (h ++ l) EvQuit).
  pose proof (scan_entry_not_quit self l Hl) as Hq.
  split; [exact E |]. split; [| split; [exact Hq |]].
  - rewrite (scan_city_finally self grid_size h r (h ++ l) E).
    now rewrite <- app_assoc.
  - rewrite filter_app, Hq. reflexivity.
Qed.

Lemma expected_marks_last (total p : Z) (k : nat) (d : mark) :
  last (expected_marks total p (S k)) d =
  Reported (inject_Z (p + Z.of_nat (S k)) / inject_Z total * 100)
           (p + Z.of_nat (S k)) total.
Proof.
  revert p. induction k as [| k IH]; intros p.
  - cbn. reflexivity.
  - replace (p + Z.of_nat (S (S k)))%Z with (p + 1 + Z.of_nat (S k))%Z by lia.
    rewrite <- IH. reflexivity.
Qed.

Lemma inside_count_le (self : MapsScreenshotBot) (cands : list point) :
  (inside_count self cands <= List.length cands)%nat.
Proof. apply filter_length_le. Qed.

Lemma percent_full (m n : nat) :
  (0 < m)%nat -> (m <= n)%nat ->
  inject_Z (Z.of_nat m) / inject_Z (Z.of_nat n) * 100 == 100 <-> m = n.
Proof.
  intros Hm Hn.
  assert (D : ~ inject_Z (Z.of_nat n) == 0).
  { change 0 with (inject_Z 0). rewrite inject_Z_injective. lia. }
  split.
  - intros H.
    assert (E : inject_Z (Z.of_nat m) == inject_Z (Z.of_nat n)).
    { assert (F : inject_Z (Z.of_nat m) ==
                  inject_Z (Z.of_nat m) / inject_Z (Z.of_nat n) *
                  inject_Z (Z.of_nat n)) by (field; exact D).
      set (q := inject_Z (Z.of_nat m) / inject_Z (Z.of_nat n)) in *.
      assert (Hq : q == 1) by lra.
      rewrite F, Hq. ring. }
    apply (proj1 (inject_Z_injective _ _)) in E. lia.
  - intros ->. field. exact D.
Qed.

(** C1, as the code has it.  In a run that completes, the captures and the
    progress reports alternate: each captured in-boundary point is followed
    by one report, a skipped point by none, and the k-th report reads
    [k / total] with [total] the number of all candidate points, skipped
    ones included.  The last report therefore shows
    [100 * captured / total] percent, which is 100 exactly when no
    candidate was skipped. *)
Theorem scan_city_progress_reports
    (self : MapsScreenshotBot) (grid_size : Z) (h h' : history) :
  scan_city env repr_float self grid_size h = (Return tt, h') ->
  exists axes l,
    generate_grid self grid_size = Return axes /\
    h' = h ++ l /\
    let cands := grid_points axes in
    let total :=
      (Z.of_nat (List.length (fst axes)) *
       Z.of_nat (List.length (snd axes)))%Z in
    let captured := inside_count self cands in
    total = Z.of_nat (List.length cands) /\
    marks l = expected_marks total 0 captured /\
    forall percent processed total',
      last (marks l) Captured = Reported percent processed total' ->
      processed = Z.of_nat captured /\
      total' = total /\
      percent = inject_Z (Z.of_nat captured) / inject_Z total * 100 /\
      (percent == 100 <-> captured = List.length cands).
Proof.
  intros H.
  destruct (scan_try_block env repr_float self grid_size h) as [r h1] eqn:E.
  rewrite (scan_city_finally self grid_size h r h1 E) in H.
  destruct (outcome env h1 EvQuit) as [e |] eqn:Eq; [discriminate |].
  injection H as -> <-.
  destruct (scan_try_block_marks self grid_size h h1 E)
    as (axes & l & G & -> & Ml).
  exists axes, (l ++ [(EvQuit, None)]).
  split; [exact G |]. split; [now rewrite app_assoc |].
  intros cands total captured.
  assert (T : total = Z.of_nat (List.length cands)).
  { subst total cands. unfold grid_points, point.
    rewrite length_prod. lia. }
  assert (M : marks (l ++ [(EvQuit, None)]) = expected_marks total 0 captured).
  { rewrite marks_app. cbn [marks flat_map mark_of app].
    rewrite app_nil_r. exact Ml. }
  split; [exact T |]. split; [exact M |].
  intros percent processed total' L. rewrite M in L.
  destruct captured as [| k] eqn:C; [discriminate |].
  rewrite expected_marks_last, Z.add_0_l in L. injection L as <- <- <-.
  split; [reflexivity |]. split; [reflexivity |]. split; [reflexivity |].
  rewrite T. apply (percent_full (S k) (List.length cands)); [lia |].
  rewrite <- C. apply inside_count_le.
Qed.

(** ** Failures *)

(** A wait that raises is followed by the warning, and
    [navigate_to_position] returns. *)
Lemma navigate_to_position_wait_raises (self : MapsScreenshotBot)
    (lat lon : Q) (h : history) (e : exn) :
  let url := maps_url repr_float self lat lon in
  outcome env h (EvGet url) = None ->
  outcome env (h ++ [(EvGet url, None); (EvSleep 2, None)])
          (EvWaitUntil 10 "gm-style") = Some e ->
  navigate_to_position env repr_float self lat lon h =
  (Return tt,
   h ++ [(EvGet url, None); (EvSleep 2, None);
         (EvWaitUntil 10 "gm-style", Some e);
         (EvPrint (MapLoadingTimeout lat lon), None)]).
Proof.
  intros url H1 H2.
  unfold navigate_to_position, bind, call, emit, try_except. fold url.
  rewrite H1. rewrite <- !app_assoc. cbn [app].
  match goal with
  | |- context [outcome env ?hh ?ev] =>
      replace (outcome env hh ev) with (Some e) by (symmetry; exact H2)
  end.
  rewrite <- !app_assoc. reflexivity.
Qed.

Section OnlyWaitsFail.

Hypothesis only_waits_fail :
  forall h ev, is_wait ev = false -> outcome env h ev = None.

Lemma call_returns (ev : event) :
  is_wait ev = false -> sat (call env ev) (returns unit).
Proof.
  intros H h. unfold call. rewrite (only_waits_fail h ev H).
  exists (Return tt), [(ev, None)]. split; [reflexivity |].
  now exists tt.
Qed.

Lemma capture_point_returns (self : MapsScreenshotBot) (total : Z)
    (pt : point) (p : Z) :
  boundary_coords self <> [] -> total <> 0%Z ->
  sat (capture_point env repr_float self total pt p) (returns Z).
Proof.
  intros Hb Ht.
  pose proof returns_sequential as HP.
  destruct pt as [lat lon]. unfold capture_point, navigate_to_position.
  assert (W : exists b, is_within_boundary self (lat, lon) = Return b).
  { unfold is_within_boundary. now apply point_in_polygon_returns. }
  destruct W as [b ->].
  assert (D : py_div (inject_Z (p + 1)) (inject_Z total)
              = Return (inject_Z (p + 1) / inject_Z total)).
  { unfold py_div.
    replace (Qeq_bool (inject_Z total) 0) with false; [reflexivity |].
    symmetry. apply Qeq_bool_false.
    change 0 with (inject_Z 0). rewrite inject_Z_injective. exact Ht. }
  rewrite D.
  apply (sat_bind _ HP); [apply (sat_lift returns); now exists b |].
  intros [|]; [| apply (sat_ret _ HP)].
  repeat first [ apply call_returns; reflexivity
               | apply (sat_bind returns HP)
               | apply (sat_ret returns HP)
               | apply (sat_now env returns HP)
               | apply (sat_lift returns)
               | apply (sat_emit returns)
               | apply (sat_wait env returns)
               | intro ];
    unfold returns; eauto.
Qed.

Lemma scan_loops_returns (self : MapsScreenshotBot) (axes : list Q * list Q) :
  boundary_coords self <> [] ->
  sat (scan_loops env repr_float self axes) (returns Z).
Proof.
  intros Hb. pose proof returns_sequential as HP.
  destruct axes as [lats lons]. unfold scan_loops.
  destruct lons as [| lon lons].
  - apply (sat_for_eachM _ HP). intros lat p. apply (sat_ret _ HP).
  - destruct lats as [| lat lats]; [apply (sat_ret _ HP) |].
    apply (sat_for_eachM _ HP). intros lat' p.
    apply (sat_for_eachM _ HP). intros lon' p'.
    apply capture_point_returns; [exact Hb |].
    cbn [List.length]. lia.
Qed.

(** When only load waits fail, the scan returns and every in-boundary
    candidate has been captured and reported. *)
Lemma scan_city_returns (self : MapsScreenshotBot) (grid_size : Z)
    (axes : list Q * list Q) (h : history) :
  generate_grid self grid_size = Return axes ->
  exists l,
    scan_city env repr_float self grid_size h = (Return tt, h ++ l) /\
    marks l =
    expected_marks
      (Z.of_nat (List.length (fst axes)) * Z.of_nat (List.length (snd axes)))
      0 (inside_count self (grid_points axes)).
Proof.
  intros G.
  assert (Hb : boundary_coords self <> []).
  { intros N. unfold generate_grid, bounding_box in G. rewrite N in G.
    discriminate. }
  assert (B : exists h1,
             scan_try_block env repr_float self grid_size h = (Return tt, h1)).
  { unfold scan_try_block, scan_from_steps. unfold generate_grid in G.
    unfold bind at 1. unfold lift at 1.
    destruct (bounding_box self) as [box | e]; [| discriminate].
    cbn [rbind] in G. unfold bind at 1. unfold lift at 1. rewrite G.
    unfold bind.
    destruct (scan_loops_returns self axes Hb h) as (r & l & -> & [p ->]).
    eexists. reflexivity. }
  destruct B as [h1 B].
  destruct (scan_try_block_marks self grid_size h h1 B)
    as (axes' & l & G' & -> & Ml).
  assert (axes' = axes) by congruence. subst axes'.
  exists (l ++ [(EvQuit, None)]).
  rewrite (scan_city_finally self grid_size h _ _ B).
  rewrite (only_waits_fail (h ++ l) EvQuit eq_refl).
  split; [now rewrite app_assoc |].
  rewrite marks_app. cbn [marks flat_map mark_of app].
  rewrite app_nil_r. exact Ml.
Qed.

End OnlyWaitsFail.

Lemma fatal_failure_is_last {A : Type} (r : result A) (l l1 l2 : history)
    (ev : event) (e : exn) :
  stops_at_fatal A r l ->
  l = l1 ++ (ev, Some e) :: l2 ->
  is_fatal ev = true ->
  l2 = [] /\ r = Raise e.
Proof.
  intros [C | (l0 & ev' & e' & E & F & C & R)] D Hf.
  - subst l. apply Forall_app in C. destruct C as [_ C].
    inversion C as [| x xs Hx _]. specialize (Hx Hf). discriminate.
  - subst l. destruct (exists_last (l := (ev, Some e) :: l2)) as (l3 & z & Z);
      [discriminate |].
    rewrite Z, app_assoc in D. apply app_inj_tail in D. destruct D as [D1 D2].
    destruct l3 as [| y l3].
    + cbn in Z. injection Z as Z1 Z2. rewrite <- Z1 in D2.
      injection D2 as _ D2. split; [exact Z2 | congruence].
    + cbn in Z. injection Z as Z1 Z2. subst y l0.
      apply Forall_app in C. destruct C as [_ C].
      inversion C as [| x xs Hx _]. specialize (Hx Hf). discriminate.
Qed.

(** A navigation, capture or save that raises is followed by
    [driver.quit()] and by nothing else, and the scan raises. *)
Lemma scan_city_fatal (self : MapsScreenshotBot) (grid_size : Z)
    (h : history) :
  exists r l o,
    scan_city env repr_float self grid_size h = (r, h ++ l ++ [(EvQuit, o)]) /\
    forall l1 ev e l2,
      l ++ [(EvQuit, o)] = l1 ++ (ev, Some e) :: l2 ->
      is_fatal ev = true ->
      l2 = [(EvQuit, o)] /\
      r = match o with None => Raise e | Some e' => Raise e' end.
Proof.
  destruct (scan_try_block_stops self grid_size h) as (rb & l & E & S).
  exists (match outcome env (h ++ l) EvQuit with
          | None => rb
          | Some e => Raise e
          end), l, (outcome env (h ++ l) EvQuit).
  split.
  - rewrite (scan_city_finally self grid_size h rb (h ++ l) E).
    now rewrite <- app_assoc.
  - intros l1 ev e l2 D Hf.
    destruct (exists_last (l := (ev, Some e) :: l2)) as (l3 & z & Z);
      [discriminate |].
    rewrite Z, app_assoc in D. apply app_inj_tail in D. destruct D as [D1 D2].
    subst z. destruct l3 as [| y l3].
    + cbn in Z. injection Z as Z1 _. subst ev. discriminate.
    + cbn in Z. injection Z as Z1 Z2. subst y l2.
      destruct (fatal_failure_is_last rb l l1 l3 ev e S D1 Hf) as [-> ->].
      split; [reflexivity |].
      destruct (outcome env (h ++ l1 ++ [(ev, Some e)]) EvQuit); reflexivity.
Qed.

(** C5, as the code has it.  Within the processing of a point: an
    exception raised inside the load wait, the timeout or any other, is
    caught, the warning is printed and [navigate_to_position] returns, so
    the capture follows; when nothing but load waits fails, the scan runs
    to its end and every in-boundary candidate is captured and reported;
    and an exception raised by the page request, by the screen capture or
    by the save is not caught: the only call after it is [driver.quit()]
    and the scan raises. *)
Theorem scan_city_failures
    (self : MapsScreenshotBot) (grid_size : Z) (h : history) :
  (forall lat lon h0 e,
     let url := maps_url repr_float self lat lon in
     outcome env h0 (EvGet url) = None ->
     outcome env (h0 ++ [(EvGet url, None); (EvSleep 2, None)])
             (EvWaitUntil 10 "gm-style") = Some e ->
     navigate_to_position env repr_float self lat lon h0 =
     (Return tt,
      h0 ++ [(EvGet url, None); (EvSleep 2, None);
             (EvWaitUntil 10 "gm-style", Some e);
             (EvPrint (MapLoadingTimeout lat lon), None)])) /\
  ((forall h0 ev, is_wait ev = false -> outcome env h0 ev = None) ->
   forall axes,
     generate_grid self grid_size = Return axes ->
     exists l,
       scan_city env repr_float self grid_size h = (Return tt, h ++ l) /\
       marks l =
       expected_marks
         (Z.of_nat (List.length (fst axes)) *
          Z.of_nat (List.length (snd axes)))
         0 (inside_count self (grid_points axes))) /\
  (exists r l o,
     scan_city env repr_float self grid_size h
       = (r, h ++ l ++ [(EvQuit, o)]) /\
     forall l1 ev e l2,
       l ++ [(EvQuit, o)] = l1 ++ (ev, Some e) :: l2 ->
       is_fatal ev = true ->
       l2 = [(EvQuit, o)] /\
       r = match o with None => Raise e | Some e' => Raise e' end).
Proof.
  split; [| split].
  - intros lat lon h0 e. apply navigate_to_position_wait_raises.
  - intros Hw axes G. now apply scan_city_returns.
  - apply scan_city_fatal.
Qed.

(** ** The zoom level in URLs, file names and the directory name *)

Lemma to_int_not_nil (z : Z) :
  Z.to_int z <> Decimal.Pos Decimal.Nil /\
  Z.to_int z <> Decimal.Neg Decimal.Nil.
Proof.
  split; intros H; pose proof (f_equal Z.of_int H) as H';
    rewrite of_to in H'; cbn in H'; subst z; vm_compute in H; discriminate.
Qed.

Lemma str_int_inj (a b : Z) : str_int a = str_int b -> a = b.
Proof.
  unfold str_int. intros H.
  apply (f_equal NilZero.int_of_string) in H.
  destruct (to_int_not_nil a) as [A1 A2], (to_int_not_nil b) as [B1 B2].
  rewrite !NilZero.isi in H by assumption.
  injection H as H. now apply to_int_inj.
Qed.

Lemma __init___returns (city0 : string) (boundary : list point)
    (zoom_arg : Z) (h h1 : history) (bot : MapsScreenshotBot) :
  __init__ env city0 boundary zoom_arg h = (Return bot, h1) ->
  bot = mk_bot city0 boundary (Z.min 21 (Z.max 0 zoom_arg))
          ("screenshots_" ++ city0 ++ "_zoom" ++ str_int zoom_arg).
Proof.
  unfold __init__, bind, call, exists_path, ret. intros H.
  repeat match type of H with
         | context [outcome env ?hh ?ev] => destruct (outcome env hh ev)
         | context [path_exists env ?hh ?p] =>
             destruct (path_exists env hh p); cbn [negb] in H
         end; try discriminate; now injection H as <- _.
Qed.

(** C10.  For a [zoom_level] argument outside [0, 21] the stored zoom
    level is the argument clamped into [0, 21]; every URL requested and
    every file name saved by a scan carries the stored, clamped value,
    while the directory the file names start with carries the argument as
    given; the two renderings differ. *)
Theorem zoom_level_clamped_but_not_in_directory
    (city0 : string) (boundary : list point) (zoom_arg : Z)
    (h h1 : history) (bot : MapsScreenshotBot) :
  (zoom_arg < 0 \/ 21 < zoom_arg)%Z ->
  __init__ env city0 boundary zoom_arg h = (Return bot, h1) ->
  zoom_level bot = Z.min 21 (Z.max 0 zoom_arg) /\
  (0 <= zoom_level bot <= 21)%Z /\
  screenshot_path bot
    = ("screenshots_" ++ city0 ++ "_zoom" ++ str_int zoom_arg)%string /\
  (forall grid_size h2, exists r l,
     scan_city env repr_float bot grid_size h2 = (r, h2 ++ l) /\
     Forall
       (fun x : entry =>
          match fst x with
          | EvGet url =>
              exists lat lon,
                url = ("https://www.google.com/maps/@" ++ repr_float lat ++
                       "," ++ repr_float lon ++ "," ++
                       str_int (zoom_level bot) ++ "z")%string
          | EvSave filename =>
              exists lat lon timestamp,
                filename =
                (("screenshots_" ++ city0 ++ "_zoom" ++ str_int zoom_arg) ++
                 "/" ++ city0 ++ "_" ++ repr_float lat ++ "_" ++
                 repr_float lon ++ "_z" ++ str_int (zoom_level bot) ++
                 "_" ++ timestamp ++ ".png")%string
          | _ => True
          end) l) /\
  str_int zoom_arg <> str_int (zoom_level bot).
Proof.
  intros Hz Hi. apply __init___returns in Hi. subst bot.
  cbn [zoom_level screenshot_path].
  split; [reflexivity |]. split; [lia |]. split; [reflexivity |].
  split.
  - intros grid_size h2.
    destruct (scan_try_block_only
                (mk_bot city0 boundary (Z.min 21 (Z.max 0 zoom_arg))
                   ("screenshots_" ++ city0 ++ "_zoom" ++ str_int zoom_arg))
                grid_size h2)
      as (rb & l & E & Hl).
    eexists _, (l ++ [(EvQuit, outcome env (h2 ++ l) EvQuit)]).
    split.
    { rewrite (scan_city_finally _ grid_size h2 rb (h2 ++ l) E).
      now rewrite <- app_assoc. }
    apply Forall_app. split.
    + eapply Forall_impl; [| exact Hl].
      intros [ev o']. unfold scan_entry, maps_url, capture_filename.
      cbn [fst zoom_level screenshot_path city].
      destruct ev; trivial.
    + repeat constructor.
  - intros H. apply str_int_inj in H. lia.
Qed.

End Scan.

(* ================================================================== *)
(** * Two consequences for whole runs *)

Lemma fold_left_Qmin_le (l : list Q) (a : Q) :
  fold_left Qmin l a <= a /\ forall x, In x l -> fold_left Qmin l a <= x.
Proof.
  revert a. induction l as [| b l IH]; intros a.
  - split; [apply Qle_refl | intros x []].
  - cbn [fold_left]. destruct (IH (Qmin a b)) as [H1 H2]. split.
    + eapply Qle_trans; [exact H1 | apply Q.le_min_l].
    + intros x [<- | Hx]; [| now apply H2].
      eapply Qle_trans; [exact H1 | apply Q.le_min_r].
Qed.

Lemma py_min_lower_bound (l : list Q) (m : Q) :
  py_min l = Return m -> forall x, In x l -> m <= x.
Proof.
  destruct l as [| a l]; [discriminate |].
  cbn. intros H. injection H as <-.
  destruct (fold_left_Qmin_le l a) as [H1 H2].
  intros x [<- | Hx]; [exact H1 | now apply H2].
Qed.

Lemma consec_in (vs : list point) (a b : point) :
  In (a, b) (consec vs) -> In a vs /\ In b vs.
Proof.
  induction vs as [| v vs IH]; [intros [] |].
  destruct vs as [| w vs]; [intros [] |].
  intros [E | H].
  - injection E as <- <-. split; [now left | right; now left].
  - destruct (IH H) as [Ha Hb]. split; now right.
Qed.

Lemma visited_edges_in (polygon : list point) (a b : point) :
  In (a, b) (visited_edges polygon) -> In a polygon /\ In b polygon.
Proof.
  destruct polygon as [| p0 l]; [intros [] |].
  unfold visited_edges. intros H. apply consec_in in H.
  assert (S : forall v, In v (p0 :: (p0 :: l) ++ [p0]) -> In v (p0 :: l)).
  { intros v [<- | Hv]; [now left |].
    apply in_app_or in Hv. destruct Hv as [Hv | [<- | []]];
      [exact Hv | now left]. }
  destruct H as [Ha Hb]. split; now apply S.
Qed.

Lemma parity_all_false (bs : list bool) :
  (forall b, In b bs -> b = false) -> parity bs = false.
Proof.
  induction bs as [| b bs IH]; [reflexivity |].
  intros H. cbn [parity fold_right].
  rewrite (H b (or_introl eq_refl)). cbn [xorb].
  apply IH. intros c Hc. apply H. now right.
Qed.

(** A point level with or below every vertex is outside: no edge has its
    minimum y strictly below the point. *)
Lemma point_in_polygon_at_min_y (x y : Q) (polygon : list point) :
  (forall p, In p polygon -> y <= snd p) ->
  point_in_polygon (x, y) polygon <> Return true.
Proof.
  intros Hy. rewrite point_in_polygon_parity.
  destruct polygon as [| p0 l] eqn:Ep; [discriminate |].
  rewrite parity_all_false; [discriminate |].
  intros b Hb. apply in_map_iff in Hb. destruct Hb as ([p1 p2] & <- & He).
  apply visited_edges_in in He. destruct He as [H1 H2].
  unfold edge_toggles.
  destruct (crossing_candidate y p1 p2) eqn:C; [| reflexivity].
  apply crossing_candidate_iff in C. destruct C as [C _].
  pose proof (Hy p1 H1) as L1. pose proof (Hy p2 H2) as L2.
  pose proof (Q.min_glb _ _ _ L1 L2) as G. lra.
Qed.

Lemma filter_length_lt {A : Type} (f : A -> bool) (l : list A) (x : A) :
  In x l -> f x = false ->
  (List.length (filter f l) < List.length l)%nat.
Proof.
  induction l as [| a l IH]; [intros [] |].
  intros [<- | Hx] Hf; cbn [filter List.length].
  - rewrite Hf. pose proof (filter_length_le f l). lia.
  - specialize (IH Hx Hf). destruct (f a); cbn [List.length]; lia.
Qed.

(** Some candidate is always skipped: the points of the first longitude,
    [lon_min], are level with the lowest vertices.  So in a run with at
    least one candidate the captured points are fewer than the candidates,
    and no progress report shows [total/total]. *)
Lemma inside_count_lt (self : MapsScreenshotBot) (grid_size : Z)
    (axes : list Q * list Q) :
  generate_grid self grid_size = Return axes ->
  grid_points axes <> [] ->
  (inside_count self (grid_points axes) < List.length (grid_points axes))%nat.
Proof.
  unfold generate_grid, bounding_box.
  destruct (py_min (map fst (boundary_coords self))) as [a | e];
    [| discriminate].
  destruct (py_max (map fst (boundary_coords self))) as [b | e];
    [| discriminate].
  destruct (py_min (map snd (boundary_coords self))) as [c | e] eqn:Ec;
    [| discriminate].
  destruct (py_max (map snd (boundary_coords self))) as [d | e];
    [| discriminate].
  cbn [rbind]. unfold grid_axes.
  destruct (calculate_grid_step self) as [s1 s2].
  unfold linspace.
  destruct (actual_grid_size self grid_size) as [n | q]; [| discriminate].
  destruct (n <? 0)%Z; [discriminate |]. cbn [rbind].
  intros H. injection H as <-. unfold grid_points. cbn [fst snd].
  intros N.
  destruct (linspace_samples a b (Z.to_nat n)) as [| lat0 lats] eqn:Ea;
    [contradiction |].
  destruct (linspace_samples_spec c d (Z.to_nat n)) as (L & F & _).
  destruct (linspace_samples c d (Z.to_nat n)) as [| lon0 lons] eqn:Ed.
  { exfalso. apply N. clear. induction (lat0 :: lats); [reflexivity |].
    exact IHl. }
  assert (F0 : lon0 == c) by (apply F; rewrite <- L; cbn; lia).
  unfold inside_count.
  apply (filter_length_lt _ _ (lat0, lon0)).
  - apply in_prod; now left.
  - destruct (is_within_boundary self (lat0, lon0)) as [[|] |] eqn:W;
      try reflexivity.
    exfalso. revert W. unfold is_within_boundary.
    apply point_in_polygon_at_min_y. intros p Hp. rewrite F0.
    apply (py_min_lower_bound _ _ Ec). now apply in_map.
Qed.

Section LowZoom.

Variable env : environment.
Variable repr_float : Q -> string.

Lemma scan_try_block_grid_raises (self : MapsScreenshotBot) (grid_size : Z)
    (e : exn) (h : history) :
  generate_grid self grid_size = Raise e ->
  scan_try_block env repr_float self grid_size h = (Raise e, h).
Proof.
  unfold generate_grid, scan_try_block, scan_from_steps, bind, lift.
  destruct (bounding_box self) as [box | e'].
  - cbn [rbind]. now intros ->.
  - cbn [rbind]. now intros [= ->].
Qed.

(** Below zoom 18 a scan of a non-empty boundary requests no page: it
    calls [driver.quit()] and raises. *)
Lemma scan_city_low_zoom (self : MapsScreenshotBot) (grid_size : Z)
    (h : history) :
  boundary_coords self <> [] -> (zoom_level self < 18)%Z ->
  scan_city env repr_float self grid_size h =
  (match outcome env h EvQuit with
   | None => Raise TypeError
   | Some e => Raise e
   end,
   h ++ [(EvQuit, outcome env h EvQuit)]).
Proof.
  intros Hb Hz. apply scan_city_finally.
  apply scan_try_block_grid_raises. now apply generate_grid_low_zoom.
Qed.

(** [create_detailed_map] starts with its "overview" preset, zoom 16 with
    grid size 10: even when no call fails, it raises there and never
    reaches the other presets. *)
Lemma create_detailed_map_raises (city_name : string)
    (boundary : list point) (h : history) :
  (forall h0 ev, outcome env h0 ev = None) ->
  boundary <> [] ->
  exists l,
    create_detailed_map env repr_float city_name boundary h
      = (Raise TypeError, h ++ l) /\
    Forall (fun x : entry => is_fatal (fst x) = false) l.
Proof.
  intros Hq Hb. unfold create_detailed_map, zoom_levels.
  cbn [for_eachM]. unfold bind at 1. unfold bind at 1. unfold emit at 1.
  unfold bind at 1.
  match goal with
  | |- context [__init__ env ?c ?b ?z ?hh] =>
      destruct (__init__ env c b z hh) as [[bot | e] h1] eqn:E
  end.
  - pose proof (__init___returns env _ _ _ _ _ _ E) as Eb.
    assert (H1 : exists l1, h1 = h ++ l1 /\
                 Forall (fun x : entry => is_fatal (fst x) = false) l1).
    { revert E. unfold __init__, bind, call, exists_path, ret.
      rewrite !Hq.
      match goal with
      | |- context [path_exists env ?hh ?p] => destruct (path_exists env hh p)
      end; cbn [negb]; rewrite ?Hq; intros [= _ <-];
        rewrite <- !app_assoc; eexists; (split; [reflexivity |]);
        repeat constructor. }
    destruct H1 as (l1 & -> & F1).
    rewrite scan_city_low_zoom by (subst bot; cbn; first [exact Hb | lia]).
    rewrite Hq. exists (l1 ++ [(EvQuit, None)]).
    rewrite <- app_assoc. split; [reflexivity |].
    apply Forall_app. split; [exact F1 | repeat constructor].
  - exfalso. revert E. unfold __init__, bind, call, exists_path, ret.
    rewrite !Hq.
    match goal with
    | |- context [path_exists env ?hh ?p] => destruct (path_exists env hh p)
    end; cbn [negb]; rewrite ?Hq; discriminate.
Qed.

End LowZoom.

(* ================================================================== *)
(** * Concrete runs *)

(** The square scanned at zoom 18 with base grid size 4, nothing failing:
    the run completes, and the statement of C1 holds of it. *)
Lemma scan_city_progress_reports_square :
  let self := mk_bot "sq" square 18 "screenshots_sq_zoom18" in
  let h' := snd (scan_city quiet_env repr_fraction self 4 []) in
  scan_city quiet_env repr_fraction self 4 [] = (Return tt, h') /\
  exists axes l,
    generate_grid self 4 = Return axes /\
    h' = [] ++ l /\
    let cands := grid_points axes in
    let total :=
      (Z.of_nat (List.length (fst axes)) *
       Z.of_nat (List.length (snd axes)))%Z in
    let captured := inside_count self cands in
    total = Z.of_nat (List.length cands) /\
    marks l = expected_marks total 0 captured /\
    forall percent processed total',
      last (marks l) Captured = Reported percent processed total' ->
      processed = Z.of_nat captured /\
      total' = total /\
      percent = inject_Z (Z.of_nat captured) / inject_Z total * 100 /\
      (percent == 100 <-> captured = List.length cands).
Proof.
  intros self h'.
  assert (H : scan_city quiet_env repr_fraction self 4 [] = (Return tt, h'))
    by (vm_compute; reflexivity).
  split; [exact H |].
  exact (scan_city_progress_reports quiet_env repr_fraction self 4 [] h' H).
Defined.

(** C1, as the claim words it, fails: the same run completes with sixteen
    candidates of which nine are captured, and its last progress report
    shows 9/16, that is 56.25 percent, not 100. *)
Lemma scan_city_progress_ends_below_100 :
  exists h' percent,
    scan_city quiet_env repr_fraction
      (mk_bot "sq" square 18 "screenshots_sq_zoom18") 4 []
      = (Return tt, h') /\
    last (marks h') Captured = Reported percent 9 16 /\
    percent == 225 # 4 /\
    ~ percent == 100.
Proof.
  eexists. eexists.
  split; [vm_compute; reflexivity |].
  split; [vm_compute; reflexivity |].
  split; [reflexivity |].
  intros H. vm_compute in H. discriminate.
Qed.

(** C5, as the claim words it, fails: with a load wait that raises
    [NoSuchWindowException], which is not a timeout, the exception is
    caught like a timeout, the point is captured and the scan returns. *)
Lemma scan_city_swallows_non_timeout :
  exists l,
    scan_city broken_wait_env repr_fraction
      (mk_bot "sq" square 18 "screenshots_sq_zoom18") 2 []
      = (Return tt, l) /\
    In (EvWaitUntil 10 "gm-style", Some (External "NoSuchWindowException")) l /\
    External "NoSuchWindowException" <> TimeoutException /\
    In (EvPrint (MapLoadingTimeout 2 2), None) l /\
    marks l = [Captured; Reported (1 / 4 * 100) 1 4].
Proof.
  eexists.
  split; [vm_compute; reflexivity |].
  split; [cbn; tauto |].
  split; [discriminate |].
  split; [cbn; tauto | reflexivity].
Qed.

(** The statement of C5 at that run: only load waits fail there, and the
    scan returns with its one in-boundary candidate captured. *)
Lemma scan_city_failures_broken_wait :
  let self := mk_bot "sq" square 18 "screenshots_sq_zoom18" in
  (forall h0 ev, is_wait ev = false -> outcome broken_wait_env h0 ev = None) /\
  generate_grid self 2 = Return ([0 * 2 + 0; 2], [0 * 2 + 0; 2]) /\
  exists l,
    scan_city broken_wait_env repr_fraction self 2 [] = (Return tt, [] ++ l) /\
    marks l =
    expected_marks (2 * 2) 0
      (inside_count self
         (grid_points ([0 * 2 + 0; 2], [0 * 2 + 0; 2]))).
Proof.
  intros self.
  assert (H : forall h0 ev, is_wait ev = false ->
                            outcome broken_wait_env h0 ev = None).
  { intros h0 ev E. cbn. now rewrite E. }
  assert (G : generate_grid self 2 = Return ([0 * 2 + 0; 2], [0 * 2 + 0; 2]))
    by reflexivity.
  split; [exact H |]. split; [exact G |].
  exact (proj1 (proj2 (scan_city_failures broken_wait_env repr_fraction
                         self 2 []))
           H _ G).
Defined.

(** The statement of C10 for a bot built with [zoom_level=25]: the stored
    zoom level is 21, the directory is [screenshots_sq_zoom25]. *)
Lemma zoom_level_clamped_zoom25 :
  let bot := mk_bot "sq" square 21 "screenshots_sq_zoom25" in
  (25 < 0 \/ 21 < 25)%Z /\
  __init__ quiet_env "sq" square 25 []
    = (Return bot,
       [(EvChrome, None); (EvMakedirs "screenshots_sq_zoom25", None)]) /\
  zoom_level bot = Z.min 21 (Z.max 0 25) /\
  (0 <= zoom_level bot <= 21)%Z /\
  screenshot_path bot = ("screenshots_" ++ "sq" ++ "_zoom" ++ str_int 25)%string /\
  (forall grid_size h2, exists r l,
     scan_city quiet_env repr_fraction bot grid_size h2 = (r, h2 ++ l) /\
     Forall
       (fun x : entry =>
          match fst x with
          | EvGet url =>
              exists lat lon,
                url = ("https://www.google.com/maps/@" ++ repr_fraction lat ++
                       "," ++ repr_fraction lon ++ "," ++
                       str_int (zoom_level bot) ++ "z")%string
          | EvSave filename =>
              exists lat lon timestamp,
                filename =
                (("screenshots_" ++ "sq" ++ "_zoom" ++ str_int 25) ++
                 "/" ++ "sq" ++ "_" ++ repr_fraction lat ++ "_" ++
                 repr_fraction lon ++ "_z" ++ str_int (zoom_level bot) ++
                 "_" ++ timestamp ++ ".png")%string
          | _ => True
          end) l) /\
  str_int 25 <> str_int (zoom_level bot).
Proof.
  intros bot.
  assert (Hz : (25 < 0 \/ 21 < 25)%Z) by (right; lia).
  assert (Hi : __init__ quiet_env "sq" square 25 []
               = (Return bot,
                  [(EvChrome, None);
                   (EvMakedirs "screenshots_sq_zoom25", None)]))
    by reflexivity.
  split; [exact Hz |]. split; [exact Hi |].
  exact (zoom_level_clamped_but_not_in_directory quiet_env repr_fraction
           "sq" square 25 [] _ bot Hz Hi).
Defined.

(** One pass of the loop body for that bot: the URL ends in [21z] and the
    file is saved under [screenshots_sq_zoom25/] with [_z21_] in its
    name. *)
Example capture_point_zoom25 :
  capture_point quiet_env repr_fraction
    (mk_bot "sq" square 21 "screenshots_sq_zoom25") 64 (2, 2) 0 []
  = (Return 1%Z,
     [(EvGet "https://www.google.com/maps/@2/1,2/1,21z", None);
      (EvSleep 2, None);
      (EvWaitUntil 10 "gm-style", None);
      (EvScreenshot, None);
      (EvSave "screenshots_sq_zoom25/sq_2/1_2/1_z21_20240101-000000.png",
       None);
      (EvPrint (ProgressReport (1 / 64 * 100) 1 64), None);
      (EvSleep 1, None)]).
Proof.
  vm_compute. reflexivity.
Qed.

(** An empty boundary: line 104 raises [ValueError], and the browser is
    still released. *)
Example scan_city_empty_boundary :
  scan_city quiet_env repr_fraction
    (mk_bot "nowhere" [] 18 "screenshots_nowhere_zoom18") 10 []
  = (Raise ValueError, [(EvQuit, None)]).
Proof.
  reflexivity.
Qed.

(** A capture that raises: the scan stops at the first in-boundary point,
    releases the browser and raises. *)
Example scan_city_screenshot_raises :
  scan_city
    (mk_env (fun _ ev => match ev with
                         | EvScreenshot => Some (External "OSError")
                         | _ => None
                         end)
            (fun _ _ => false) (fun _ => "20240101-000000"%string))
    repr_fraction (mk_bot "sq" square 18 "screenshots_sq_zoom18") 2 []
  = (Raise (External "OSError"),
     [(EvGet "https://www.google.com/maps/@2/1,2/1,18z", None);
      (EvSleep 2, None);
      (EvWaitUntil 10 "gm-style", None);
      (EvScreenshot, Some (External "OSError"));
      (EvQuit, None)]).
Proof.
  vm_compute. reflexivity.
Qed.

(* ================================================================== *)
(** * Further properties of the containment test *)

Lemma bool_eq_iff (a b : bool) : (a = true <-> b = true) -> a = b.
Proof.
  destruct a, b; intros [H1 H2]; try reflexivity.
  - symmetry. now apply H1.
  - now apply H2.
Qed.

Lemma point_in_polygon_no_toggle (x y : Q) (polygon : list point) :
  polygon <> [] ->
  (forall p1 p2, In p1 polygon -> In p2 polygon ->
                 edge_toggles x y (p1, p2) = false) ->
  point_in_polygon (x, y) polygon = Return false.
Proof.
  intros N H. rewrite point_in_polygon_parity.
  destruct polygon as [| p0 l] eqn:Ep; [contradiction |].
  rewrite parity_all_false; [reflexivity |].
  intros b Hb. apply in_map_iff in Hb. destruct Hb as ([p1 p2] & <- & He).
  apply visited_edges_in in He. destruct He as [H1 H2]. now apply H.
Qed.

Lemma Qmin_cases (a b : Q) : Qmin a b = a \/ Qmin a b = b.
Proof.
  unfold Qmin, GenericMinMax.gmin. destruct (a ?= b); auto.
Qed.

Lemma Qmax_cases (a b : Q) : Qmax a b = a \/ Qmax a b = b.
Proof.
  unfold Qmax, GenericMinMax.gmax. destruct (a ?= b); auto.
Qed.

Lemma fold_left_Qmin_in (l : list Q) (a : Q) : In (fold_left Qmin l a) (a :: l).
Proof.
  revert a. induction l as [| b l IH]; intros a; [now left |].
  cbn [fold_left]. destruct (IH (Qmin a b)) as [H | H].
  - rewrite <- H. destruct (Qmin_cases a b) as [-> | ->];
      [now left | right; now left].
  - right. now right.
Qed.

Lemma fold_left_Qmax_in (l : list Q) (a : Q) : In (fold_left Qmax l a) (a :: l).
Proof.
  revert a. induction l as [| b l IH]; intros a; [now left |].
  cbn [fold_left]. destruct (IH (Qmax a b)) as [H | H].
  - rewrite <- H. destruct (Qmax_cases a b) as [-> | ->];
      [now left | right; now left].
  - right. now right.
Qed.

Lemma fold_left_Qmax_ge (l : list Q) (a : Q) :
  a <= fold_left Qmax l a /\ forall x, In x l -> x <= fold_left Qmax l a.
Proof.
  revert a. induction l as [| b l IH]; intros a.
  - split; [apply Qle_refl | intros x []].
  - cbn [fold_left]. destruct (IH (Qmax a b)) as [H1 H2]. split.
    + eapply Qle_trans; [apply Q.le_max_l | exact H1].
    + intros x [<- | Hx]; [| now apply H2].
      eapply Qle_trans; [apply Q.le_max_r | exact H1].
Qed.

Lemma py_max_upper_bound (l : list Q) (m : Q) :
  py_max l = Return m -> forall x, In x l -> x <= m.
Proof.
  destruct l as [| a l]; [discriminate |].
  cbn. intros H. injection H as <-.
  destruct (fold_left_Qmax_ge l a) as [H1 H2].
  intros x [<- | Hx]; [exact H1 | now apply H2].
Qed.

Lemma py_min_in (l : list Q) (m : Q) : py_min l = Return m -> In m l.
Proof.
  destruct l as [| a l]; [discriminate |].
  cbn. intros H. injection H as <-. apply fold_left_Qmin_in.
Qed.

Lemma py_max_in (l : list Q) (m : Q) : py_max l = Return m -> In m l.
Proof.
  destruct l as [| a l]; [discriminate |].
  cbn. intros H. injection H as <-. apply fold_left_Qmax_in.
Qed.

(** What a bounding box that was computed says about the vertices. *)
Lemma bounding_box_bounds (self : MapsScreenshotBot) (a b c d : Q) :
  bounding_box self = Return (a, b, c, d) ->
  boundary_coords self <> [] /\
  (forall p, In p (boundary_coords self) ->
     a <= fst p /\ fst p <= b /\ c <= snd p /\ snd p <= d) /\
  In a (map fst (boundary_coords self)) /\
  In b (map fst (boundary_coords self)) /\
  In c (map snd (boundary_coords self)) /\
  In d (map snd (boundary_coords self)).
Proof.
  unfold bounding_box.
  destruct (py_min (map fst (boundary_coords self))) as [a' | e] eqn:Ea;
    [| discriminate].
  destruct (py_max (map fst (boundary_coords self))) as [b' | e] eqn:Eb;
    [| discriminate].
  destruct (py_min (map snd (boundary_coords self))) as [c' | e] eqn:Ec;
    [| discriminate].
  destruct (py_max (map snd (boundary_coords self))) as [d' | e] eqn:Ed;
    [| discriminate].
  cbn [rbind]. intros H. injection H as -> -> -> ->.
  split.
  { intros N. rewrite N in Ea. discriminate. }
  split.
  { intros p Hp. repeat split.
    - apply (py_min_lower_bound _ _ Ea). now apply in_map.
    - apply (py_max_upper_bound _ _ Eb). now apply in_map.
    - apply (py_min_lower_bound _ _ Ec). now apply in_map.
    - apply (py_max_upper_bound _ _ Ed). now apply in_map. }
  repeat split; [eapply py_min_in | eapply py_max_in
                 | eapply py_min_in | eapply py_max_in]; eassumption.
Qed.

(** X1.  The bounding box of lines 104-107 is exact: it is computed for
    every non-empty boundary, every vertex lies within it and each of its
    four bounds is the coordinate of some vertex; for the empty boundary
    the computation raises [ValueError], and nothing else makes it raise. *)
Theorem bounding_box_exact (self : MapsScreenshotBot) :
  match bounding_box self with
  | Return (lat_min, lat_max, lon_min, lon_max) =>
      boundary_coords self <> [] /\
      (forall p, In p (boundary_coords self) ->
         lat_min <= fst p /\ fst p <= lat_max /\
         lon_min <= snd p /\ snd p <= lon_max) /\
      In lat_min (map fst (boundary_coords self)) /\
      In lat_max (map fst (boundary_coords self)) /\
      In lon_min (map snd (boundary_coords self)) /\
      In lon_max (map snd (boundary_coords self))
  | Raise e => e = ValueError /\ boundary_coords self = []
  end.
Proof.
  destruct (bounding_box self) as [[[[a b] c] d] | e] eqn:E.
  - now apply bounding_box_bounds.
  - unfold bounding_box in E.
    destruct (boundary_coords self) as [| p l]; [| discriminate].
    cbn in E. injection E as <-. now split.
Qed.

(** A point right of every vertex passes the guard of line 57 at no
    edge, and a point above every vertex is level with no edge. *)
Lemma point_in_polygon_beyond_max (x y : Q) (polygon : list point) :
  polygon <> [] ->
  (forall p, In p polygon -> fst p < x) \/
  (forall p, In p polygon -> snd p < y) ->
  point_in_polygon (x, y) polygon = Return false.
Proof.
  intros N H. apply point_in_polygon_no_toggle; [exact N |].
  intros p1 p2 H1 H2. unfold edge_toggles.
  destruct H as [H | H].
  - replace (Qle_bool x (Qmax (fst p1) (fst p2))) with false;
      [now rewrite andb_false_r |].
    symmetry. apply not_true_is_false. intros L. apply Qle_bool_iff in L.
    pose proof (H p1 H1). pose proof (H p2 H2).
    destruct (Q.max_spec (fst p1) (fst p2)) as [[? HX] | [? HX]];
      rewrite HX in L; lra.
  - replace (crossing_candidate y p1 p2) with false; [reflexivity |].
    symmetry. apply not_true_is_false. intros C.
    apply crossing_candidate_iff in C. destruct C as [_ C].
    pose proof (H p1 H1). pose proof (H p2 H2).
    destruct (Q.max_spec (snd p1) (snd p2)) as [[? HX] | [? HX]];
      rewrite HX in C; lra.
Qed.

(** X2.  The containment test accepts no point beyond the high sides of
    the bounding box, nor on or below its low longitude side: a point
    classified inside has [lat <= lat_max] and [lon_min < lon <= lon_max].
    These three bounds rest on the comparisons of lines 55-57 alone.  The
    low latitude side is decided by the intercept of line 59 and is no such
    bound. *)
Theorem is_within_boundary_inside_box
    (self : MapsScreenshotBot) (x y lat_min lat_max lon_min lon_max : Q) :
  bounding_box self = Return (lat_min, lat_max, lon_min, lon_max) ->
  is_within_boundary self (x, y) = Return true ->
  x <= lat_max /\ lon_min < y /\ y <= lon_max.
Proof.
  intros B W. apply bounding_box_bounds in B.
  destruct B as (N & Hb & _). unfold is_within_boundary in W.
  assert (F : point_in_polygon (x, y) (boundary_coords self) <> Return false)
    by (rewrite W; discriminate).
  split; [| split].
  - destruct (Qlt_le_dec lat_max x) as [L | L]; [| exact L].
    exfalso. apply F. apply point_in_polygon_beyond_max; [exact N |].
    left. intros p Hp. destruct (Hb p Hp) as (_ & A & _). lra.
  - destruct (Qlt_le_dec lon_min y) as [L | L]; [exact L |].
    exfalso. revert W. apply point_in_polygon_at_min_y.
    intros p Hp. destruct (Hb p Hp) as (_ & _ & A & _). lra.
  - destruct (Qlt_le_dec lon_max y) as [L | L]; [| exact L].
    exfalso. apply F. apply point_in_polygon_beyond_max; [exact N |].
    right. intros p Hp. destruct (Hb p Hp) as (_ & _ & _ & A). lra.
Qed.

(** The boundary [(0.4, 0.7), (0.1, 1.0)] has the box
    [0.1, 0.4] x [0.7, 1.0]; the test accepts the point
    (0.09999999999999999, 1.0), one double left of the box: line 59
    computes an intercept left of the vertex (0.1, 1.0). *)
Lemma is_within_boundary_inside_box_left :
  let lat_min := double (1 # 10) in
  let lat_max := double (4 # 10) in
  let lon_min := double (7 # 10) in
  let x := lat_min - (1 # 2 ^ 56) in
  let self := mk_bot "seg" [(lat_max, lon_min); (lat_min, 1)] 18
                     "screenshots_seg_zoom18" in
  bounding_box self = Return (lat_min, lat_max, lon_min, 1) /\
  is_within_boundary self (x, 1) = Return true /\
  x == double (x) /\
  x < lat_min /\
  (x <= lat_max /\ lon_min < 1 /\ 1 <= 1).
Proof.
  intros lat_min lat_max lon_min x self.
  assert (B : bounding_box self = Return (lat_min, lat_max, lon_min, 1))
    by (vm_compute; reflexivity).
  assert (W : is_within_boundary self (x, 1) = Return true)
    by (vm_compute; reflexivity).
  split; [exact B |]. split; [exact W |].
  split; [vm_compute; reflexivity |].
  split; [vm_compute; reflexivity |].
  exact (is_within_boundary_inside_box self x 1 lat_min lat_max lon_min 1
           B W).
Defined.

(** X3.  Repeating the first vertex at the end of the vertex list, as all
    the boundaries written in the file do, changes nothing: the loop
    closes the polygon by itself, and the extra edge from the first vertex
    to itself never flips the flag. *)
Theorem point_in_polygon_closing_vertex
    (pt p0 : point) (l : list point) :
  point_in_polygon pt ((p0 :: l) ++ [p0]) = point_in_polygon pt (p0 :: l).
Proof.
  destruct pt as [x y]. rewrite !point_in_polygon_parity.
  cbn [app]. f_equal. unfold visited_edges.
  replace (p0 :: (p0 :: l ++ [p0]) ++ [p0])
    with ((p0 :: p0 :: l) ++ [p0; p0])
    by (cbn; now rewrite <- app_assoc).
  rewrite consec_snoc, map_app, parity_app.
  cbn [map parity fold_right]. rewrite edge_toggles_degenerate.
  cbn [xorb]. now rewrite xorb_false_r.
Qed.

(** X4.  The containment test depends on the direction in which the
    boundary is listed.  Line 59 computes the intercept of an edge from its
    first end, and the two directions round differently: for the triangle
    [(0.7, 0.5), (0.0, 0.1), (0.1, 0.7)] the point (0.4, 0.6) is classified
    inside, and for the same triangle listed in reverse it is classified
    outside.  On the edge between (0.7, 0.5) and (0.1, 0.7) the intercept
    computed from (0.1, 0.7) is 0.4 and the one computed from (0.7, 0.5)
    is 0.39999999999999997. *)
Theorem point_in_polygon_direction_sensitive :
  let pt := (double (4 # 10), double (6 # 10)) in
  let a := (double (7 # 10), double (5 # 10)) in
  let b := (0, double (1 # 10)) in
  let c := (double (1 # 10), double (7 # 10)) in
  point_in_polygon pt [a; b; c] = Return true /\
  point_in_polygon pt (rev [a; b; c]) = Return false /\
  float_value (x_intercept (snd pt) c a) == fst pt /\
  float_value (x_intercept (snd pt) a c) < fst pt /\
  edge_toggles (fst pt) (snd pt) (c, a) = true /\
  edge_toggles (fst pt) (snd pt) (a, c) = false.
Proof.
  cbv zeta. repeat split; vm_compute; reflexivity.
Qed.

(* ================================================================== *)
(** * Further properties of the grid *)

(** What a grid that was generated was made from. *)
Lemma generate_grid_returns_inv (self : MapsScreenshotBot) (grid_size : Z)
    (lat_steps lon_steps : list Q) :
  generate_grid self grid_size = Return (lat_steps, lon_steps) ->
  exists a b c d n,
    bounding_box self = Return (a, b, c, d) /\
    actual_grid_size self grid_size = PyInt n /\
    (0 <= n)%Z /\
    lat_steps = linspace_samples a b (Z.to_nat n) /\
    lon_steps = linspace_samples c d (Z.to_nat n).
Proof.
  unfold generate_grid.
  destruct (bounding_box self) as [[[[a b] c] d] | e]; [| discriminate].
  cbn [rbind]. unfold grid_axes.
  destruct (calculate_grid_step self) as [s1 s2]. unfold linspace.
  destruct (actual_grid_size self grid_size) as [n | q]; [| discriminate].
  destruct (n <? 0)%Z eqn:En; [discriminate |]. cbn [rbind].
  intros H. injection H as <- <-. apply Z.ltb_ge in En.
  exists a, b, c, d, n. repeat split. exact En.
Qed.

Lemma inject_Z_of_nat_le (i j : nat) :
  (i <= j)%nat -> inject_Z (Z.of_nat i) <= inject_Z (Z.of_nat j).
Proof.
  intros H. rewrite <- Zle_Qle. lia.
Qed.

(** The samples of an interval stay inside it and ascend. *)
Lemma linspace_samples_range (a b : Q) (n : nat) :
  a <= b ->
  (forall s, In s (linspace_samples a b n) -> a <= s /\ s <= b) /\
  (forall i j, (i <= j)%nat -> (j < n)%nat ->
     nth i (linspace_samples a b n) 0 <= nth j (linspace_samples a b n) 0).
Proof.
  intros Hab.
  destruct (linspace_samples_spec a b n) as (L & F & E & _).
  destruct (Nat.le_gt_cases n 1) as [Hn | Hn].
  - split.
    + intros s Hs. destruct (In_nth _ _ 0 Hs) as (i & Hi & <-).
      rewrite L in Hi. replace i with 0%nat by lia.
      rewrite F by lia. lra.
    + intros i j Hij Hj. replace i with 0%nat by lia.
      replace j with 0%nat by lia. apply Qle_refl.
  - specialize (E Hn).
    set (t := (b - a) / inject_Z (Z.of_nat (n - 1))) in *.
    assert (HN : 0 < inject_Z (Z.of_nat (n - 1))).
    { change 0 with (inject_Z 0). rewrite <- Zlt_Qlt. lia. }
    assert (Ht : t * inject_Z (Z.of_nat (n - 1)) == b - a).
    { subst t. field. lra. }
    assert (T0 : 0 <= t).
    { destruct (Qlt_le_dec t 0) as [Lt | Le]; [| exact Le]. nra. }
    split.
    + intros s Hs. destruct (In_nth _ _ 0 Hs) as (i & Hi & <-).
      rewrite L in Hi. rewrite (E i Hi).
      pose proof (inject_Z_of_nat_le 0 i ltac:(lia)) as I0.
      pose proof (inject_Z_of_nat_le i (n - 1) ltac:(lia)) as I1.
      change (inject_Z (Z.of_nat 0)) with 0 in I0.
      split; nra.
    + intros i j Hij Hj. rewrite (E i), (E j) by lia.
      pose proof (inject_Z_of_nat_le i j Hij) as I. nra.
Qed.

(** X5.  Every latitude and longitude value of the grid lies within the
    bounding box, so every candidate point does, and each axis is listed
    in ascending order. *)
Theorem generate_grid_within_box
    (self : MapsScreenshotBot) (grid_size : Z)
    (lat_steps lon_steps : list Q) (lat_min lat_max lon_min lon_max : Q) :
  generate_grid self grid_size = Return (lat_steps, lon_steps) ->
  bounding_box self = Return (lat_min, lat_max, lon_min, lon_max) ->
  (forall pt, In pt (grid_points (lat_steps, lon_steps)) ->
     lat_min <= fst pt /\ fst pt <= lat_max /\
     lon_min <= snd pt /\ snd pt <= lon_max) /\
  (forall i j, (i <= j)%nat -> (j < List.length lat_steps)%nat ->
     nth i lat_steps 0 <= nth j lat_steps 0) /\
  (forall i j, (i <= j)%nat -> (j < List.length lon_steps)%nat ->
     nth i lon_steps 0 <= nth j lon_steps 0).
Proof.
  intros G B.
  destruct (generate_grid_returns_inv _ _ _ _ G)
    as (a & b & c & d & n & B' & _ & _ & -> & ->).
  rewrite B in B'. injection B' as <- <- <- <-.
  destruct (bounding_box_bounds _ _ _ _ _ B) as (N & Hb & _).
  destruct (boundary_coords self) as [| p0 l] eqn:Ep; [contradiction |].
  destruct (Hb p0 (or_introl eq_refl)) as (A1 & A2 & A3 & A4).
  assert (Hab : lat_min <= lat_max) by lra.
  assert (Hcd : lon_min <= lon_max) by lra.
  destruct (linspace_samples_range lat_min lat_max (Z.to_nat n) Hab)
    as [R1 S1].
  destruct (linspace_samples_range lon_min lon_max (Z.to_nat n) Hcd)
    as [R2 S2].
  destruct (linspace_samples_spec lat_min lat_max (Z.to_nat n)) as (L1 & _).
  destruct (linspace_samples_spec lon_min lon_max (Z.to_nat n)) as (L2 & _).
  split; [| split].
  - intros [lat lon] Hpt. unfold grid_points in Hpt. cbn [fst snd] in *.
    apply in_prod_iff in Hpt. destruct Hpt as [H1 H2].
    destruct (R1 lat H1), (R2 lon H2). repeat split; assumption.
  - intros i j Hij Hj. rewrite L1 in Hj. now apply S1.
  - intros i j Hij Hj. rewrite L2 in Hj. now apply S2.
Qed.

(** The square at zoom 18 with base grid size 4. *)
Lemma generate_grid_within_box_square :
  let self := mk_bot "sq" square 18 "screenshots_sq_zoom18" in
  let lat_steps := linspace_samples 0 2 4 in
  let lon_steps := linspace_samples 0 2 4 in
  generate_grid self 4 = Return (lat_steps, lon_steps) /\
  bounding_box self = Return (0, 2, 0, 2) /\
  (forall pt, In pt (grid_points (lat_steps, lon_steps)) ->
     0 <= fst pt /\ fst pt <= 2 /\ 0 <= snd pt /\ snd pt <= 2) /\
  (forall i j, (i <= j)%nat -> (j < List.length lat_steps)%nat ->
     nth i lat_steps 0 <= nth j lat_steps 0) /\
  (forall i j, (i <= j)%nat -> (j < List.length lon_steps)%nat ->
     nth i lon_steps 0 <= nth j lon_steps 0).
Proof.
  intros self lat_steps lon_steps.
  assert (G : generate_grid self 4 = Return (lat_steps, lon_steps))
    by reflexivity.
  assert (B : bounding_box self = Return (0, 2, 0, 2)) by reflexivity.
  split; [exact G |]. split; [exact B |].
  exact (generate_grid_within_box self 4 lat_steps lon_steps 0 2 0 2 G B).
Defined.

Lemma pow2_pos (k : Z) : (0 <= k)%Z -> (0 < 2 ^ k)%Z.
Proof. intros H. apply Z.pow_pos_nonneg; lia. Qed.

(** X6.  The grid cannot be generated in exactly three cases: the boundary
    is empty ([ValueError] from [min]); the stored zoom level is below 18
    ([TypeError] from [np.linspace], the size being a float); or the zoom
    level is at least 18 and the base grid size is negative ([ValueError]
    from [np.linspace]). *)
Theorem generate_grid_raises_iff
    (self : MapsScreenshotBot) (grid_size : Z) (e : exn) :
  generate_grid self grid_size = Raise e <->
  (boundary_coords self = [] /\ e = ValueError) \/
  (boundary_coords self <> [] /\ (zoom_level self < 18)%Z /\ e = TypeError) \/
  (boundary_coords self <> [] /\ (18 <= zoom_level self)%Z /\
   (grid_size < 0)%Z /\ e = ValueError).
Proof.
  destruct (boundary_coords self) as [| p0 l] eqn:Ep.
  - unfold generate_grid, bounding_box. rewrite Ep. cbn. split.
    + intros H. injection H as <-. left. now split.
    + intros [[_ ->] | [(N & _) | (N & _)]];
        [reflexivity | now destruct N | now destruct N].
  - assert (N : boundary_coords self <> []) by (rewrite Ep; discriminate).
    rewrite <- Ep in *. clear Ep.
    destruct (Z.lt_ge_cases (zoom_level self) 18) as [Hz | Hz].
    + rewrite (generate_grid_low_zoom self grid_size N Hz). split.
      * intros H. injection H as <-. right. left. repeat split; assumption.
      * intros [[E _] | [(_ & _ & ->) | (_ & Hz' & _)]];
          [contradiction | reflexivity | lia].
    + destruct (bounding_box_nonempty self N) as (a & b & c & d & B).
      unfold generate_grid, grid_axes. rewrite B. cbn [rbind].
      destruct (calculate_grid_step self) as [s1 s2].
      rewrite (actual_grid_size_int self grid_size Hz). unfold linspace.
      pose proof (pow2_pos (zoom_level self - 18) ltac:(lia)) as P2.
      destruct (grid_size * 2 ^ (zoom_level self - 18) <? 0)%Z eqn:En.
      * apply Z.ltb_lt in En. cbn [rbind]. split.
        -- intros H. injection H as <-. right. right.
           repeat split; try assumption. nia.
        -- intros [[E _] | [(_ & Hz' & _) | (_ & _ & _ & ->)]];
             [contradiction | lia | reflexivity].
      * apply Z.ltb_ge in En. cbn [rbind]. split; [discriminate |].
        intros [[E _] | [(_ & Hz' & _) | (_ & _ & Hg & _)]];
          [contradiction | lia | nia].
Qed.

(* ================================================================== *)
(** * Runs of the loops, point by point *)

Section Runs.

Variable env : environment.
Variable repr_float : Q -> string.

(** The loop body does what [point_run] lists, and nothing else. *)
Lemma capture_point_run (self : MapsScreenshotBot) (total : Z) (pt : point)
    (p : Z) (h : history) (r : result Z) (h' : history) :
  is_within_boundary self pt = Return true ->
  capture_point env repr_float self total pt p h = (r, h') ->
  exists l, h' = h ++ l /\ point_run repr_float self total pt p r l.
Proof.
  destruct pt as [lat lon]. intros W. unfold capture_point.
  unfold bind at 1. unfold lift at 1. rewrite W.
  unfold navigate_to_position, bind, call, emit, try_except, now, lift,
    ret, py_div.
  intros H.
  repeat match type of H with
         | context [outcome env ?hh ?ev] => destruct (outcome env hh ev)
         end;
  destruct (Qeq_bool (inject_Z total) 0) eqn:T;
  injection H as <- <-;
  (eexists; split; [rewrite <- ?app_assoc; cbn [app]; reflexivity |]);
  first [ apply (run_get_raises repr_float self total (lat, lon) p)
        | eapply (run_screenshot_raises repr_float self total (lat, lon) p
                    None)
        | eapply (run_screenshot_raises repr_float self total (lat, lon) p
                    (Some _))
        | eapply (run_save_raises repr_float self total (lat, lon) p None)
        | eapply (run_save_raises repr_float self total (lat, lon) p
                    (Some _))
        | eapply (run_no_total repr_float self total (lat, lon) p None);
          exact T
        | eapply (run_no_total repr_float self total (lat, lon) p (Some _));
          exact T
        | eapply (run_captured repr_float self total (lat, lon) p None);
          exact T
        | eapply (run_captured repr_float self total (lat, lon) p (Some _));
          exact T ].
Qed.

Lemma capture_point_not_inside (self : MapsScreenshotBot) (total : Z)
    (pt : point) (p : Z) (h : history) :
  (is_within_boundary self pt = Return false ->
   capture_point env repr_float self total pt p h = (Return p, h)) /\
  (forall e, is_within_boundary self pt = Raise e ->
   capture_point env repr_float self total pt p h = (Raise e, h)).
Proof.
  destruct pt as [lat lon]. unfold capture_point, bind, lift.
  split; [intros -> | intros e ->]; reflexivity.
Qed.

(** The loops do what [loop_run] lists. *)
Lemma for_eachM_loop_run (self : MapsScreenshotBot) (total : Z)
    (cands : list point) (p : Z) (h : history) (r : result Z)
    (h' : history) :
  for_eachM cands (capture_point env repr_float self total) p h = (r, h') ->
  exists l, h' = h ++ l /\ loop_run repr_float self total cands p r l.
Proof.
  revert p h. induction cands as [| pt cands IH]; intros p h.
  - cbn. intros H. injection H as <- <-. exists [].
    rewrite app_nil_r. split; [reflexivity | constructor].
  - cbn [for_eachM]. unfold bind.
    destruct (is_within_boundary self pt) as [[|] | e] eqn:W.
    + destruct (capture_point env repr_float self total pt p h)
        as [[p1 | e] h1] eqn:E;
        destruct (capture_point_run _ _ _ _ _ _ _ W E) as (l1 & -> & R1).
      * intros H. destruct (IH _ _ H) as (l2 & -> & R2).
        exists (l1 ++ l2). rewrite app_assoc. split; [reflexivity |].
        eapply loop_next; eassumption.
      * intros H. injection H as <- <-. exists l1.
        split; [reflexivity |]. now apply loop_stop.
    + rewrite (proj1 (capture_point_not_inside self total pt p h) W).
      intros H. destruct (IH _ _ H) as (l & -> & R).
      exists l. split; [reflexivity |]. now apply loop_skip.
    + rewrite (proj2 (capture_point_not_inside self total pt p h) e W).
      intros H. injection H as <- <-. exists [].
      rewrite app_nil_r. split; [reflexivity |]. now apply loop_test_raises.
Qed.

(** The [try] block either fails to generate the grid, having done
    nothing, or runs the loops over the candidates. *)
Lemma scan_try_block_run (self : MapsScreenshotBot) (grid_size : Z)
    (h : history) :
  exists rb l,
    scan_try_block env repr_float self grid_size h = (rb, h ++ l) /\
    ((exists e, generate_grid self grid_size = Raise e /\
                rb = Raise e /\ l = []) \/
     (exists axes r,
        generate_grid self grid_size = Return axes /\
        loop_run repr_float self
          (Z.of_nat (List.length (grid_points axes)))
          (grid_points axes) 0 r l /\
        rb = match r with Return _ => Return tt | Raise e => Raise e end)).
Proof.
  destruct (generate_grid self grid_size) as [axes | e] eqn:G.
  - unfold scan_try_block, scan_from_steps. unfold generate_grid in G.
    unfold bind at 1. unfold lift at 1.
    destruct (bounding_box self) as [box | e]; [| discriminate].
    cbn [rbind] in G. unfold bind at 1. unfold lift at 1. rewrite G.
    unfold bind, scan_loops. destruct axes as [lats lons].
    rewrite nested_loops_flat.
    replace (Z.of_nat (List.length lats) * Z.of_nat (List.length lons))%Z
      with (Z.of_nat (List.length (grid_points (lats, lons))))
      by (unfold grid_points, point; cbn [fst snd];
          rewrite length_prod; lia).
    match goal with
    | |- context [for_eachM ?c ?b ?s h] =>
        destruct (for_eachM c b s h) as [r h1] eqn:E
    end.
    destruct (for_eachM_loop_run _ _ _ _ _ _ _ E) as (l & -> & R).
    exists (match r with Return _ => Return tt | Raise e => Raise e end), l.
    split; [destruct r; reflexivity |].
    right. exists (lats, lons), r. repeat split. exact R.
  - exists (Raise e), []. rewrite app_nil_r.
    split; [| left; exists e; repeat split].
    unfold scan_try_block, scan_from_steps, bind, lift.
    unfold generate_grid in G.
    destruct (bounding_box self) as [box | e'].
    + cbn [rbind] in G. now rewrite G.
    + cbn [rbind] in G. now injection G as ->.
Qed.

End Runs.

(* ================================================================== *)
(** * What every run of a scan has in common *)

Lemma requested_urls_app (l1 l2 : history) :
  requested_urls (l1 ++ l2) = requested_urls l1 ++ requested_urls l2.
Proof. apply flat_map_app. Qed.

Lemma saved_files_app (l1 l2 : history) :
  saved_files (l1 ++ l2) = saved_files l1 ++ saved_files l2.
Proof. apply flat_map_app. Qed.

Lemma slept_app (l1 l2 : history) :
  slept (l1 ++ l2) = (slept l1 + slept l2)%Z.
Proof.
  unfold slept. rewrite flat_map_app.
  induction (flat_map
               (fun x : entry => match fst x with
                                 | EvSleep seconds => [seconds]
                                 | _ => []
                                 end) l1) as [| z zs IH];
    cbn [app fold_right]; lia.
Qed.

(** One pass for an in-boundary point asks for exactly one page, the one
    of the point, however the pass ends. *)
Lemma point_run_requested (repr_float : Q -> string)
    (self : MapsScreenshotBot) (total : Z) (pt : point) (p : Z)
    (r : result Z) (l : history) :
  point_run repr_float self total pt p r l ->
  requested_urls l = [maps_url repr_float self (fst pt) (snd pt)].
Proof.
  intros R. destruct R; try destruct w; reflexivity.
Qed.

(** With a non-zero total, a pass that returns has written one file, named
    after the point, counted it and slept three seconds; a pass that
    raises has written none, and what it raises is what its last call
    raised. *)
Lemma point_run_outcome (repr_float : Q -> string)
    (self : MapsScreenshotBot) (total : Z) (pt : point) (p : Z)
    (r : result Z) (l : history) :
  Qeq_bool (inject_Z total) 0 = false ->
  point_run repr_float self total pt p r l ->
  match r with
  | Return p' =>
      p' = (p + 1)%Z /\ slept l = 3%Z /\
      exists timestamp,
        saved_files l =
        [capture_filename repr_float self (fst pt) (snd pt) timestamp]
  | Raise e =>
      saved_files l = [] /\
      exists l0 ev, l = l0 ++ [(ev, Some e)]
  end.
Proof.
  intros T R. destruct R as [e | w e | w ts e | w ts T' | w ts T'].
  - split; [reflexivity |]. now exists [], (EvGet (maps_url repr_float self (fst pt) (snd pt))).
  - split; [destruct w; reflexivity |].
    eexists (_ :: _ :: wait_entries (fst pt) (snd pt) w), EvScreenshot.
    reflexivity.
  - split; [destruct w; reflexivity |].
    eexists (_ :: _ :: wait_entries (fst pt) (snd pt) w
             ++ [(EvScreenshot, None)]), (EvSave _).
    cbn [app]. rewrite <- app_assoc. reflexivity.
  - congruence.
  - split; [reflexivity |]. split; [destruct w; reflexivity |].
    exists ts. destruct w; reflexivity.
Qed.

Lemma in_boundary_true (self : MapsScreenshotBot) (pt : point) :
  in_boundary self pt = true <-> is_within_boundary self pt = Return true.
Proof.
  unfold in_boundary.
  destruct (is_within_boundary self pt) as [[|] | e]; split;
    congruence.
Qed.

(** The pages asked for are those of the in-boundary candidates, in order,
    up to where the loops stopped; all of them when the loops returned. *)
Lemma loop_run_requested (repr_float : Q -> string)
    (self : MapsScreenshotBot) (total : Z) (cands : list point) (p : Z)
    (r : result Z) (l : history) :
  loop_run repr_float self total cands p r l ->
  exists k,
    requested_urls l =
    map (fun pt => maps_url repr_float self (fst pt) (snd pt))
        (firstn k (filter (in_boundary self) cands)) /\
    (forall p', r = Return p' ->
       requested_urls l =
       map (fun pt => maps_url repr_float self (fst pt) (snd pt))
           (filter (in_boundary self) cands)).
Proof.
  induction 1 as [p | pt cands p e W | pt cands p r l W R IH
                  | pt cands p e l W R | pt cands p p' l r l' W R R' IH].
  - exists 0%nat. split; [reflexivity | intros; reflexivity].
  - exists 0%nat. split; [reflexivity | intros; discriminate].
  - destruct IH as (k & E1 & E2). exists k. cbn [filter].
    replace (in_boundary self pt) with false
      by (unfold in_boundary; now rewrite W).
    split; assumption.
  - exists 1%nat. cbn [filter].
    rewrite (proj2 (in_boundary_true self pt) W).
    split; [| intros; discriminate].
    cbn [firstn map]. eapply point_run_requested; eassumption.
  - destruct IH as (k & E1 & E2). exists (S k). cbn [filter].
    rewrite (proj2 (in_boundary_true self pt) W).
    rewrite requested_urls_app, (point_run_requested _ _ _ _ _ _ _ R).
    cbn [firstn map app]. split; [now rewrite E1 |].
    intros q Hq. now rewrite (E2 q Hq).
Qed.

(** With a non-zero total: the files written are named after the first
    in-boundary candidates, one file each, in order; there is at most one
    page asked for beyond them; loops that return have written a file for
    every in-boundary candidate, slept three seconds for each and counted
    them; loops that raise pass on what their last call raised, unless it
    is the boundary test that raised. *)
Lemma loop_run_outcome (repr_float : Q -> string)
    (self : MapsScreenshotBot) (total : Z) (cands : list point) (p : Z)
    (r : result Z) (l : history) :
  Qeq_bool (inject_Z total) 0 = false ->
  loop_run repr_float self total cands p r l ->
  (exists timestamps,
     saved_files l =
     map (fun x => capture_filename repr_float self
                     (fst (fst x)) (snd (fst x)) (snd x))
         (combine (filter (in_boundary self) cands) timestamps) /\
     (List.length timestamps
      <= List.length (filter (in_boundary self) cands))%nat /\
     (List.length timestamps <= List.length (requested_urls l)
      <= List.length timestamps + 1)%nat /\
     (forall p', r = Return p' ->
        List.length timestamps
        = List.length (filter (in_boundary self) cands))) /\
  (forall p', r = Return p' ->
     p' = (p + Z.of_nat (List.length (filter (in_boundary self) cands)))%Z /\
     slept l
     = (3 * Z.of_nat (List.length (filter (in_boundary self) cands)))%Z) /\
  (forall e, r = Raise e ->
     (exists l0 ev, l = l0 ++ [(ev, Some e)]) \/
     (exists pt, In pt cands /\ is_within_boundary self pt = Raise e)).
Proof.
  intros T.
  induction 1 as [p | pt cands p e W | pt cands p r l W R IH
                  | pt cands p e l W R | pt cands p p' l r l' W R R' IH].
  - split.
    { exists []. cbn. split; [reflexivity |]. split; [lia |].
      split; [lia | intros; reflexivity]. }
    split; [| intros; discriminate].
    intros p' H. injection H as <-. cbn. split; [lia | reflexivity].
  - split.
    { exists []. rewrite combine_nil. cbn [saved_files requested_urls
        flat_map map List.length].
      split; [reflexivity |]. split; [lia |].
      split; [lia | intros; discriminate]. }
    split; [intros; discriminate |].
    intros e' H. injection H as <-. right. exists pt.
    split; [now left | exact W].
  - cbn [filter].
    replace (in_boundary self pt) with false
      by (unfold in_boundary; now rewrite W).
    destruct IH as (I1 & I2 & I3). split; [exact I1 |].
    split; [exact I2 |].
    intros e H. destruct (I3 e H) as [L | (q & Hq & Eq)];
      [now left | right; exists q; split; [now right | exact Eq]].
  - cbn [filter]. rewrite (proj2 (in_boundary_true self pt) W).
    pose proof (point_run_outcome _ _ _ _ _ _ _ T R) as (S0 & L).
    pose proof (point_run_requested _ _ _ _ _ _ _ R) as Q0.
    split.
    { exists []. rewrite S0, Q0, combine_nil. cbn [map List.length].
      split; [reflexivity |]. split; [lia |].
      split; [lia | intros; discriminate]. }
    split; [intros; discriminate |].
    intros e' H. injection H as <-. now left.
  - cbn [filter]. rewrite (proj2 (in_boundary_true self pt) W).
    pose proof (point_run_outcome _ _ _ _ _ _ _ T R) as (-> & Sl & ts & S0).
    pose proof (point_run_requested _ _ _ _ _ _ _ R) as Q0.
    destruct IH as ((tss & I1 & I1a & I1b & I1c) & I2 & I3).
    split; [| split].
    + exists (ts :: tss).
      rewrite saved_files_app, requested_urls_app, S0, Q0, I1.
      cbn [combine map app List.length fst snd].
      split; [reflexivity |]. split; [lia |]. split; [lia |].
      intros q Hq. now rewrite (I1c q Hq).
    + intros q Hq. destruct (I2 q Hq) as [-> E].
      rewrite slept_app, Sl, E. cbn [List.length]. split; lia.
    + intros e H. destruct (I3 e H) as [(l0 & ev & ->) | (q & Hq & Eq)].
      * left. exists (l ++ l0), ev. now rewrite app_assoc.
      * right. exists q. split; [now right | exact Eq].
Qed.

(** The candidates on the first longitude are never in the boundary: it
    is [lon_min], and line 55 asks for a vertex strictly below the point. *)
Lemma first_column_out (self : MapsScreenshotBot) (grid_size : Z)
    (lat0 lon0 : Q) (lats lons : list Q) :
  generate_grid self grid_size = Return (lat0 :: lats, lon0 :: lons) ->
  forall lat, in_boundary self (lat, lon0) = false.
Proof.
  intros G lat.
  destruct (generate_grid_returns_inv _ _ _ _ G)
    as (a & b & c & d & n & B & _ & _ & E1 & E2).
  destruct (linspace_samples_spec c d (Z.to_nat n)) as (L2 & F2 & _).
  rewrite <- E2 in L2, F2.
  cbn [List.length nth] in *.
  assert (C0 : lon0 == c) by (apply F2; lia).
  apply bounding_box_bounds in B. destruct B as (N & Hb & _).
  apply not_true_is_false; intros H; apply in_boundary_true in H.
  revert H. unfold is_within_boundary. apply point_in_polygon_at_min_y.
  intros p Hp. destruct (Hb p Hp) as (_ & _ & A & _). lra.
Qed.

Lemma filter_row_bound (f : point -> bool) (lat lon0 : Q) (lons : list Q) :
  f (lat, lon0) = false ->
  (List.length (filter f (map (pair lat) (lon0 :: lons)))
   <= List.length lons)%nat.
Proof.
  intros H. cbn [map filter]. rewrite H.
  etransitivity; [apply filter_length_le |]. now rewrite length_map.
Qed.

Lemma filter_rows_bound (f : point -> bool) (lon0 : Q) (lats lons : list Q) :
  (forall lat, f (lat, lon0) = false) ->
  (List.length (filter f (list_prod lats (lon0 :: lons)))
   <= List.length lats * List.length lons)%nat.
Proof.
  intros H. induction lats as [| lat lats IH]; [reflexivity |].
  cbn [list_prod]. rewrite filter_app, length_app.
  change (List.length (lat :: lats) * List.length lons)%nat
    with (List.length lons + List.length lats * List.length lons)%nat.
  apply Nat.add_le_mono; [apply (filter_row_bound f lat lon0 lons (H lat)) |].
  exact IH.
Qed.

Lemma filter_all_false {A : Type} (f : A -> bool) (l : list A) :
  (forall x, In x l -> f x = false) -> filter f l = [].
Proof.
  induction l as [| a l IH]; [reflexivity |].
  intros H. cbn [filter]. rewrite (H a (or_introl eq_refl)).
  apply IH. intros x Hx. apply H. now right.
Qed.

(** X7.  Of the [n * n] candidates of a grid at most [n * (n - 1)] are in
    the boundary: the [n] candidates on the first longitude never are.
    With no value on an axis no point is planned at all. *)
Theorem planned_points_bound
    (self : MapsScreenshotBot) (grid_size : Z)
    (lat_steps lon_steps : list Q) :
  generate_grid self grid_size = Return (lat_steps, lon_steps) ->
  (List.length (planned_points self grid_size)
   <= List.length lat_steps * (List.length lon_steps - 1))%nat.
Proof.
  intros G. unfold planned_points. rewrite G.
  unfold grid_points, point. cbn [fst snd].
  destruct lon_steps as [| lon0 lons].
  { rewrite filter_all_false; [cbn; lia |].
    intros [x y] Hx. apply in_prod_iff in Hx. destruct Hx as [_ []]. }
  destruct lat_steps as [| lat0 lats].
  { cbn. lia. }
  pose proof (first_column_out self grid_size lat0 lon0 lats lons G) as F.
  replace (List.length (lon0 :: lons) - 1)%nat with (List.length lons)
    by (cbn [List.length]; lia).
  apply (filter_rows_bound (in_boundary self) lon0 (lat0 :: lats) lons F).
Qed.

(** The bound is reached, and the first latitude is not skipped: for the
    triangle [(1, 0), (0.2, 1), (1, 1)] at zoom 18 with base grid size 2
    the grid is [0.2, 1] x [0, 1], and the two candidates at longitude 1
    are in the boundary, (0.2, 1) on the first latitude among them. *)
Lemma planned_points_bound_triangle :
  let lat_min := double (2 # 10) in
  let self := mk_bot "tri" [(1, 0); (lat_min, 1); (1, 1)] 18
                     "screenshots_tri_zoom18" in
  generate_grid self 2
    = Return (linspace_samples lat_min 1 2, linspace_samples 0 1 2) /\
  map Qred (linspace_samples lat_min 1 2) = [lat_min; 1] /\
  map Qred (linspace_samples 0 1 2) = [0; 1] /\
  map (in_boundary self)
      (grid_points (linspace_samples lat_min 1 2, linspace_samples 0 1 2))
    = [false; true; false; true] /\
  List.length (planned_points self 2) = 2%nat /\
  (List.length (planned_points self 2)
   <= List.length (linspace_samples lat_min 1 2)
      * (List.length (linspace_samples 0 1 2) - 1))%nat.
Proof.
  intros lat_min self.
  assert (G : generate_grid self 2
              = Return (linspace_samples lat_min 1 2, linspace_samples 0 1 2))
    by reflexivity.
  split; [exact G |].
  split; [vm_compute; reflexivity |].
  split; [vm_compute; reflexivity |].
  split; [vm_compute; reflexivity |].
  split; [vm_compute; reflexivity |].
  exact (planned_points_bound self 2 _ _ G).
Defined.

Lemma loop_run_nil_inv (repr_float : Q -> string) (self : MapsScreenshotBot)
    (total p : Z) (r : result Z) (l : history) :
  loop_run repr_float self total [] p r l -> r = Return p /\ l = [].
Proof.
  intros R. inversion R. now split.
Qed.

(** Loops over candidates none of which is in the boundary do nothing,
    provided the boundary test returns. *)
Lemma loop_run_nothing (repr_float : Q -> string) (self : MapsScreenshotBot)
    (total : Z) (cands : list point) (p : Z) (r : result Z) (l : history) :
  boundary_coords self <> [] ->
  filter (in_boundary self) cands = [] ->
  loop_run repr_float self total cands p r l ->
  r = Return p /\ l = [].
Proof.
  intros N F R.
  induction R as [p | pt cands p e W | pt cands p r l W R IH
                  | pt cands p e l W R | pt cands p p' l r l' W R R' IH].
  - now split.
  - exfalso. unfold is_within_boundary in W.
    destruct (point_in_polygon_returns pt _ N) as [b E]. congruence.
  - apply IH. cbn [filter] in F.
    destruct (in_boundary self pt); [discriminate | exact F].
  - cbn [filter] in F. rewrite (proj2 (in_boundary_true self pt) W) in F.
    discriminate.
  - cbn [filter] in F. rewrite (proj2 (in_boundary_true self pt) W) in F.
    discriminate.
Qed.

Lemma total_nonzero (cands : list point) :
  cands <> [] ->
  Qeq_bool (inject_Z (Z.of_nat (List.length cands))) 0 = false.
Proof.
  intros N. apply Qeq_bool_false. change 0 with (inject_Z 0).
  rewrite inject_Z_injective. destruct cands; [contradiction | cbn; lia].
Qed.

Lemma generate_grid_boundary_nonempty (self : MapsScreenshotBot)
    (grid_size : Z) (axes : list Q * list Q) :
  generate_grid self grid_size = Return axes -> boundary_coords self <> [].
Proof.
  intros G N. unfold generate_grid, bounding_box in G. rewrite N in G.
  discriminate.
Qed.

Section ScanRuns.

Variable env : environment.
Variable repr_float : Q -> string.

(** A scan is its [try] block followed by [driver.quit()]. *)
Lemma scan_city_run (self : MapsScreenshotBot) (grid_size : Z)
    (h : history) :
  exists rb l o,
    scan_city env repr_float self grid_size h =
    (match o with None => rb | Some e => Raise e end,
     h ++ l ++ [(EvQuit, o)]) /\
    ((exists e, generate_grid self grid_size = Raise e /\
                rb = Raise e /\ l = []) \/
     (exists axes r,
        generate_grid self grid_size = Return axes /\
        loop_run repr_float self
          (Z.of_nat (List.length (grid_points axes)))
          (grid_points axes) 0 r l /\
        rb = match r with Return _ => Return tt | Raise e => Raise e end)).
Proof.
  destruct (scan_try_block_run env repr_float self grid_size h)
    as (rb & l & E & B).
  exists rb, l, (outcome env (h ++ l) EvQuit). split; [| exact B].
  rewrite (scan_city_finally env repr_float self grid_size h rb (h ++ l) E).
  now rewrite <- app_assoc.
Qed.

(** X8.  When the grid cannot be generated, the scan asks for no page and
    writes no file: its only call is [driver.quit()], and it raises what
    the grid computation raised, or what [quit] raises. *)
Theorem scan_city_without_grid
    (self : MapsScreenshotBot) (grid_size : Z) (e : exn) (h : history) :
  generate_grid self grid_size = Raise e ->
  scan_city env repr_float self grid_size h =
  (match outcome env h EvQuit with
   | None => Raise e
   | Some e' => Raise e'
   end,
   h ++ [(EvQuit, outcome env h EvQuit)]).
Proof.
  intros G.
  destruct (scan_try_block_run env repr_float self grid_size h)
    as (rb & l & E & [(e' & G' & -> & ->) | (axes & r & G' & _)]);
    [| congruence].
  rewrite app_nil_r in E.
  rewrite (scan_city_finally env repr_float self grid_size h _ _ E).
  replace e' with e by congruence. reflexivity.
Qed.

(** X9.  Whatever the environment does, the pages a scan asks for are the
    planned points' pages, in the order of the loops, without gap or
    repetition, up to the point where the scan stopped; a scan that
    returns has asked for every planned point. *)
Theorem scan_city_requests_planned
    (self : MapsScreenshotBot) (grid_size : Z) (h : history) :
  exists r l k,
    scan_city env repr_float self grid_size h = (r, h ++ l) /\
    requested_urls l =
    map (fun pt => maps_url repr_float self (fst pt) (snd pt))
        (firstn k (planned_points self grid_size)) /\
    (r = Return tt ->
     requested_urls l =
     map (fun pt => maps_url repr_float self (fst pt) (snd pt))
         (planned_points self grid_size)).
Proof.
  destruct (scan_city_run self grid_size h)
    as (rb & l & o & E & [(e & G & -> & ->) | (axes & r & G & R & ->)]).
  - exists (match o with None => Raise e | Some e' => Raise e' end),
      ([] ++ [(EvQuit, o)]), 0%nat.
    split; [exact E |]. split; [reflexivity |].
    destruct o; discriminate.
  - destruct (loop_run_requested _ _ _ _ _ _ _ R) as (k & Q1 & Q2).
    eexists _, (l ++ [(EvQuit, o)]), k. split; [exact E |].
    unfold planned_points. rewrite G, requested_urls_app.
    cbn [requested_urls flat_map fst app]. rewrite app_nil_r.
    split; [exact Q1 |].
    destruct o as [e |]; [discriminate |].
    destruct r as [p' | e]; [| discriminate].
    intros _. now apply (Q2 p').
Qed.

(** X10.  Whatever the environment does, the files a scan writes are named
    after the planned points, one file per point and in their order, each
    under the bot's directory and zoom level; a page has been asked for
    every file written and for at most one point more; a scan that returns
    has written a file for every planned point. *)
Theorem scan_city_files_follow_plan
    (self : MapsScreenshotBot) (grid_size : Z) (h : history) :
  exists r l timestamps,
    scan_city env repr_float self grid_size h = (r, h ++ l) /\
    saved_files l =
    map (fun x => capture_filename repr_float self
                    (fst (fst x)) (snd (fst x)) (snd x))
        (combine (planned_points self grid_size) timestamps) /\
    (List.length timestamps
     <= List.length (planned_points self grid_size))%nat /\
    (List.length timestamps <= List.length (requested_urls l)
     <= List.length timestamps + 1)%nat /\
    (r = Return tt ->
     List.length timestamps = List.length (planned_points self grid_size)).
Proof.
  destruct (scan_city_run self grid_size h)
    as (rb & l & o & E & [(e & G & -> & ->) | (axes & r & G & R & ->)]).
  - eexists _, ([] ++ [(EvQuit, o)]), []. split; [exact E |].
    unfold planned_points. rewrite G. cbn.
    split; [reflexivity |]. split; [lia |]. split; [lia |].
    destruct o; discriminate.
  - assert (Q : exists timestamps,
               saved_files l =
               map (fun x => capture_filename repr_float self
                               (fst (fst x)) (snd (fst x)) (snd x))
                   (combine (filter (in_boundary self) (grid_points axes))
                            timestamps) /\
               (List.length timestamps
                <= List.length (filter (in_boundary self)
                                  (grid_points axes)))%nat /\
               (List.length timestamps <= List.length (requested_urls l)
                <= List.length timestamps + 1)%nat /\
               (forall p', r = Return p' ->
                  List.length timestamps
                  = List.length (filter (in_boundary self)
                                   (grid_points axes)))).
    { destruct (grid_points axes) as [| c cands] eqn:Ec.
      - apply loop_run_nil_inv in R. destruct R as [-> ->].
        exists []. cbn. split; [reflexivity |]. split; [lia |].
        split; [lia | reflexivity].
      - rewrite <- Ec in *.
        assert (T := total_nonzero (grid_points axes)
                       ltac:(rewrite Ec; discriminate)).
        exact (proj1 (loop_run_outcome _ _ _ _ _ _ _ T R)). }
    destruct Q as (tss & S1 & S2 & S3 & S4).
    eexists _, (l ++ [(EvQuit, o)]), tss. split; [exact E |].
    unfold planned_points. rewrite G, saved_files_app, requested_urls_app.
    cbn [saved_files requested_urls flat_map fst app].
    rewrite !app_nil_r.
    split; [exact S1 |]. split; [exact S2 |]. split; [exact S3 |].
    destruct o as [e |]; [discriminate |].
    destruct r as [p' | e]; [| discriminate].
    intros _. now apply (S4 p').
Qed.

(** X11.  A scan that returns has slept exactly three seconds for each
    planned point: two after asking for its page and one after its
    capture. *)
Theorem scan_city_sleeps_three_seconds_per_point
    (self : MapsScreenshotBot) (grid_size : Z) (h h' : history) :
  scan_city env repr_float self grid_size h = (Return tt, h') ->
  exists l,
    h' = h ++ l /\
    slept l = (3 * Z.of_nat (List.length (planned_points self grid_size)))%Z.
Proof.
  intros H.
  destruct (scan_city_run self grid_size h)
    as (rb & l & o & E & [(e & G & -> & ->) | (axes & r & G & R & ->)]);
    rewrite E in H; destruct o as [e' |]; try discriminate.
  destruct r as [p' | e]; [| discriminate].
  injection H as <-. exists (l ++ [(EvQuit, None)]).
  split; [reflexivity |].
  unfold planned_points. rewrite G, slept_app.
  change (slept [(EvQuit, None)]) with 0%Z. rewrite Z.add_0_r.
  destruct (grid_points axes) as [| c cands] eqn:Ec.
  - apply loop_run_nil_inv in R. destruct R as [_ ->]. reflexivity.
  - rewrite <- Ec in *.
    assert (T := total_nonzero (grid_points axes)
                   ltac:(rewrite Ec; discriminate)).
    destruct (loop_run_outcome _ _ _ _ _ _ _ T R) as (_ & S & _).
    exact (proj2 (S p' eq_refl)).
Qed.

End ScanRuns.

(** The square at zoom 18 with base grid size 4, nothing failing: nine
    planned points, twenty-seven seconds. *)
Lemma scan_city_sleeps_square :
  let self := mk_bot "sq" square 18 "screenshots_sq_zoom18" in
  let h' := snd (scan_city quiet_env repr_fraction self 4 []) in
  scan_city quiet_env repr_fraction self 4 [] = (Return tt, h') /\
  exists l,
    h' = [] ++ l /\
    slept l = (3 * Z.of_nat (List.length (planned_points self 4)))%Z.
Proof.
  intros self h'.
  assert (H : scan_city quiet_env repr_fraction self 4 [] = (Return tt, h'))
    by (vm_compute; reflexivity).
  split; [exact H |].
  exact (scan_city_sleeps_three_seconds_per_point
           quiet_env repr_fraction self 4 [] h' H).
Defined.

Section ScanEdges.

Variable env : environment.
Variable repr_float : Q -> string.

(** X12.  An exception that leaves a scan was raised by a collaborator
    call, whose entry in the history carries it, or is the one the grid
    computation raised before any page was asked for: the loops raise
    nothing of their own (no division by zero in the progress report, no
    failure of the boundary test). *)
Theorem scan_city_exception_origin
    (self : MapsScreenshotBot) (grid_size : Z) (e : exn) (h h' : history) :
  scan_city env repr_float self grid_size h = (Raise e, h') ->
  exists l,
    h' = h ++ l /\
    ((exists ev, In (ev, Some e) l) \/
     (generate_grid self grid_size = Raise e /\ l = [(EvQuit, None)])).
Proof.
  intros H.
  destruct (scan_city_run env repr_float self grid_size h)
    as (rb & l & o & E & B).
  rewrite E in H. exists (l ++ [(EvQuit, o)]).
  destruct o as [e' |].
  - injection H as <- <-. split; [reflexivity |]. left. exists EvQuit.
    apply in_or_app. right. now left.
  - destruct B as [(e' & G & -> & ->) | (axes & r & G & R & ->)].
    + injection H as <- <-. split; [reflexivity |]. right. now split.
    + destruct r as [p' | e']; [discriminate |].
      injection H as <- <-. split; [reflexivity |]. left.
      destruct (grid_points axes) as [| c cands] eqn:Ec.
      { apply loop_run_nil_inv in R. destruct R as [R _]. discriminate. }
      rewrite <- Ec in *.
      assert (T := total_nonzero (grid_points axes)
                     ltac:(rewrite Ec; discriminate)).
      destruct (loop_run_outcome _ _ _ _ _ _ _ T R) as (_ & _ & P).
      destruct (P e' eq_refl) as [(l0 & ev & ->) | (pt & _ & W)].
      * exists ev. apply in_or_app. left. apply in_or_app. right. now left.
      * exfalso. unfold is_within_boundary in W.
        destruct (point_in_polygon_returns pt _
                    (generate_grid_boundary_nonempty _ _ _ G)) as [b Eb].
        congruence.
Qed.

(** X13.  A grid with fewer than two values per axis has no point in the
    boundary: the scan asks for no page, and its only call is
    [driver.quit()]. *)
Theorem scan_city_small_grid
    (self : MapsScreenshotBot) (grid_size : Z)
    (lat_steps lon_steps : list Q) (h : history) :
  generate_grid self grid_size = Return (lat_steps, lon_steps) ->
  (List.length lat_steps <= 1)%nat ->
  scan_city env repr_float self grid_size h =
  (match outcome env h EvQuit with
   | None => Return tt
   | Some e => Raise e
   end,
   h ++ [(EvQuit, outcome env h EvQuit)]).
Proof.
  intros G L.
  assert (F : filter (in_boundary self) (grid_points (lat_steps, lon_steps))
              = []).
  { destruct (generate_grid_returns_inv _ _ _ _ G)
      as (a & b & c & d & n & _ & _ & _ & E1 & E2).
    destruct (linspace_samples_spec a b (Z.to_nat n)) as (L1 & _).
    destruct (linspace_samples_spec c d (Z.to_nat n)) as (L2 & _).
    rewrite <- E1 in L1. rewrite <- E2 in L2.
    unfold grid_points. cbn [fst snd].
    destruct lat_steps as [| lat0 [| lat1 lats]];
      [reflexivity | | cbn in L; lia].
    destruct lon_steps as [| lon0 [| lon1 lons]];
      [reflexivity | | cbn in L1, L2; lia].
    apply filter_all_false. intros [x y] Hx.
    apply in_prod_iff in Hx. destruct Hx as [[<- | []] [<- | []]].
    apply (first_column_out self grid_size lat0 lon0 [] [] G lat0). }
  destruct (scan_try_block_run env repr_float self grid_size h)
    as (rb & l & E & [(e' & G' & _) | (axes & r & G' & R & ->)]);
    [congruence |].
  assert (axes = (lat_steps, lon_steps)) by congruence. subst axes.
  destruct (loop_run_nothing _ _ _ _ _ _ _
              (generate_grid_boundary_nonempty _ _ _ G) F R) as [-> ->].
  rewrite app_nil_r in E.
  exact (scan_city_finally env repr_float self grid_size h _ _ E).
Qed.

End ScanEdges.

(** A scan of the empty boundary, the browser failing to quit. *)
Lemma scan_city_exception_origin_quit :
  let env := mk_env (fun _ ev => match ev with
                                 | EvQuit => Some (External "WebDriverException")
                                 | _ => None
                                 end)
                    (fun _ _ => false) (fun _ => "20240101-000000"%string) in
  let self := mk_bot "nowhere" [] 18 "screenshots_nowhere_zoom18" in
  scan_city env repr_fraction self 10 []
    = (Raise (External "WebDriverException"),
       [(EvQuit, Some (External "WebDriverException"))]) /\
  exists l,
    [(EvQuit, Some (External "WebDriverException"))] = [] ++ l /\
    ((exists ev, In (ev, Some (External "WebDriverException")) l) \/
     (generate_grid self 10 = Raise (External "WebDriverException") /\
      l = [(EvQuit, None)])).
Proof.
  intros env self.
  assert (H : scan_city env repr_fraction self 10 []
              = (Raise (External "WebDriverException"),
                 [(EvQuit, Some (External "WebDriverException"))]))
    by reflexivity.
  split; [exact H |].
  exact (scan_city_exception_origin env repr_fraction self 10 _ [] _ H).
Defined.

(** The square at zoom 18 with base grid size 1: one candidate, the low
    corner, and no capture. *)
Lemma scan_city_small_grid_square :
  let self := mk_bot "sq" square 18 "screenshots_sq_zoom18" in
  generate_grid self 1 = Return (linspace_samples 0 2 1, linspace_samples 0 2 1)
  /\ (List.length (linspace_samples 0 2 1) <= 1)%nat /\
  scan_city quiet_env repr_fraction self 1 [] =
  (match outcome quiet_env [] EvQuit with
   | None => Return tt
   | Some e => Raise e
   end,
   [] ++ [(EvQuit, outcome quiet_env [] EvQuit)]).
Proof.
  intros self.
  assert (G : generate_grid self 1
              = Return (linspace_samples 0 2 1, linspace_samples 0 2 1))
    by reflexivity.
  assert (L : (List.length (linspace_samples 0 2 1) <= 1)%nat)
    by (cbn; lia).
  split; [exact G |]. split; [exact L |].
  exact (scan_city_small_grid quiet_env repr_fraction self 1 _ _ [] G L).
Defined.

(** The empty boundary: [ValueError] and nothing but [quit]. *)
Lemma scan_city_without_grid_empty :
  let self := mk_bot "nowhere" [] 18 "screenshots_nowhere_zoom18" in
  generate_grid self 10 = Raise ValueError /\
  scan_city quiet_env repr_fraction self 10 [] =
  (match outcome quiet_env [] EvQuit with
   | None => Raise ValueError
   | Some e' => Raise e'
   end,
   [] ++ [(EvQuit, outcome quiet_env [] EvQuit)]).
Proof.
  intros self.
  assert (G : generate_grid self 10 = Raise ValueError) by reflexivity.
  split; [exact G |].
  exact (scan_city_without_grid quiet_env repr_fraction self 10 ValueError
           [] G).
Defined.

(* ================================================================== *)
(** * Progress reports in every run *)

Lemma point_run_reports (repr_float : Q -> string)
    (self : MapsScreenshotBot) (total : Z) (pt : point) (p : Z)
    (r : result Z) (l : history) :
  point_run repr_float self total pt p r l ->
  Forall (report_within total p (p + 1)) l.
Proof.
  intros R. destruct R; try destruct w; repeat constructor;
    unfold report_within; cbn [fst]; try exact I; try lia.
Qed.

Lemma report_within_weaken (total lo hi lo' hi' : Z) (l : history) :
  (lo' <= lo)%Z -> (hi <= hi')%Z ->
  Forall (report_within total lo hi) l ->
  Forall (report_within total lo' hi') l.
Proof.
  intros H1 H2. apply Forall_impl. intros [ev o]. unfold report_within.
  cbn [fst]. destruct ev; trivial. destruct m; trivial.
  intros (E1 & E2 & E3). repeat split; try assumption; lia.
Qed.

(** The reports of the loops count upwards from [p], by at most the number
    of in-boundary candidates. *)
Lemma loop_run_reports (repr_float : Q -> string)
    (self : MapsScreenshotBot) (total : Z) (cands : list point) (p : Z)
    (r : result Z) (l : history) :
  loop_run repr_float self total cands p r l ->
  Forall (report_within total p
            (p + Z.of_nat (List.length (filter (in_boundary self) cands))))
         l.
Proof.
  induction 1 as [p | pt cands p e W | pt cands p r l W R IH
                  | pt cands p e l W R | pt cands p p' l r l' W R R' IH].
  - constructor.
  - constructor.
  - cbn [filter].
    replace (in_boundary self pt) with false
      by (unfold in_boundary; now rewrite W).
    exact IH.
  - cbn [filter]. rewrite (proj2 (in_boundary_true self pt) W).
    eapply report_within_weaken; [| | eapply point_run_reports; eassumption];
      cbn [List.length]; lia.
  - cbn [filter]. rewrite (proj2 (in_boundary_true self pt) W).
    assert (p' = (p + 1)%Z) by (inversion R; reflexivity). subst p'.
    apply Forall_app. split.
    + eapply report_within_weaken;
        [| | eapply point_run_reports; eassumption];
        cbn [List.length]; lia.
    + eapply report_within_weaken; [| | exact IH]; cbn [List.length]; lia.
Qed.

Section Progress.

Variable env : environment.
Variable repr_float : Q -> string.

(** X14.  Whatever the environment does and however the scan ends, every
    progress report it prints reads [processed/total] with
    [0 < processed < total], [total] being the number of candidates, and
    a percentage strictly between 0 and 100: no report ever shows 100
    percent. *)
Theorem scan_city_progress_below_total
    (self : MapsScreenshotBot) (grid_size : Z) (h : history) :
  exists r l,
    scan_city env repr_float self grid_size h = (r, h ++ l) /\
    forall percent processed total o,
      In (EvPrint (ProgressReport percent processed total), o) l ->
      (0 < processed < total)%Z /\
      percent = inject_Z processed / inject_Z total * 100 /\
      0 < percent /\ percent < 100 /\
      exists axes,
        generate_grid self grid_size = Return axes /\
        total = Z.of_nat (List.length (grid_points axes)).
Proof.
  destruct (scan_city_run env repr_float self grid_size h)
    as (rb & l & o & E & [(e & G & -> & ->) | (axes & r & G & R & ->)]).
  - eexists _, ([] ++ [(EvQuit, o)]). split; [exact E |].
    intros pc p t o' [H | []]. discriminate.
  - eexists _, (l ++ [(EvQuit, o)]). split; [exact E |].
    intros pc p t o' Hin. apply in_app_or in Hin.
    destruct Hin as [Hin | [Hin | []]]; [| discriminate].
    pose proof (loop_run_reports _ _ _ _ _ _ _ R) as F.
    rewrite Forall_forall in F. specialize (F _ Hin).
    unfold report_within in F. cbn [fst] in F.
    destruct F as (-> & [P1 P2] & ->).
    assert (C : (List.length (filter (in_boundary self) (grid_points axes))
                 < List.length (grid_points axes))%nat).
    { apply (inside_count_lt self grid_size axes G).
      intros N. rewrite N in P2. cbn in P2. lia. }
    assert (T : (0 < p < Z.of_nat (List.length (grid_points axes)))%Z)
      by lia.
    split; [exact T |]. split; [reflexivity |].
    assert (HT : 0 < inject_Z (Z.of_nat (List.length (grid_points axes)))).
    { change 0 with (inject_Z 0). rewrite <- Zlt_Qlt. lia. }
    assert (HP : 0 < inject_Z p).
    { change 0 with (inject_Z 0). rewrite <- Zlt_Qlt. lia. }
    assert (HL : inject_Z p
                 < inject_Z (Z.of_nat (List.length (grid_points axes)))).
    { rewrite <- Zlt_Qlt. lia. }
    set (t := inject_Z (Z.of_nat (List.length (grid_points axes)))) in *.
    set (q := inject_Z p / t).
    assert (Hq : q * t == inject_Z p) by (subst q; field; lra).
    assert (Q0 : 0 < q).
    { destruct (Qlt_le_dec 0 q) as [L | L]; [exact L | nra]. }
    assert (Q1 : q < 1).
    { destruct (Qlt_le_dec q 1) as [L | L]; [exact L | nra]. }
    split; [lra |]. split; [lra |].
    exists axes. now split.
Qed.

End Progress.

(* ================================================================== *)
(** * The constructor and [create_detailed_map] *)

Section Construction.

Variable env : environment.
Variable repr_float : Q -> string.

(** What [__init__] does, in every environment: it only starts the
    browser and possibly makes the directory, and the bot it returns is
    determined by its arguments. *)
Lemma __init___run (city0 : string) (boundary : list point) (zoom_arg : Z)
    (h : history) :
  exists r l,
    __init__ env city0 boundary zoom_arg h = (r, h ++ l) /\
    Forall is_setup_or_quit l /\
    forall bot, r = Return bot ->
      bot = mk_bot city0 boundary (Z.min 21 (Z.max 0 zoom_arg))
              ("screenshots_" ++ city0 ++ "_zoom" ++ str_int zoom_arg).
Proof.
  unfold __init__, bind, call, exists_path, ret.
  destruct (outcome env h EvChrome) as [e |].
  - eexists _, [_]. split; [reflexivity |].
    split; [repeat constructor | intros; discriminate].
  - match goal with
    | |- context [path_exists env ?hh ?p] => destruct (path_exists env hh p)
    end; cbn [negb].
    + eexists _, [_]. split; [reflexivity |].
      split; [repeat constructor |]. now intros bot [= <-].
    + match goal with
      | |- context [outcome env ?hh ?ev] => destruct (outcome env hh ev)
      end.
      * eexists _, [_; _]. rewrite <- app_assoc.
        split; [reflexivity |].
        split; [repeat constructor | intros; discriminate].
      * eexists _, [_; _]. rewrite <- app_assoc.
        split; [reflexivity |].
        split; [repeat constructor |]. now intros bot [= <-].
Qed.

(** X15.  [create_detailed_map] never gets past its first preset and never
    returns: after announcing the "overview" scan it starts the browser,
    and then either the constructor raises or the scan at zoom 16 fails to
    generate its grid; no page is asked for and no file is written. *)
Theorem create_detailed_map_never_scans
    (city_name : string) (boundary : list point) (h : history) :
  exists e l,
    create_detailed_map env repr_float city_name boundary h
      = (Raise e, h ++ (EvPrint (StartingScan "overview" 16), None) :: l) /\
    Forall is_setup_or_quit l /\
    requested_urls l = [] /\
    saved_files l = [].
Proof.
  assert (S : forall l, Forall is_setup_or_quit l ->
                        requested_urls l = [] /\ saved_files l = []).
  { induction 1 as [| [ev o] l Hx _ [IH1 IH2]]; [now split |].
    unfold requested_urls, saved_files in *. cbn [flat_map fst].
    rewrite IH1, IH2.
    destruct ev; try destruct Hx; destruct o; now split. }
  unfold create_detailed_map, zoom_levels. cbn [for_eachM].
  unfold bind at 1. unfold bind at 1. unfold emit at 1. unfold bind at 1.
  destruct (__init___run city_name boundary 16
              (h ++ [(EvPrint (StartingScan "overview" 16), None)]))
    as (r & l1 & E & F1 & B).
  rewrite E. destruct r as [bot | e].
  - specialize (B bot eq_refl).
    assert (G : exists e, generate_grid bot 10 = Raise e).
    { destruct boundary as [| p0 l0] eqn:Eb.
      - exists ValueError. subst bot. reflexivity.
      - exists TypeError. apply generate_grid_low_zoom; subst bot; cbn.
        + discriminate.
        + lia. }
    destruct G as [e G].
    rewrite (scan_city_finally env repr_float bot 10 _ (Raise e) _
               (scan_try_block_grid_raises env repr_float bot 10 e _ G)).
    set (o := outcome env
                ((h ++ [(EvPrint (StartingScan "overview" 16), None)]) ++ l1)
                EvQuit).
    exists (match o with None => e | Some e' => e' end),
      (l1 ++ [(EvQuit, o)]).
    rewrite <- !app_assoc. cbn [app].
    split; [destruct o; reflexivity |].
    assert (F : Forall is_setup_or_quit (l1 ++ [(EvQuit, o)])).
    { apply Forall_app. split; [exact F1 | repeat constructor]. }
    split; [exact F | exact (S _ F)].
  - exists e, l1. rewrite <- app_assoc. cbn [app].
    split; [reflexivity |]. split; [exact F1 | exact (S _ F1)].
Qed.

(** X16.  However large the zoom level asked of the constructor, a scan
    that gets a grid examines at most [64 * grid_size^2] candidates: the
    stored zoom level is between 18 and 21 then, and each axis holds
    [grid_size * 2^(zoom_level - 18)] values. *)
Theorem constructed_bot_grid_bound
    (city0 : string) (boundary : list point) (zoom_arg grid_size : Z)
    (h h1 : history) (bot : MapsScreenshotBot)
    (lat_steps lon_steps : list Q) :
  __init__ env city0 boundary zoom_arg h = (Return bot, h1) ->
  generate_grid bot grid_size = Return (lat_steps, lon_steps) ->
  (18 <= zoom_level bot <= 21)%Z /\
  Z.of_nat (List.length lat_steps)
    = (grid_size * 2 ^ (zoom_level bot - 18))%Z /\
  Z.of_nat (List.length lon_steps)
    = (grid_size * 2 ^ (zoom_level bot - 18))%Z /\
  (Z.of_nat (List.length (grid_points (lat_steps, lon_steps)))
   <= 64 * grid_size * grid_size)%Z.
Proof.
  intros Hi G.
  destruct (__init___run city0 boundary zoom_arg h) as (r & l & E & _ & B).
  rewrite E in Hi. injection Hi as -> _. specialize (B bot eq_refl).
  destruct (generate_grid_returns_inv _ _ _ _ G)
    as (a & b & c & d & n & _ & An & Hn & -> & ->).
  assert (Hz : (18 <= zoom_level bot <= 21)%Z).
  { split; [| subst bot; cbn; lia].
    destruct (Z.lt_ge_cases (zoom_level bot) 18) as [L | L]; [| exact L].
    destruct (actual_grid_size_float bot grid_size L) as [q Eq].
    congruence. }
  rewrite (actual_grid_size_int bot grid_size (proj1 Hz)) in An.
  injection An as <-.
  destruct (linspace_samples_spec a b
              (Z.to_nat (grid_size * 2 ^ (zoom_level bot - 18)))) as (L1 & _).
  destruct (linspace_samples_spec c d
              (Z.to_nat (grid_size * 2 ^ (zoom_level bot - 18)))) as (L2 & _).
  split; [exact Hz |].
  split; [rewrite L1; lia |]. split; [rewrite L2; lia |].
  unfold grid_points, point. cbn [fst snd].
  rewrite length_prod, L1, L2, Nat2Z.inj_mul, !Z2Nat.id by exact Hn.
  assert (K : (zoom_level bot - 18 = 0 \/ zoom_level bot - 18 = 1 \/
               zoom_level bot - 18 = 2 \/ zoom_level bot - 18 = 3)%Z) by lia.
  destruct K as [K | [K | [K | K]]]; rewrite K in *;
    change (2 ^ 0)%Z with 1%Z in *; change (2 ^ 1)%Z with 2%Z in *;
    change (2 ^ 2)%Z with 4%Z in *; change (2 ^ 3)%Z with 8%Z in *; nia.
Qed.

(** X17.  For a [zoom_level] argument within [0, 21] the stored zoom level
    is the argument itself, and the names agree: every URL a scan asks for
    ends in that zoom level, and every file it saves lies in the directory
    named with it and carries it after [_z]. *)
Theorem zoom_level_in_range_names_agree
    (city0 : string) (boundary : list point) (zoom_arg : Z)
    (h h1 : history) (bot : MapsScreenshotBot) :
  (0 <= zoom_arg <= 21)%Z ->
  __init__ env city0 boundary zoom_arg h = (Return bot, h1) ->
  zoom_level bot = zoom_arg /\
  forall grid_size h2, exists r l,
    scan_city env repr_float bot grid_size h2 = (r, h2 ++ l) /\
    Forall
      (fun x : entry =>
         match fst x with
         | EvGet url =>
             exists lat lon,
               url = ("https://www.google.com/maps/@" ++ repr_float lat ++
                      "," ++ repr_float lon ++ "," ++
                      str_int zoom_arg ++ "z")%string
         | EvSave filename =>
             exists lat lon timestamp,
               filename =
               (("screenshots_" ++ city0 ++ "_zoom" ++ str_int zoom_arg) ++
                "/" ++ city0 ++ "_" ++ repr_float lat ++ "_" ++
                repr_float lon ++ "_z" ++ str_int zoom_arg ++
                "_" ++ timestamp ++ ".png")%string
         | _ => True
         end) l.
Proof.
  intros Hz Hi.
  destruct (__init___run city0 boundary zoom_arg h) as (r0 & l0 & E0 & _ & B).
  rewrite E0 in Hi. injection Hi as -> _. specialize (B bot eq_refl).
  assert (Z0 : Z.min 21 (Z.max 0 zoom_arg) = zoom_arg) by lia.
  rewrite Z0 in B. subst bot. cbn [zoom_level].
  split; [reflexivity |].
  intros grid_size h2.
  destruct (scan_try_block_only env repr_float
              (mk_bot city0 boundary zoom_arg
                 ("screenshots_" ++ city0 ++ "_zoom" ++ str_int zoom_arg))
              grid_size h2)
    as (rb & l & E & Hl).
  eexists _, (l ++ [(EvQuit, outcome env (h2 ++ l) EvQuit)]).
  split.
  { rewrite (scan_city_finally env repr_float _ grid_size h2 rb (h2 ++ l) E).
    now rewrite <- app_assoc. }
  apply Forall_app. split.
  - eapply Forall_impl; [| exact Hl].
    intros [ev o']. unfold scan_entry, maps_url, capture_filename.
    cbn [fst zoom_level screenshot_path city].
    destruct ev; trivial.
  - repeat constructor.
Qed.

End Construction.

(** A grid at the top zoom level, asked for with [zoom_level=25]. *)
Lemma constructed_bot_grid_bound_zoom25 :
  let bot := mk_bot "sq" square 21 "screenshots_sq_zoom25" in
  __init__ quiet_env "sq" square 25 []
    = (Return bot,
       [(EvChrome, None); (EvMakedirs "screenshots_sq_zoom25", None)]) /\
  generate_grid bot 1
    = Return (linspace_samples 0 2 8, linspace_samples 0 2 8) /\
  (18 <= zoom_level bot <= 21)%Z /\
  Z.of_nat (List.length (linspace_samples 0 2 8))
    = (1 * 2 ^ (zoom_level bot - 18))%Z /\
  Z.of_nat (List.length (linspace_samples 0 2 8))
    = (1 * 2 ^ (zoom_level bot - 18))%Z /\
  (Z.of_nat (List.length
               (grid_points (linspace_samples 0 2 8, linspace_samples 0 2 8)))
   <= 64 * 1 * 1)%Z.
Proof.
  intros bot.
  assert (Hi : __init__ quiet_env "sq" square 25 []
               = (Return bot,
                  [(EvChrome, None);
                   (EvMakedirs "screenshots_sq_zoom25", None)]))
    by reflexivity.
  assert (G : generate_grid bot 1
              = Return (linspace_samples 0 2 8, linspace_samples 0 2 8))
    by reflexivity.
  split; [exact Hi |]. split; [exact G |].
  exact (constructed_bot_grid_bound quiet_env "sq" square 25 1 [] _ bot
           _ _ Hi G).
Defined.

(** A bot built with [zoom_level=19]. *)
Lemma zoom_level_in_range_zoom19 :
  let bot := mk_bot "sq" square 19 "screenshots_sq_zoom19" in
  (0 <= 19 <= 21)%Z /\
  __init__ quiet_env "sq" square 19 []
    = (Return bot,
       [(EvChrome, None); (EvMakedirs "screenshots_sq_zoom19", None)]) /\
  zoom_level bot = 19%Z /\
  forall grid_size h2, exists r l,
    scan_city quiet_env repr_fraction bot grid_size h2 = (r, h2 ++ l) /\
    Forall
      (fun x : entry =>
         match fst x with
         | EvGet url =>
             exists lat lon,
               url = ("https://www.google.com/maps/@" ++ repr_fraction lat ++
                      "," ++ repr_fraction lon ++ "," ++
                      str_int 19 ++ "z")%string
         | EvSave filename =>
             exists lat lon timestamp,
               filename =
               (("screenshots_" ++ "sq" ++ "_zoom" ++ str_int 19) ++
                "/" ++ "sq" ++ "_" ++ repr_fraction lat ++ "_" ++
                repr_fraction lon ++ "_z" ++ str_int 19 ++
                "_" ++ timestamp ++ ".png")%string
         | _ => True
         end) l.
Proof.
  intros bot.
  assert (Hz : (0 <= 19 <= 21)%Z) by lia.
  assert (Hi : __init__ quiet_env "sq" square 19 []
               = (Return bot,
                  [(EvChrome, None);
                   (EvMakedirs "screenshots_sq_zoom19", None)]))
    by reflexivity.
  split; [exact Hz |]. split; [exact Hi |].
  exact (zoom_level_in_range_names_agree quiet_env repr_fraction
           "sq" square 19 [] _ bot Hz Hi).
Defined.

(* ================================================================== *)
(** * Small and simple boundaries *)

Lemma edge_toggles_horizontal (x y : Q) (p1 p2 : point) :
  snd p1 == snd p2 -> edge_toggles x y (p1, p2) = false.
Proof.
  intros E. unfold edge_toggles.
  destruct (crossing_candidate y p1 p2) eqn:C; [| reflexivity].
  apply crossing_candidate_not_horizontal in C. contradiction.
Qed.

Lemma crossing_candidate_sym (y : Q) (p1 p2 : point) :
  crossing_candidate y p2 p1 = crossing_candidate y p1 p2.
Proof.
  apply bool_eq_iff. rewrite !crossing_candidate_iff.
  now rewrite (Q.min_comm (snd p2)), (Q.max_comm (snd p2)).
Qed.

(** On a vertical edge the shortcut of line 60 applies, so the intercept
    is not looked at and both directions of the edge do the same. *)
Lemma edge_toggles_vertical_sym (x y : Q) (p1 p2 : point) :
  fst p1 == fst p2 -> edge_toggles x y (p2, p1) = edge_toggles x y (p1, p2).
Proof.
  intros E. unfold edge_toggles.
  assert (E1 : Qeq_bool (fst p1) (fst p2) = true) by now apply Qeq_bool_iff.
  assert (E2 : Qeq_bool (fst p2) (fst p1) = true)
    by (apply Qeq_bool_iff; now symmetry).
  rewrite E1, E2. cbn [orb]. rewrite crossing_candidate_sym.
  do 2 f_equal. apply Qleb_comp; [reflexivity | apply Q.max_comm].
Qed.

(** X18.  A boundary of a single vertex contains no point, and neither
    does a boundary of two vertices on a common vertical or horizontal
    line: every edge is degenerate or horizontal, or is a vertical edge
    walked once in each direction.  A slanted boundary of two vertices can
    contain a point, because the two directions of its edge round
    differently in line 59: the test accepts (0.2, 1) for
    [(1, 0), (0.2, 1)]. *)
Theorem point_in_polygon_degenerate :
  (forall pt a, point_in_polygon pt [a] = Return false) /\
  (forall pt a b,
     fst a == fst b \/ snd a == snd b ->
     point_in_polygon pt [a; b] = Return false) /\
  point_in_polygon (double (2 # 10), 1) [(1, 0); (double (2 # 10), 1)]
    = Return true.
Proof.
  split; [| split; [| vm_compute; reflexivity]].
  - intros [x y] a. rewrite point_in_polygon_parity. f_equal.
    unfold visited_edges. cbn [app consec map parity fold_right].
    now rewrite !edge_toggles_degenerate.
  - intros [x y] a b H. rewrite point_in_polygon_parity. f_equal.
    unfold visited_edges. cbn [app consec map parity fold_right].
    rewrite edge_toggles_degenerate. destruct H as [H | H].
    + rewrite (edge_toggles_vertical_sym x y a b H).
      cbn [xorb]. rewrite xorb_false_r. apply xorb_nilpotent.
    + rewrite (edge_toggles_horizontal x y a b H).
      rewrite (edge_toggles_horizontal x y b a) by now symmetry.
      reflexivity.
Qed.

Lemma edge_toggles_vertical (x y u v w : Q) :
  edge_toggles x y ((u, v), (u, w)) =
  crossing_candidate y (u, v) (u, w) && Qle_bool x u.
Proof.
  unfold edge_toggles. cbn [fst snd].
  rewrite (Qeq_bool_refl u). cbn [orb]. rewrite andb_true_r.
  f_equal. apply Qleb_comp; [reflexivity | apply Q.max_id].
Qed.

Lemma crossing_candidate_ascending (y c d : Q) (p1 p2 : point) :
  snd p1 == c -> snd p2 == d -> c <= d ->
  crossing_candidate y p1 p2 = Qgtb y c && Qle_bool y d.
Proof.
  intros E1 E2 H. apply bool_eq_iff.
  rewrite crossing_candidate_iff, andb_true_iff, Qgtb_true, Qle_bool_iff.
  rewrite E1, E2, (Q.min_l c d H), (Q.max_r c d H). reflexivity.
Qed.

Lemma crossing_candidate_descending (y c d : Q) (p1 p2 : point) :
  snd p1 == d -> snd p2 == c -> c <= d ->
  crossing_candidate y p1 p2 = Qgtb y c && Qle_bool y d.
Proof.
  intros E1 E2 H. apply bool_eq_iff.
  rewrite crossing_candidate_iff, andb_true_iff, Qgtb_true, Qle_bool_iff.
  rewrite E1, E2, (Q.min_r d c H), (Q.max_l d c H). reflexivity.
Qed.

(** X19.  For a rectangular boundary with corners listed as
    [(a,c), (a,d), (b,d), (b,c)], [a < b] and [c < d], the test accepts
    exactly the points with [a < x <= b] and [c < y <= d]: the high sides
    belong to the rectangle, the low sides do not. *)
Theorem point_in_polygon_rectangle (a b c d x y : Q) :
  a < b -> c < d ->
  point_in_polygon (x, y) [(a, c); (a, d); (b, d); (b, c)] =
  Return (Qgtb x a && Qle_bool x b && (Qgtb y c && Qle_bool y d)).
Proof.
  intros Hab Hcd. rewrite point_in_polygon_parity. f_equal.
  unfold visited_edges. cbn [app consec map parity fold_right].
  rewrite edge_toggles_degenerate.
  rewrite (edge_toggles_horizontal x y (a, d) (b, d)) by reflexivity.
  rewrite (edge_toggles_horizontal x y (b, c) (a, c)) by reflexivity.
  rewrite !edge_toggles_vertical.
  rewrite (crossing_candidate_ascending y c d (a, c) (a, d))
    by (cbn; try reflexivity; lra).
  rewrite (crossing_candidate_descending y c d (b, d) (b, c))
    by (cbn; try reflexivity; lra).
  unfold Qgtb at 3.
  destruct (Qle_bool x a) eqn:Xa; destruct (Qle_bool x b) eqn:Xb;
    destruct (Qgtb y c && Qle_bool y d); try reflexivity.
  apply Qle_bool_iff in Xa.
  assert (Xb' : x <= b) by lra. apply Qle_bool_iff in Xb'. congruence.
Qed.

(** The rectangle [0, 2] x [0, 2] and its centre. *)
Lemma point_in_polygon_rectangle_centre :
  0 < 2 /\ 0 < 2 /\
  point_in_polygon (1, 1) [(0, 0); (0, 2); (2, 2); (2, 0)] =
  Return (Qgtb 1 0 && Qle_bool 1 2 && (Qgtb 1 0 && Qle_bool 1 2)).
Proof.
  assert (H : 0 < 2) by reflexivity.
  split; [exact H |]. split; [exact H |].
  exact (point_in_polygon_rectangle 0 2 0 2 1 1 H H).
Defined.
